(** * template2slide: asset resolution and content normalisation

    A shallow embedding of [scripts/generate_from_json.js]: the file-type
    validator, the HTTP retrieval helpers, the Google Drive fetcher, the
    Mermaid renderer with the diagram loop of [generatePresentation], and
    the System Requirements aggregation, followed by the properties proved
    about them.

    Conventions of the embedding.
    - A JavaScript string is the [string] of the bytes of its UTF-8
      encoding.  [trim] and the class [\s] know the white space of
      ECMAScript, inside and outside ASCII.  [toLowerCase] maps the ASCII
      letters only: every pattern that the program searches for is ASCII,
      and the name of a group is modelled for section names whose capital
      letters are ASCII.
    - A [Buffer] is a [list byte].
    - [async] functions are computations in the monad [M]: they read and
      write a [World] (the files on disk and the log of calls made to
      outside collaborators) and finish with a value or a thrown error.
      An operation of the file system fails when the file it names is
      absent; the paths a caller passes in lie in directories that exist,
      a path the program computes itself may not ([can_write]).
    - The outside world (HTTP servers, the Playwright page, [mmdc], [sharp],
      the URL parser) is an [Env] of oracles.  An oracle is asked with the
      number of calls made so far, so its answers may change over time. *)

From Stdlib Require Import ZArith Ascii String Lia.
From Stdlib.Strings Require Import Byte.
From stdpp Require Import gmap strings list pretty.
From Equations Require Import Equations.

Open Scope string_scope.
Open Scope list_scope.

(** ** JavaScript string primitives *)

Module JsString.

Definition isUpper (c : ascii) : bool :=
  let n := nat_of_ascii c in (65 <=? n)%nat && (n <=? 90)%nat.

Definition lowerChar (c : ascii) : ascii :=
  if isUpper c then ascii_of_nat (nat_of_ascii c + 32) else c.

(** [s.toLowerCase()] *)
Fixpoint toLowerCase (s : string) : string :=
  match s with
  | EmptyString => EmptyString
  | String c s' => String (lowerChar c) (toLowerCase s')
  end.

(** [s.startsWith(pat)] *)
Definition startsWith (s pat : string) : bool := String.prefix pat s.

(** [s.includes(pat)] *)
Fixpoint includes (s pat : string) : bool :=
  startsWith s pat ||
  match s with
  | EmptyString => false
  | String _ s' => includes s' pat
  end.

(** The white space of ASCII: TAB, LF, VT, FF, CR and the space. *)
Definition isSpace (c : ascii) : bool :=
  let n := nat_of_ascii c in
  ((9 <=? n)%nat && (n <=? 13)%nat) || (n =? 32)%nat.

(** The white space outside ASCII, by the bytes of its UTF-8 encoding:
    U+00A0 is [C2 A0]; U+1680 is [E1 9A 80]; U+2000 to U+200A, U+2028,
    U+2029 and U+202F are [E2 80 80] to [E2 80 8A], [E2 80 A8], [E2 80 A9]
    and [E2 80 AF]; U+205F is [E2 81 9F]; U+3000 is [E3 80 80]; U+FEFF is
    [EF BB BF]. *)
Definition isSpace2 (a b : ascii) : bool :=
  (nat_of_ascii a =? 194)%nat && (nat_of_ascii b =? 160)%nat.

Definition isSpace3 (a b c : ascii) : bool :=
  let x := nat_of_ascii a in
  let y := nat_of_ascii b in
  let z := nat_of_ascii c in
  ((x =? 225)%nat && (y =? 154)%nat && (z =? 128)%nat) ||
  ((x =? 226)%nat && (y =? 128)%nat &&
   (((128 <=? z)%nat && (z <=? 138)%nat) || (z =? 168)%nat ||
    (z =? 169)%nat || (z =? 175)%nat)) ||
  ((x =? 226)%nat && (y =? 129)%nat && (z =? 159)%nat) ||
  ((x =? 227)%nat && (y =? 128)%nat && (z =? 128)%nat) ||
  ((x =? 239)%nat && (y =? 187)%nat && (z =? 191)%nat).

(** The number of bytes of the white-space character at the head of [s],
    0 when [s] does not start with one.  White space is the class [\s] of
    regular expressions, which is also what [trim] strips: WhiteSpace and
    LineTerminator of ECMAScript. *)
Definition spaceWidth (s : string) : nat :=
  match s with
  | String a r =>
      if isSpace a then 1
      else match r with
           | String b r' =>
               if isSpace2 a b then 2
               else match r' with
                    | String c _ => if isSpace3 a b c then 3 else 0
                    | EmptyString => 0
                    end
           | EmptyString => 0
           end
  | EmptyString => 0
  end.

Fixpoint trimStart (s : string) : string :=
  match s with
  | EmptyString => EmptyString
  | String _ s1 =>
      match spaceWidth s with
      | 0 => s
      | 1 => trimStart s1
      | 2 => match s1 with
             | String _ s2 => trimStart s2
             | EmptyString => s
             end
      | _ => match s1 with
             | String _ (String _ s3) => trimStart s3
             | _ => s
             end
      end
  end.

(** The end of the string is cut where only white space follows. *)
Fixpoint trimEnd (s : string) : string :=
  match s with
  | EmptyString => EmptyString
  | String c s' =>
      match trimStart s with
      | EmptyString => EmptyString
      | _ => String c (trimEnd s')
      end
  end.

(** [s.trim()] *)
Definition trim (s : string) : string := trimEnd (trimStart s).

(** [l.join(sep)] *)
Fixpoint join (sep : string) (l : list string) : string :=
  match l with
  | [] => ""
  | [s] => s
  | s :: l' => s +:+ sep +:+ join sep l'
  end.

(** [s.replace(/\s+/g, by)]: every maximal run of white space becomes
    one copy of [by].  A step takes at least one byte of [s], so the
    length of [s] is fuel enough. *)
Fixpoint replaceSpacesWithin (fuel : nat) (by_ : string) (s : string)
  : string :=
  match fuel, s with
  | S fuel', String c s' =>
      match spaceWidth s with
      | 0 => String c (replaceSpacesWithin fuel' by_ s')
      | _ => by_ +:+ replaceSpacesWithin fuel' by_ (trimStart s)
      end
  | _, _ => s
  end.

Definition replaceSpaces (by_ : string) (s : string) : string :=
  replaceSpacesWithin (String.length s) by_ s.

(** [s.slice(n)] *)
Fixpoint dropChars (n : nat) (s : string) : string :=
  match n, s with
  | S n', String _ s' => dropChars n' s'
  | _, _ => s
  end.

(** [s.replace(pat, by)] with a string pattern: the first occurrence. *)
Fixpoint replaceFirst (pat by_ s : string) : string :=
  if startsWith s pat then by_ +:+ dropChars (String.length pat) s
  else match s with
       | String c s' => String c (replaceFirst pat by_ s')
       | EmptyString => EmptyString
       end.

(** The double quote, and [name="value"]. *)
Definition dq : string := String (ascii_of_nat 34) EmptyString.
Definition attr (name value : string) : string :=
  name +:+ "=" +:+ dq +:+ value +:+ dq.

(** A JavaScript string is truthy when it is not empty. *)
Definition truthy (s : string) : bool :=
  match s with EmptyString => false | _ => true end.

End JsString.

Import JsString.

(** ** The world and the monad of asynchronous computations *)

(** Calls that leave the process. *)
Inductive Event : Type :=
| EvHttpGet (url : string)        (* [protocol.get(url, ...)] *)
| EvExec (command : string)       (* [execSync(command)] *)
| EvSharp (svg : string)          (* [sharp(Buffer.from(svg)).png().toFile(..)] *)
| EvBrowser (call : string).      (* a Playwright call *)

Record World : Type := mkWorld {
  files : gmap string (list byte);   (* path -> content *)
  events : list Event                (* most recent call first *)
}.

(** The number of outside calls made so far. *)
Definition now (w : World) : nat := length (events w).

(** How a computation ends.  [OutOfFuel] stands for a computation that
    does not end: it is still running when the fuel given to
    [fetchResponse] is used up, or it waits for a promise that nothing
    settles any more.  No [catch] and no [finally] sees it. *)
Inductive Res (A : Type) : Type :=
| Ok (a : A)
| Err (message : string)
| OutOfFuel.
Arguments Ok {A} a.
Arguments Err {A} message.
Arguments OutOfFuel {A}.

Definition M (A : Type) : Type := World -> Res A * World.

Definition ret {A} (a : A) : M A := fun w => (Ok a, w).

Definition bind {A B} (m : M A) (k : A -> M B) : M B :=
  fun w =>
    match m w with
    | (Ok a, w') => k a w'
    | (Err e, w') => (Err e, w')
    | (OutOfFuel, w') => (OutOfFuel, w')
    end.

(** [x ← m; k] is [const x = await m; k], and [m;; k] is [await m; k]. *)
#[global] Instance M_ret : MRet M := @ret.
#[global] Instance M_bind : MBind M := fun A B k m => bind m k.

(** [throw new Error(message)] / a rejected promise. *)
Definition throw {A} (message : string) : M A := fun w => (Err message, w).

(** A promise that nothing settles: the computation stops here, and
    nothing that waits for it goes on. *)
Definition unsettled {A} : M A := fun w => (OutOfFuel, w).

(** [try { m } catch (e) { handler e }] *)
Definition try_catch {A} (m : M A) (handler : string -> M A) : M A :=
  fun w =>
    match m w with
    | (Err e, w') => handler e w'
    | r => r
    end.

(** [try { m } finally { cleanup }]: [cleanup] runs on both exits, and an
    error it throws replaces the result of [m]. *)
Definition try_finally {A} (m : M A) (cleanup : M unit) : M A :=
  fun w =>
    match m w with
    | (OutOfFuel, w') => (OutOfFuel, w')
    | (r, w') =>
        match cleanup w' with
        | (Ok _, w'') => (r, w'')
        | (Err e, w'') => (Err e, w'')
        | (OutOfFuel, w'') => (OutOfFuel, w'')
        end
    end.

(** [promise.catch(() => dflt)] *)
Definition catch_default {A} (m : M A) (dflt : A) : M A :=
  try_catch m (fun _ => ret dflt).

(** *** [fs.promises] *)

(** [(await fs.promises.stat(path)).size] *)
Definition stat_size (path : string) : M nat :=
  fun w =>
    match files w !! path with
    | Some data => (Ok (length data), w)
    | None => (Err "ENOENT", w)
    end.

(** [fs.promises.readFile(path)]; the [start]/[end] options the source
    passes are not options of [readFile], the whole file is read. *)
Definition readFile (path : string) : M (list byte) :=
  fun w =>
    match files w !! path with
    | Some data => (Ok data, w)
    | None => (Err "ENOENT", w)
    end.

(** [fs.promises.writeFile(path, data)] *)
Definition writeFile (path : string) (data : list byte) : M unit :=
  fun w => (Ok tt, mkWorld (<[path := data]> (files w)) (events w)).

(** [fs.promises.unlink(path)] *)
Definition unlink (path : string) : M unit :=
  fun w =>
    match files w !! path with
    | Some _ => (Ok tt, mkWorld (delete path (files w)) (events w))
    | None => (Err "ENOENT", w)
    end.

(** ** FileTypeValidator *)

(** [buffer[i] === b]; an index past the end reads [undefined]. *)
Definition byteIs (buffer : list byte) (i : nat) (b : byte) : bool :=
  match buffer !! i with
  | Some x => Byte.eqb x b
  | None => false
  end.

(** [buffer.toString('utf-8', 0, n)].  Bytes below 0x80 decode to
    themselves and in place; the strings searched for below are ASCII, so
    the other bytes only matter as separators. *)
Definition bufferToString (buffer : list byte) (n : nat) : string :=
  string_of_list_byte (take n buffer).

Definition validateFileType (filePath expectedType : string) : M bool :=
  try_catch
    (size ← stat_size filePath;
     if (size <? 4)%nat then ret false (* File too small *)
     else
       buffer ← readFile filePath;
       if String.eqb expectedType "video" then
         (* PNG first (89 50 4E 47) *)
         if byteIs buffer 0 x89 && byteIs buffer 1 x50 &&
            byteIs buffer 2 x4e && byteIs buffer 3 x47
         then ret false
         else
           let text :=
             toLowerCase (bufferToString buffer (Nat.min 100 (length buffer))) in
           if includes text "<!doctype" || includes text "<html"
           then ret false
           else if (8 <=? length buffer)%nat && byteIs buffer 4 x66 &&
                   byteIs buffer 5 x74 && byteIs buffer 6 x79 &&
                   byteIs buffer 7 x70
           then ret true
           else ret false
       else if String.eqb expectedType "image" then
         let isPng := byteIs buffer 0 x89 && byteIs buffer 1 x50 &&
                      byteIs buffer 2 x4e && byteIs buffer 3 x47 in
         let isJpeg := byteIs buffer 0 xff && byteIs buffer 1 xd8 &&
                       byteIs buffer 2 xff in
         let isGif := byteIs buffer 0 x47 && byteIs buffer 1 x49 &&
                      byteIs buffer 2 x46 && byteIs buffer 3 x38 in
         if isPng || isJpeg || isGif then ret true else ret false
       else ret true (* Unknown type, assume valid *))
    (fun error => ret false).

(** ** The outside world *)

(** How the body of an HTTP response arrives: in full; cut after
    [received] bytes by the 30 s timer of the request, when the server
    falls silent; or cut after [received] bytes by the server closing the
    socket, in which case neither ['end'] nor the timer comes. *)
Inductive Delivery : Type :=
| Delivered
| Interrupted (received : nat)
| Severed (received : nat).

(** What one [protocol.get(url, options, callback)] leads to. *)
Inductive HttpOutcome : Type :=
| HttpFailure (message : string)
    (* 'error' on the request, or the timeout, before any response *)
| HttpResponse (statusCode : Z) (location contentType : option string)
    (body : list byte) (delivery : Delivery).

(** A Playwright [Download]; [saveAs] writes [saved], or rejects when
    there is nothing to save. *)
Record Download : Type := mkDownload { saved : option (list byte) }.

(** [await page.goto(url, ...)]: it rejects, resolves to [null], or resolves
    to a response with a status and a body ([None] when [response.body()]
    rejects). *)
Inductive GotoOutcome : Type :=
| GotoRejects
| GotoNull
| GotoResponse (status : Z) (body : option (list byte)).

(** [await page.$(selector)] *)
Inductive QueryOutcome : Type :=
| QueryRejects
| QueryNull
| QueryElement.

(** The collaborators.  The first argument of an oracle is the time of
    the call, the number of outside calls made before it. *)
Record Env : Type := mkEnv {
  http_get : nat -> string -> HttpOutcome;
  resolve_url : string -> string -> option string;
    (* [new URL(location, base).href]; [None] when the constructor
       throws *)
  parse_url : string -> option (string * option string);
    (* [new URL(url)]: its [pathname] and [searchParams.get('id')];
       [None] when the constructor throws *)
  new_page : nat -> bool;              (* does [newPage()] resolve? *)
  page_race : nat -> bool;
    (* does [Promise.race([page.goto(..), downloadPromise..])] resolve? *)
  page_wait : nat -> bool;             (* [page.waitForTimeout(ms)] *)
  page_download : nat -> option Download;
    (* [page.waitForEvent('download', ..).catch(() => null)] *)
  page_url : nat -> string;            (* [page.url()] *)
  page_goto : nat -> string -> GotoOutcome;
  page_query : nat -> string -> QueryOutcome;
  element_click : nat -> bool;         (* [button.click()] *)
  page_close : nat -> bool;            (* [page.close()] *)
  exec_mmdc : nat -> string -> option (list byte);
    (* [execSync('mmdc ...')] on a diagram source: the image it writes,
       [None] when the command is missing or fails *)
  sharp_png : nat -> string -> option (list byte);
    (* [sharp(Buffer.from(svg)).png()]: the encoded image, [None] when
       [toFile] rejects *)
  can_write : string -> bool
    (* can a file be created at this path: false when its directory does
       not exist *)
}.

(** ** Direct retrieval *)

Section Retrieval.
Context (env : Env).

(** [protocol.get(url, options, ...)]: the call is logged and answered by
    the environment. *)
Definition httpGet (url : string) : M HttpOutcome :=
  fun w => (Ok (http_get env (now w) url),
            mkWorld (files w) (EvHttpGet url :: events w)).

(** [response.statusCode >= 300 && response.statusCode < 400 &&
     response.headers.location] *)
Definition redirectTarget (statusCode : Z) (location : option string)
  : option string :=
  if (300 <=? statusCode)%Z && (statusCode <? 400)%Z then
    match location with
    | Some l => if truthy l then Some l else None
    | None => None
    end
  else None.

(** [location.startsWith('http') ? location : new URL(location, url).href];
    [None] when the constructor throws. *)
Definition redirectUrlOf (location url : string) : option string :=
  if startsWith location "http" then Some location
  else resolve_url env location url.

(** [downloadFileDirect(url, outputPath, followRedirects, maxRedirects)];
    the promise it returns is the computation, a rejection is [Err].
    [maxRedirects] counts down from 5 by one, so it is a [nat].

    Two ways lead to a promise that is never settled.  [new URL] is called
    inside the response callback: when it throws, the exception leaves the
    callback uncaught and neither [resolve] nor [reject] is called.  And
    nothing listens for the end of a response that the server cuts short:
    the write stream is never finished, so ['finish'] never comes, and the
    timer of the request does not fire on a closed socket. *)
Fixpoint downloadFileDirect (url outputPath : string) (followRedirects : bool)
    (maxRedirects : nat) : M string :=
  match maxRedirects with
  | 0 => throw "Too many redirects"
  | S remaining =>
      response ← httpGet url;
      match response with
      | HttpFailure message => throw message
      | HttpResponse statusCode location _ body delivery =>
          match (if followRedirects then redirectTarget statusCode location
                 else None) with
          | Some l =>
              match redirectUrlOf l url with
              | Some redirectUrl =>
                  (* Recursively follow redirect *)
                  downloadFileDirect redirectUrl outputPath true remaining
              | None => unsettled
              end
          | None =>
              if negb (statusCode =? 200)%Z then throw ("HTTP " +:+ pretty statusCode)
              else
                (* [response.pipe(fs.createWriteStream(outputPath))] *)
                match delivery with
                | Delivered => writeFile outputPath body;; ret outputPath
                | Interrupted received =>
                    writeFile outputPath (take received body);;
                    throw "Request timeout"
                | Severed received =>
                    writeFile outputPath (take received body);;
                    unsettled
                end
          end
      end
  end.

(** [downloadFileDirect(url, outputPath, true)]: [maxRedirects = 5]. *)
Definition defaultMaxRedirects : nat := 5.

(** What [fetchResponse] resolves to. *)
Record Fetched : Type := mkFetched {
  fetchedStatus : Z;
  fetchedContentType : option string;
  fetchedBody : list byte
}.

(** Stops with no result; see [OutOfFuel]. *)
Definition outOfFuel {A} : M A := fun w => (OutOfFuel, w).

(** [fetchResponse(url)].  The source puts no bound on the redirects it
    follows; [fuel] bounds the number of requests of the model.  The
    promise is resolved on ['end'] only, so a response that the server cuts
    short leaves it unsettled, and so does a [new URL] that throws. *)
Fixpoint fetchResponse (fuel : nat) (url : string) : M Fetched :=
  match fuel with
  | 0 => outOfFuel
  | S fuel' =>
      response ← httpGet url;
      match response with
      | HttpFailure message => throw message
      | HttpResponse statusCode location contentType body delivery =>
          match redirectTarget statusCode location with
          | Some l =>
              match redirectUrlOf l url with
              | Some redirectUrl => fetchResponse fuel' redirectUrl
              | None => unsettled
              end
          | None =>
              if negb (statusCode =? 200)%Z then throw ("HTTP " +:+ pretty statusCode)
              else
                match delivery with
                | Delivered => ret (mkFetched statusCode contentType body)
                | Interrupted _ => throw "Request timeout"
                | Severed _ => unsettled
                end
          end
      end
  end.

End Retrieval.

(** ** RemoteAssetFetcher *)

(** The class [[a-zA-Z0-9_-]]. *)
Definition isIdChar (c : ascii) : bool :=
  let n := nat_of_ascii c in
  ((97 <=? n)%nat && (n <=? 122)%nat) || ((65 <=? n)%nat && (n <=? 90)%nat) ||
  ((48 <=? n)%nat && (n <=? 57)%nat) || (n =? 95)%nat || (n =? 45)%nat.

Fixpoint takeIdChars (s : string) : string :=
  match s with
  | String c s' => if isIdChar c then String c (takeIdChars s') else EmptyString
  | EmptyString => EmptyString
  end.

(** [s.match(/<prefix>([a-zA-Z0-9_-]+)/)]: the group of the leftmost
    match, for a literal [prefix]. *)
Fixpoint matchToken (prefix s : string) : option string :=
  let here := takeIdChars (dropChars (String.length prefix) s) in
  if startsWith s prefix && truthy here then Some here
  else match s with
       | String _ s' => matchToken prefix s'
       | EmptyString => None
       end.

(** A function body is a sequence of blocks.  A block ends with [Some p]
    when it executed [return p], and with [None] when control reaches its
    end; [block >>> rest] runs [rest] in the second case only. *)
Definition andThen (block rest : M (option string)) : M (option string) :=
  r ← block;
  match r with
  | Some p => ret (Some p)
  | None => rest
  end.
Infix ">>>" := andThen (at level 90, right associativity).

(** The state of a block that may also assign the variable [download]. *)
Inductive Flow : Type :=
| Return (path : string)
| Next (download : option Download).

Section Fetcher.
Context (env : Env).

Definition extractGoogleDriveId (url : string) : option string :=
  if negb (truthy url) then None
  else
    (* Pattern 1: https://drive.google.com/file/d/ID/view *)
    match matchToken "/file/d/" url with
    | Some id => Some id
    | None =>
        (* Pattern 2: https://drive.google.com/open?id=ID *)
        match parse_url env url with
        | Some (pathname, Some id) =>
            if includes pathname "open" && truthy id then Some id else None
        | _ => None
        end
    end.

Definition getGoogleDriveDownloadUrl (fileId : string) : string :=
  "https://drive.google.com/uc?export=download&id=" +:+ fileId.

Definition kindOf (isVideo : bool) : string :=
  if isVideo then "video" else "image".

(** The check that follows a retrieval:
    [const isValid = await validateFileType(outputPath, ...);
     if (isValid) { return outputPath; }
     else { console.warn(...); await fs.promises.unlink(outputPath).catch(() => {}); }] *)
Definition acceptOrDelete (outputPath : string) (isVideo : bool)
  : M (option string) :=
  isValid ← validateFileType outputPath (kindOf isVideo);
  if isValid : bool then ret (Some outputPath)
  else catch_default (unlink outputPath) tt;; ret None.

(** [try { await downloadFileDirect(url, outputPath, true);
           const stats = await fs.promises.stat(outputPath);
           if (stats.size > 1000) { <check> } } catch (e) { }] *)
Definition tryDirect (url outputPath : string) (isVideo : bool)
  : M (option string) :=
  try_catch
    (downloadFileDirect env url outputPath true defaultMaxRedirects;;
     size ← stat_size outputPath;
     if (1000 <? size)%nat then acceptOrDelete outputPath isVideo
     else ret None)
    (fun e => ret None).

Definition downloadGoogleDriveFile (fuel : nat)
    (fileId outputPath : string) (isVideo : bool) : M (option string) :=
  let downloadUrl := "https://drive.google.com/uc?export=download&id=" +:+ fileId in
  try_catch
    ((* Step 1: direct download with redirects *)
     tryDirect downloadUrl outputPath isVideo
     >>>
     (* Step 2: fetch the response to check if it is HTML *)
     try_catch
       (response ← fetchResponse env fuel downloadUrl;
        let contentType := toLowerCase (default "" (fetchedContentType response)) in
        if includes contentType "text/html" ||
           includes (toLowerCase (bufferToString (fetchedBody response) 100))
                    "<!doctype"
        then
          let htmlContent := string_of_list_byte (fetchedBody response) in
          match matchToken "confirm=" htmlContent with
          | Some confirmToken =>
              tryDirect (downloadUrl +:+ "&confirm=" +:+ confirmToken)
                        outputPath isVideo
          | None => ret None
          end
          >>>
          (* Step 3: confirm=t as fallback *)
          tryDirect (downloadUrl +:+ "&confirm=t") outputPath isVideo
        else
          (* Not HTML, might be a direct file *)
          if (1000 <? length (fetchedBody response))%nat then
            writeFile outputPath (fetchedBody response);;
            acceptOrDelete outputPath isVideo
          else ret None)
       (fun e => ret None))
    (fun error => ret None).

(** A Playwright call: it is logged, and the time at which it was made
    selects the answer of the environment. *)
Definition browserCall (name : string) : M nat :=
  fun w => (Ok (now w), mkWorld (files w) (EvBrowser name :: events w)).

Definition newPage : M unit :=
  t ← browserCall "newPage";
  if new_page env t then ret tt else throw "newPage".

Definition closePage : M unit :=
  t ← browserCall "close";
  if page_close env t then ret tt else throw "close".

Definition waitForTimeout : M unit :=
  t ← browserCall "waitForTimeout";
  if page_wait env t then ret tt else throw "waitForTimeout".

(** [await page.waitForEvent('download', ...).catch(() => null)] *)
Definition awaitDownload : M (option Download) :=
  t ← browserCall "waitForEvent";
  ret (page_download env t).

(** [await Promise.race([page.goto(url, ...), downloadPromise.then(() => null)])] *)
Definition navigate (url : string) : M unit :=
  t ← browserCall "goto";
  if page_race env t then ret tt else throw "goto".

(** [await page.goto(url, { waitUntil: 'networkidle', ... })] *)
Definition goto (url : string) : M GotoOutcome :=
  t ← browserCall "goto";
  match page_goto env t url with
  | GotoRejects => throw "goto"
  | response => ret response
  end.

(** [await page.$(selector)], as "was an element found?" *)
Definition query (selector : string) : M bool :=
  t ← browserCall "$";
  match page_query env t selector with
  | QueryRejects => throw "$"
  | QueryNull => ret false
  | QueryElement => ret true
  end.

Definition click : M unit :=
  t ← browserCall "click";
  if element_click env t then ret tt else throw "click".

(** [await download.saveAs(outputPath)] *)
Definition saveAs (download : Download) (outputPath : string) : M unit :=
  match saved download with
  | Some data => writeFile outputPath data
  | None => throw "saveAs"
  end.

(** [page.url()] *)
Definition pageUrl : M string := fun w => (Ok (page_url env (now w)), w).

(** [[name*="value"]] *)
Definition has (name value : string) : string :=
  "[" +:+ name +:+ "*=" +:+ dq +:+ value +:+ dq +:+ "]".

(** [input[type="submit"]] *)
Definition submitInput : string := "input[" +:+ attr "type" "submit" +:+ "]".

Definition selectors : list string :=
  [ "button#uc-download-link";
    "a#uc-download-link";
    "button" +:+ has "aria-label" "Download";
    "a" +:+ has "aria-label" "Download";
    "form" +:+ has "action" "download" +:+ " button";
    "form" +:+ has "action" "download" +:+ " " +:+ submitInput;
    submitInput +:+ has "value" "Download" ].

(** [newDownloadPromise = ...; await element.click();
     await page.waitForTimeout(2000); download = await newDownloadPromise] *)
Definition clickAndWait : M (option Download) :=
  click;; waitForTimeout;; awaitDownload.

(** The [for (const selector of selectors)] loop.  It starts with
    [download] null and ends with the value of [download]; [clicked] is
    true exactly when that value is a download. *)
Fixpoint trySelectors (candidates : list string) : M (option Download) :=
  match candidates with
  | [] => ret None
  | selector :: later =>
      download ←
        try_catch
          (button ← query selector;
           if button : bool then clickAndWait else ret None)
          (fun e => ret None (* Try next selector *));
      match download with
      | Some d => ret (Some d) (* clicked = true; break *)
      | None => trySelectors later
      end
  end.

(** The body of [if (!download && (page.url().includes('confirm=') || ...))].
    [download] is null on entry, and is still null whenever the body
    throws. *)
Definition confirmationPage (url outputPath : string) (isVideo : bool)
  : M Flow :=
  try_catch
    (direct ←
       (if isVideo && includes url "googleusercontent" then
          try_catch
            (response ← goto url;
             match response with
             | GotoResponse 200 (Some buffer) =>
                 if (1000 <? length buffer)%nat then
                   writeFile outputPath buffer;;
                   size ← stat_size outputPath;
                   if (1000 <? size)%nat then acceptOrDelete outputPath isVideo
                   else ret None
                 else ret None
             | GotoResponse 200 None => throw "body"
             | _ => ret None
             end)
            (fun e => ret None (* Continue to button clicking method *))
        else ret None);
     match direct with
     | Some p => ret (Return p)
     | None =>
         download ← trySelectors selectors;
         match download with
         | Some d => ret (Next (Some d))
         | None =>
             (* Try clicking any button in the form *)
             form ← query "form";
             if form : bool then
               submitButton ← query ("button, " +:+ submitInput);
               if submitButton : bool then
                 download ← clickAndWait; ret (Next download)
               else ret (Next None)
             else ret (Next None)
         end
     end)
    (fun e => ret (Next None) (* Could not find download button *)).

(** The Playwright fallback for a Google Drive file, from
    [const page = await context.newPage()] to the end of its [finally]. *)
Definition driveInBrowser (fileId outputPath : string) (isVideo : bool)
  : M (option string) :=
  newPage;;
  try_finally
    (let downloadUrl := getGoogleDriveDownloadUrl fileId in
     navigate downloadUrl;;
     waitForTimeout;;
     download ← awaitDownload;
     download ←
       (match download with
        | None => if isVideo then waitForTimeout;; awaitDownload else ret None
        | Some d => ret (Some d)
        end);
     url ← pageUrl;
     flow ←
       (match download with
        | None =>
            if includes url "confirm=" || includes url "virusScanWarning" ||
               includes url "googleusercontent"
            then confirmationPage url outputPath isVideo
            else ret (Next None)
        | Some d => ret (Next (Some d))
        end);
     match flow with
     | Return p => ret (Some p)
     | Next (Some download) =>
         (* If we got a download, save it *)
         saveAs download outputPath;;
         stats ← try_catch (size ← stat_size outputPath; ret (Some size))
                           (fun _ => ret None);
         match stats with
         | Some size =>
             if (0 <? size)%nat then acceptOrDelete outputPath isVideo
             else ret None
         | None => ret None
         end
     | Next None => ret None
     end)
    closePage.

(** The [else] branch of [downloadFile]: a regular URL. *)
Definition regularUrl (url outputPath : string) (isVideo : bool)
  : M (option string) :=
  try_catch
    (downloadFileDirect env url outputPath true defaultMaxRedirects;;
     size ← stat_size outputPath;
     if (0 <? size)%nat then
       isValid ← validateFileType outputPath (kindOf isVideo);
       if isValid : bool then ret (Some outputPath) else ret None
     else ret None)
    (fun e =>
       (* Fallback to Playwright *)
       newPage;;
       try_finally
         (response ← goto url;
          match response with
          | GotoResponse _ (Some buffer) =>
              if (0 <? length buffer)%nat then
                writeFile outputPath buffer;;
                isValid ← validateFileType outputPath (kindOf isVideo);
                if isValid : bool then ret (Some outputPath) else ret None
              else ret None
          | GotoResponse _ None => throw "body"
          | _ => ret None
          end)
         closePage).

(** [downloadFile(url, outputPath, browser, context, isVideo)]; [null] is
    [None]. *)
Definition downloadFile (fuel : nat) (url outputPath : string)
    (isVideo : bool) : M (option string) :=
  if negb (truthy url) || String.eqb (trim url) "" then ret None
  else
    try_catch
      (match extractGoogleDriveId url with
       | Some fileId =>
           (* Step 1: Google Drive download with token parsing *)
           downloadGoogleDriveFile fuel fileId outputPath isVideo
           >>>
           (* Step 2: for images, try the view URL *)
           (if negb isVideo then
              try_catch
                (let viewUrl :=
                   "https://drive.google.com/uc?export=view&id=" +:+ fileId in
                 downloadFileDirect env viewUrl outputPath true
                   defaultMaxRedirects;;
                 size ← stat_size outputPath;
                 if (1000 <? size)%nat then ret (Some outputPath)
                 else catch_default (unlink outputPath) tt;; ret None)
                (fun e => ret None)
            else ret None)
           >>>
           (* Fallback to Playwright *)
           driveInBrowser fileId outputPath isVideo
       | None => regularUrl url outputPath isVideo
       end)
      (fun error => ret None).

(** [downloadVideo(url, outputPath, browser, context)] *)
Definition downloadVideo (fuel : nat) (url outputPath : string)
  : M (option string) :=
  downloadFile fuel url outputPath true.

End Fetcher.

(** ** Download tasks of the orchestrator *)

Record DownloadTask : Type := mkTask {
  taskIndex : nat;
  taskType : string;     (* 'video' or 'image' *)
  taskUrl : string;
  taskPath : string
}.

(** [{ index, type, path, video_url }] *)
Record AssetResult : Type := mkAsset {
  assetIndex : nat;
  assetType : string;
  assetPath : option string;
  assetVideoUrl : option string
}.

Section Orchestrator.
Context (env : Env).
(** The task is stated for any [downloadImage]; the one of the source is
    embedded further down. *)
Context (downloadImage : string -> string -> M (option string)).

Definition failedResult (task : DownloadTask) : AssetResult :=
  if String.eqb (taskType task) "video"
  then mkAsset (taskIndex task) "video_failed" None (Some (taskUrl task))
  else mkAsset (taskIndex task) "image_failed" None None.

(** The callback of [downloadTasks.map(async (task) => { ... })]. *)
Definition runDownloadTask (fuel : nat) (task : DownloadTask) : M AssetResult :=
  try_catch
    (if String.eqb (taskType task) "video" then
       downloadedPath ← downloadVideo env fuel (taskUrl task) (taskPath task);
       match downloadedPath with
       | Some p =>
           if truthy p then
             isValid ← validateFileType p "video";
             if isValid : bool then
               stat_size p;;
               ret (mkAsset (taskIndex task) "video" (Some p)
                            (Some (taskUrl task)))
             else
               catch_default (unlink p) tt;;
               ret (mkAsset (taskIndex task) "video_failed" None
                            (Some (taskUrl task)))
           else ret (mkAsset (taskIndex task) "video_failed" None
                             (Some (taskUrl task)))
       | None => ret (mkAsset (taskIndex task) "video_failed" None
                              (Some (taskUrl task)))
       end
     else
       downloadedPath ← downloadImage (taskUrl task) (taskPath task);
       match downloadedPath with
       | Some p =>
           if truthy p then ret (mkAsset (taskIndex task) "image" (Some p) None)
           else ret (mkAsset (taskIndex task) "image_failed" None None)
       | None => ret (mkAsset (taskIndex task) "image_failed" None None)
       end)
    (fun error => ret (failedResult task)).

End Orchestrator.

(** ** ContentAggregator *)

(** An item of a slide's bulleted content.  [text] may be absent: the
    source reads it as [item.text || '']. *)
Record ContentBlock : Type := mkBlock {
  level : Z;
  text : option string
}.

(** [slide.diagram]: [{ type, code }] *)
Record Diagram : Type := mkDiagram {
  diagramType : string;
  code : option string
}.

(** A slide descriptor, with the properties [aggregateSlides] and the
    diagram loop read or write; [others] holds the remaining properties,
    which the spread [...s] copies. *)
Record Slide : Type := mkSlide {
  type : string;
  title : option string;
  content : option (list ContentBlock);
  diagram : option Diagram;
  _group : option string;
  others : list (string * string)
}.

#[global] Instance ContentBlock_eq_dec : EqDecision ContentBlock.
Proof. solve_decision. Defined.
#[global] Instance Diagram_eq_dec : EqDecision Diagram.
Proof. solve_decision. Defined.
#[global] Instance Slide_eq_dec : EqDecision Slide.
Proof. solve_decision. Defined.

Definition MAX_ITEMS_PER_SLIDE : nat := 10.
Definition baseTitle : string := "System Requirements".

(** [s.content || []] *)
Definition contentOf (s : Slide) : list ContentBlock := default [] (content s).

(** [c.text || ''] *)
Definition textOf (c : ContentBlock) : string := default "" (text c).

(** [slide.type === 'content_bullets' && slide.title &&
     (slide.title.startsWith('System Requirements:') ||
      slide.title === 'System Requirements')] *)
Definition isSystemRequirements (slide : Slide) : bool :=
  String.eqb (type slide) "content_bullets" &&
  match title slide with
  | Some t =>
      truthy t &&
      (startsWith t "System Requirements:" || String.eqb t "System Requirements")
  | None => false
  end.

(** [text.match(/^power\s*:\s*standard/i)] *)
Definition matchesPowerStandard (text : string) : bool :=
  let t := toLowerCase text in
  startsWith t "power" &&
  match trimStart (dropChars 5 t) with
  | String ":" t' => startsWith (trimStart t') "standard"
  | _ => false
  end.

(** The three phrases the filter looks for in the joined, lower-cased
    text of a slide. *)
Definition hasTrivialPhrase (s : Slide) : bool :=
  let text := toLowerCase (join " " (map textOf (contentOf s))) in
  includes text "none required" ||
  includes text "standard source" ||
  matchesPowerStandard text.

(** The callback of [systemReqSlides.filter]. *)
Definition isNonTrivial (s : Slide) : bool :=
  let content := contentOf s in
  let text := toLowerCase (join " " (map textOf content)) in
  negb (includes text "none required") &&
  negb (includes text "standard source") &&
  negb (matchesPowerStandard text) &&
  (2 <? length content)%nat.

Definition sectionNames : list string :=
  ["Network"; "Camera"; "AI Training"; "AI Inference"; "Dashboard"].

(** The test inside [content.forEach]: a level-0 item without a colon
    whose trimmed text is a known section name. *)
Definition isSectionHeader (item : ContentBlock) : bool :=
  let text := trim (textOf item) in
  (level item =? 0)%Z && negb (includes text ":") &&
  existsb (String.eqb text) sectionNames.

(** The [content.forEach] that fills [sectionBoundaries]; [idx] is the
    index of the head of [content]. *)
Fixpoint findSectionBoundaries (idx : nat) (content : list ContentBlock)
  : list (nat * string) :=
  match content with
  | [] => []
  | item :: rest =>
      if isSectionHeader item
      then (idx, trim (textOf item)) :: findSectionBoundaries (S idx) rest
      else findSectionBoundaries (S idx) rest
  end.

(** [content.slice(startIdx, endIdx)] and [content.slice(startIdx)] *)
Definition slice {A} (startIdx endIdx : nat) (l : list A) : list A :=
  take (endIdx - startIdx) (drop startIdx l).

(** [sectionName.toLowerCase().replace(/\s+/g, '_')] *)
Definition groupOf (sectionName : string) : string :=
  replaceSpaces "_" (toLowerCase sectionName).

(** [{ ...s, title, content, _group }] *)
Definition derive (s : Slide) (title_ : string) (content_ : list ContentBlock)
    (group_ : string) : Slide :=
  mkSlide (type s) (Some title_) (Some content_) (diagram s) (Some group_)
          (others s).

(** [{ ...s, title, _group }] *)
Definition retitle (s : Slide) (title_ group_ : string) : Slide :=
  mkSlide (type s) (Some title_) (content s) (diagram s) (Some group_)
          (others s).

(** The [for (secIdx ...)] loop: one slide per section boundary, from that
    boundary to the next one, or to the end of [content] for the last. *)
Fixpoint splitBySections (s : Slide) (content : list ContentBlock)
    (sectionBoundaries : list (nat * string)) : list Slide :=
  match sectionBoundaries with
  | [] => []
  | (startIdx, sectionName) :: later =>
      let endIdx :=
        match later with
        | (nextIdx, _) :: _ => nextIdx
        | [] => length content
        end in
      derive s (baseTitle +:+ ": " +:+ sectionName)
               (slice startIdx endIdx content)
               (groupOf sectionName)
      :: splitBySections s content later
  end.

(** The callback of [nonTrivialSlides.forEach]: the slides pushed for [s]. *)
Definition splitSlide (s : Slide) : list Slide :=
  let content := contentOf s in
  let sectionBoundaries := findSectionBoundaries 0 content in
  if (1 <? length sectionBoundaries)%nat &&
     (MAX_ITEMS_PER_SLIDE <? length content)%nat
  then splitBySections s content sectionBoundaries
  else if (MAX_ITEMS_PER_SLIDE <? length content)%nat &&
          (length sectionBoundaries =? 1)%nat
  then
    let sectionName :=
      match sectionBoundaries with (_, name) :: _ => name | [] => "" end in
    let midPoint := (length content + 1) / 2 in
    [ derive s (if truthy sectionName
                then baseTitle +:+ ": " +:+ sectionName +:+ " (1/2)"
                else baseTitle +:+ " (1/2)")
               (slice 0 midPoint content)
               "split_1";
      derive s (if truthy sectionName
                then baseTitle +:+ ": " +:+ sectionName +:+ " (2/2)"
                else baseTitle +:+ " (2/2)")
               (drop midPoint content)
               "split_2" ]
  else
    let sectionName :=
      match sectionBoundaries with
      | [(_, name)] => name
      | _ => ""
      end in
    [ retitle s (if truthy sectionName
                 then baseTitle +:+ ": " +:+ sectionName
                 else baseTitle)
                (if truthy sectionName then groupOf sectionName
                 else "general") ].

(** The inner [while]: the System Requirements slides that directly follow,
    and what comes after them. *)
Fixpoint collectRun (slides : list Slide) : list Slide * list Slide :=
  match slides with
  | nextSlide :: rest =>
      if isSystemRequirements nextSlide
      then let (run, after) := collectRun rest in (nextSlide :: run, after)
      else ([], slides)
  | [] => ([], [])
  end.

(** What the body of the outer loop pushes for one run. *)
Definition aggregateRun (systemReqSlides : list Slide) : list Slide :=
  let nonTrivialSlides := filter (fun s => isNonTrivial s = true) systemReqSlides in
  if (length nonTrivialSlides =? 0)%nat
  then [] (* All were trivial, skip them *)
  else flat_map splitSlide nonTrivialSlides.

Equations aggregateSlides (slides : list Slide) : list Slide
  by wf (length slides) lt :=
aggregateSlides [] := [];
aggregateSlides (slide :: rest) :=
  if isSystemRequirements slide
  then aggregateRun (slide :: (collectRun rest).1)
       ++ aggregateSlides (collectRun rest).2
  else slide :: aggregateSlides rest.
Next Obligation.
  clear aggregateSlides. simpl. apply Nat.lt_succ_r.
  induction rest as [|s rest IH]; simpl; [lia|].
  destruct (isSystemRequirements s); simpl; [|lia].
  destruct (collectRun rest); simpl in *; lia.
Qed.

(** ** DiagramRenderer *)

(** The template literal [svg] of [renderMermaidDiagram]. *)
Definition placeholderSvg : string :=
  "
        <svg " +:+ attr "width" "800" +:+ " " +:+ attr "height" "600" +:+ " "
    +:+ attr "xmlns" "http://www.w3.org/2000/svg" +:+ ">
          <rect " +:+ attr "width" "800" +:+ " " +:+ attr "height" "600" +:+ " "
    +:+ attr "fill" "#1a1a1a" +:+ "/>
          <text " +:+ attr "x" "400" +:+ " " +:+ attr "y" "300" +:+ " "
    +:+ attr "font-family" "Arial" +:+ " " +:+ attr "font-size" "24" +:+ " "
    +:+ attr "fill" "#00AEEF" +:+ " " +:+ attr "text-anchor" "middle" +:+ ">
            Mermaid Diagram
          </text>
          <text " +:+ attr "x" "400" +:+ " " +:+ attr "y" "330" +:+ " "
    +:+ attr "font-family" "Arial" +:+ " " +:+ attr "font-size" "14" +:+ " "
    +:+ attr "fill" "#FFFFFF" +:+ " " +:+ attr "text-anchor" "middle" +:+ ">
            (Install mermaid-cli: npm install -g @mermaid-js/mermaid-cli)
          </text>
        </svg>
      ".

Section Renderer.
Context (env : Env).

(** [execSync(`mmdc -i "${tempMmdFile}" -o "${outputPath}" -b transparent -t dark`)]:
    the engine reads [source] from [tempMmdFile] and writes the image to
    [outputPath], or the call throws. *)
Definition execMmdc (tempMmdFile outputPath : string) : M unit :=
  fun w =>
    let command :=
      "mmdc -i " +:+ dq +:+ tempMmdFile +:+ dq +:+ " -o " +:+ dq +:+ outputPath
      +:+ dq +:+ " -b transparent -t dark" in
    let w' := mkWorld (files w) (EvExec command :: events w) in
    match files w !! tempMmdFile with
    | Some source =>
        match exec_mmdc env (now w) (string_of_list_byte source) with
        | Some image => writeFile outputPath image w'
        | None => (Err "mmdc", w')
        end
    | None => (Err "mmdc", w')
    end.

(** [await sharp(Buffer.from(svg)).png().toFile(outputPath)] *)
Definition sharpToFile (svg outputPath : string) : M unit :=
  fun w =>
    let w' := mkWorld (files w) (EvSharp svg :: events w) in
    match sharp_png env (now w) svg with
    | Some image => writeFile outputPath image w'
    | None => (Err "sharp", w')
    end.

(** [fs.promises.writeFile(path, data)] for a path the program computes
    itself: it rejects when the directory of [path] does not exist. *)
Definition createFile (path : string) (data : list byte) : M unit :=
  if can_write env path then writeFile path data else throw "ENOENT".

(** [outputPath.replace('.png', '.mmd')] replaces the first [.png] of the
    path, which is the extension of the file only when no directory of the
    path has [.png] in its name. *)
Definition renderMermaidDiagram (mermaidCode outputPath : string)
  : M (option string) :=
  try_catch
    ((* Try to use mmdc (mermaid-cli) *)
     try_catch
       (let tempMmdFile := replaceFirst ".png" ".mmd" outputPath in
        createFile tempMmdFile (list_byte_of_string mermaidCode);;
        execMmdc tempMmdFile outputPath;;
        unlink tempMmdFile;;
        ret (Some outputPath))
       (fun error =>
          (* Create a placeholder image *)
          sharpToFile placeholderSvg outputPath;;
          ret (Some outputPath)))
    (fun error => ret None).

(** [slide.type === 'diagram' && slide.diagram?.type === 'mermaid'] *)
Definition isMermaidSlide (slide : Slide) : bool :=
  String.eqb (type slide) "diagram" &&
  match diagram slide with
  | Some d => String.eqb (diagramType d) "mermaid"
  | None => false
  end.

(** [slide.diagram.code || ''] *)
Definition diagramCodeOf (slide : Slide) : string :=
  match diagram slide with
  | Some d => default "" (code d)
  | None => ""
  end.

(** [path.join(assetsDir, `diagram_${i}.png`)] *)
Definition diagramPathOf (assetsDir : string) (i : nat) : string :=
  assetsDir +:+ "/diagram_" +:+ pretty i +:+ ".png".

(** The loop of [generatePresentation] over the diagrams, from index [i]
    on; [assetMap] holds the entries [{ type, path }] by slide index. *)
Fixpoint renderDiagrams (assetsDir : string) (i : nat) (slides : list Slide)
    (assetMap : gmap nat (string * string)) : M (gmap nat (string * string)) :=
  match slides with
  | [] => ret assetMap
  | slide :: later =>
      if isMermaidSlide slide then
        let diagramCode := diagramCodeOf slide in
        if truthy (trim diagramCode) then
          let diagramPath := diagramPathOf assetsDir i in
          renderMermaidDiagram diagramCode diagramPath;;
          renderDiagrams assetsDir (S i) later
            (<[i := ("diagram", diagramPath)]> assetMap)
        else
          (* Warning: Empty Mermaid diagram code *)
          renderDiagrams assetsDir (S i) later assetMap
      else renderDiagrams assetsDir (S i) later assetMap
  end.

End Renderer.

(** ** RemoteAssetFetcher: images *)

(** The time of the next outside call. *)
Definition clock : M nat := fun w => (Ok (now w), w).

(** [contentType.startsWith('image/') ||
     contentType === 'application/octet-stream' || !contentType] *)
Definition acceptableImageType (contentType : string) : bool :=
  startsWith contentType "image/" ||
  String.eqb contentType "application/octet-stream" ||
  negb (truthy contentType).

Section ImageFetcher.
Context (env : Env).
(** [response.headers()['content-type'] || ''], for the response that the
    [page.goto] call made at the given time resolves to. *)
Context (content_type : nat -> string).

(** [try { await downloadFileDirect(url, outputPath, followRedirects);
           const stats = await fs.promises.stat(outputPath);
           if (stats.size > 1000) { return outputPath; } } catch (e) { }] *)
Definition tryImageDirect (url outputPath : string) (followRedirects : bool)
  : M (option string) :=
  try_catch
    (downloadFileDirect env url outputPath followRedirects defaultMaxRedirects;;
     size ← stat_size outputPath;
     if (1000 <? size)%nat then ret (Some outputPath) else ret None)
    (fun e => ret None).

(** The body of [if (!download && (page.url().includes('confirm=') || ...))]
    of [downloadImage]; its value is the value of [download] after it. *)
Definition imageConfirmationPage : M (option Download) :=
  try_catch
    (download ← trySelectors env selectors;
     match download with
     | Some d => ret (Some d)
     | None =>
         (* Try clicking any button in the form *)
         form ← query env "form";
         if form : bool then
           submitButton ← query env ("button, " +:+ submitInput);
           if submitButton : bool then clickAndWait env else ret None
         else ret None
     end)
    (fun e => ret None (* Could not find download button *)).

(** The Playwright fallback of [downloadImage] for a Google Drive file, from
    [const page = await context.newPage()] to the end of its [finally]. *)
Definition imageInBrowser (fileId outputPath : string) : M (option string) :=
  newPage env;;
  try_finally
    (let downloadUrl := getGoogleDriveDownloadUrl fileId in
     navigate env downloadUrl;;
     waitForTimeout env;;
     download ← awaitDownload env;
     download ←
       (match download with
        | None =>
            url ← pageUrl env;
            if includes url "confirm=" || includes url "virusScanWarning"
            then imageConfirmationPage
            else ret None
        | Some d => ret (Some d)
        end);
     (* If we got a download, save it *)
     (match download with
      | Some d =>
          saveAs d outputPath;;
          stats ← try_catch (size ← stat_size outputPath; ret (Some size))
                            (fun _ => ret None);
          match stats with
          | Some size =>
              if (0 <? size)%nat then ret (Some outputPath) else ret None
          | None => ret None
          end
      | None => ret None
      end)
     >>>
     (* Fallback: try direct download with response *)
     try_catch
       (time ← clock;
        response ← goto env downloadUrl;
        match response with
        | GotoResponse status body =>
            if (status =? 200)%Z && acceptableImageType (content_type time)
            then
              match body with
              | Some buffer =>
                  if (0 <? length buffer)%nat then
                    writeFile outputPath buffer;;
                    size ← stat_size outputPath;
                    if (0 <? size)%nat then ret (Some outputPath)
                    else ret None
                  else ret None
              | None => throw "body"
              end
            else ret None
        | _ => ret None
        end)
       (fun e => ret None (* Fallback failed, continue *)))
    (closePage env).

(** The [else] branch of [downloadImage]: a regular URL. *)
Definition imageRegularUrl (url outputPath : string) : M (option string) :=
  try_catch
    (downloadFileDirect env url outputPath true defaultMaxRedirects;;
     size ← stat_size outputPath;
     if (0 <? size)%nat then ret (Some outputPath) else ret None)
    (fun e =>
       (* Fallback to Playwright *)
       newPage env;;
       try_finally
         (response ← goto env url;
          match response with
          | GotoResponse _ (Some buffer) =>
              if (0 <? length buffer)%nat then
                writeFile outputPath buffer;; ret (Some outputPath)
              else ret None
          | GotoResponse _ None => throw "body"
          | _ => ret None
          end)
         (closePage env)).

(** [downloadImage(url, outputPath, browser, context)]; [null] is [None]. *)
Definition downloadImage (url outputPath : string) : M (option string) :=
  if negb (truthy url) || String.eqb (trim url) "" then ret None
  else
    try_catch
      (match extractGoogleDriveId env url with
       | Some fileId =>
           try_catch
             (let downloadUrl :=
                "https://drive.google.com/uc?export=download&id=" +:+ fileId in
              (* Step 1: the download URL, redirects not followed *)
              tryImageDirect downloadUrl outputPath false
              >>>
              (* Step 2: the view URL *)
              (let viewUrl :=
                 "https://drive.google.com/uc?export=view&id=" +:+ fileId in
               tryImageDirect viewUrl outputPath true)
              >>>
              (* Step 3: the download URL with redirects enabled *)
              tryImageDirect downloadUrl outputPath true)
             (fun e => ret None)
           >>>
           (* Fallback to Playwright if direct download fails *)
           imageInBrowser fileId outputPath
       | None => imageRegularUrl url outputPath
       end)
      (fun error => ret None).

End ImageFetcher.

(** ** Renderers: shared utilities *)

(** [s.replace(/c/g, by)] for a pattern [c] of one character. *)
Fixpoint replaceAll (c : ascii) (by_ s : string) : string :=
  match s with
  | EmptyString => EmptyString
  | String x s' =>
      if Ascii.eqb x c then by_ +:+ replaceAll c by_ s'
      else String x (replaceAll c by_ s')
  end.

(** [escapeHtml(text)] of [renderers/shared.js], for a string. *)
Definition escapeHtml (text : string) : string :=
  if negb (truthy text) then ""
  else
    replaceAll "'" "&#039;"
      (replaceAll "034" "&quot;"
         (replaceAll ">" "&gt;"
            (replaceAll "<" "&lt;"
               (replaceAll "&" "&amp;" text)))).

(** ** Vocabulary of the properties *)

(** The signatures the validator looks for. *)
Definition pngSignature : list byte := [x89; x50; x4e; x47].
Definition ftypMarker : list byte := [x66; x74; x79; x70].

(** The first hundred bytes, read as text, hold an HTML opening. *)
Definition htmlPrefix (buffer : list byte) : bool :=
  let text := toLowerCase (string_of_list_byte (take 100 buffer)) in
  includes text "<!doctype" || includes text "<html".



(** A server that answers every request with a redirect that can be
    followed. *)
Definition alwaysRedirects (env : Env) : Prop :=
  forall time url,
  exists statusCode location contentType body delivery l redirectUrl,
    http_get env time url =
      HttpResponse statusCode location contentType body delivery /\
    redirectTarget statusCode location = Some l /\
    redirectUrlOf env l url = Some redirectUrl.



(** No server closes the socket in the middle of a body, and [new URL]
    accepts every Location. *)
Definition settling (env : Env) : Prop :=
  (forall time url,
     match http_get env time url with
     | HttpResponse _ _ _ _ (Severed _) => False
     | _ => True
     end) /\
  (forall location url, resolve_url env location url <> None).

(** The number of content blocks carried by a list of slides. *)
Definition totalBlocks (slides : list Slide) : nat :=
  sum_list_with (fun s => length (contentOf s)) slides.

Definition startsWithSR (slides : list Slide) : bool :=
  match slides with
  | s :: _ => isSystemRequirements s
  | [] => false
  end.

Definition endsWithSR (slides : list Slide) : bool :=
  match last slides with
  | Some s => isSystemRequirements s
  | None => false
  end.

(** [run] is a maximal run of adjacent System Requirements slides of the
    deck [pre ++ run ++ post]. *)
Definition isMaximalRun (pre run post : list Slide) : Prop :=
  run <> [] /\
  Forall (fun s => isSystemRequirements s = true) run /\
  endsWithSR pre = false /\
  startsWithSR post = false.

(** The blocks of [s] that no derived slide carries: the ones in front of
    the first section header, when the slide is cut at its headers. *)
Definition blocksBeforeFirstSection (s : Slide) : nat :=
  match findSectionBoundaries 0 (contentOf s) with
  | (i, _) :: _ :: _ =>
      if (MAX_ITEMS_PER_SLIDE <? length (contentOf s))%nat then i else 0
  | _ => 0
  end.

(** How a computation may end: normally with a value in [Q]; with an error
    only if [E]; without an end only if [H]. *)
Definition ends (E H : Prop) {A} (Q : A -> Prop) (m : M A) : Prop :=
  forall w,
    match (m w).1 with
    | Ok a => Q a
    | Err _ => E
    | OutOfFuel => H
    end.

Definition anything {A} : A -> Prop := fun _ => True.

(** The value of a block that can only return [outputPath]. *)
Definition pathOrNull (outputPath : string) (r : option string) : Prop :=
  r = None \/ r = Some outputPath.

Definition flowTo (outputPath : string) (f : Flow) : Prop :=
  match f with Return p => p = outputPath | Next _ => True end.

(** A path is reported exactly for the results that are not failures. *)
Definition wellFormedResult (task : DownloadTask) (r : AssetResult) : Prop :=
  assetIndex r = taskIndex task /\
  ((assetType r = taskType task /\ exists p, assetPath r = Some p) \/
   (assetType r = taskType task +:+ "_failed" /\ assetPath r = None)).

(** ** Sample slides, files and environments *)

Definition block (level_ : Z) (text_ : string) : ContentBlock :=
  mkBlock level_ (Some text_).

(** Two blocks, none of the trivial phrases. *)
Definition shortPlainSlide : Slide :=
  mkSlide "content_bullets" (Some "System Requirements: Camera")
    (Some [block 0 "Camera"; block 1 "Resolution: 1080p"]) None None [].

(** Three blocks, one of them saying "none required". *)
Definition longTrivialSlide : Slide :=
  mkSlide "content_bullets" (Some "System Requirements: Power")
    (Some [block 0 "Power"; block 1 "Voltage: 220V";
           block 1 "Backup: None required"]) None None [].

(** Twelve blocks: a line of introduction, then the sections "Network"
    (five blocks) and "Camera" (six blocks). *)
Definition introSlide : Slide :=
  mkSlide "content_bullets" (Some "System Requirements")
    (Some [block 1 "Site: Plant A";
           block 0 "Network"; block 1 "Bandwidth: 30 Mbps";
           block 1 "Latency: 50 ms"; block 1 "Uplink: fibre";
           block 1 "VPN: site to site";
           block 0 "Camera"; block 1 "Resolution: 1080p";
           block 1 "Frame rate: 25 fps"; block 1 "Codec: H.264";
           block 1 "Protocol: RTSP"; block 1 "Count: 12"]) None None [].

(** Nothing outside answers: requests fail, the browser opens no page. *)
Definition offline : Env :=
  mkEnv (fun _ _ => HttpFailure "ECONNREFUSED") (fun l _ => Some l)
        (fun _ => None)
        (fun _ => false) (fun _ => false) (fun _ => false) (fun _ => None)
        (fun _ => "") (fun _ _ => GotoRejects) (fun _ _ => QueryRejects)
        (fun _ => false) (fun _ => false) (fun _ _ => None) (fun _ _ => None)
        (fun _ => true).

(** [env] with another HTTP side. *)
Definition withHttp (get : nat -> string -> HttpOutcome) (env : Env) : Env :=
  mkEnv get (resolve_url env) (parse_url env) (new_page env) (page_race env)
        (page_wait env) (page_download env) (page_url env) (page_goto env)
        (page_query env) (element_click env) (page_close env)
        (exec_mmdc env) (sharp_png env) (can_write env).

(** A ten-byte file that starts with the PNG signature. *)
Definition pngFile : list byte :=
  [x89; x50; x4e; x47; x0d; x0a; x1a; x0a; x00; x00].

(** The first bytes of an MP4 file: a box of type [ftyp], brand [mp42]. *)
Definition mp4File : list byte :=
  [x00; x00; x00; x18; x66; x74; x79; x70; x6d; x70; x34; x32].

(** An error page. *)
Definition errorPage : list byte :=
  list_byte_of_string "<html><body>Sign in to continue</body></html>".

(** A server that answers every request with [pngFile]. *)
Definition servesPng : Env :=
  withHttp (fun _ _ => HttpResponse 200 None (Some "image/png") pngFile Delivered)
           offline.

(** An HTML page of 1021 bytes. *)
Definition htmlPage : list byte :=
  list_byte_of_string "<!DOCTYPE html><html>" ++ replicate 1000 x20.

(** Google Drive refusing the download endpoint and answering the view
    endpoint with [htmlPage]. *)
Definition viewServesHtml : Env :=
  withHttp (fun _ url =>
              if includes url "export=view"
              then HttpResponse 200 None (Some "text/html") htmlPage Delivered
              else HttpFailure "ECONNRESET")
           offline.

(** A server that answers every request with a redirect to [/next]. *)
Definition redirectLoop : Env :=
  withHttp (fun _ _ => HttpResponse 302 (Some "/next") None [] Delivered)
           offline.

(** A server that redirects the requests made before time [n] and answers
    the later ones with [mp4File]. *)
Definition redirectsUntil (n : nat) : Env :=
  withHttp (fun time _ =>
              if (time <? n)%nat
              then HttpResponse 302 (Some "/next") None [] Delivered
              else HttpResponse 200 None (Some "video/mp4") mp4File Delivered)
           offline.


(** A server that closes the socket after 4 bytes of [mp4File]. *)
Definition cutsBody : Env :=
  withHttp (fun _ _ =>
              HttpResponse 200 None (Some "video/mp4") mp4File (Severed 4))
           offline.

(** A sign-in page of 45 bytes, and a server that answers every request
    with it. *)
Definition servesErrorPage : Env :=
  withHttp (fun _ _ => HttpResponse 200 None (Some "text/html") errorPage Delivered)
           offline.

(** No rendering engine, and a [sharp] that encodes every image as
    [pngFile]. *)
Definition placeholderOnly : Env :=
  mkEnv (http_get offline) (resolve_url offline) (parse_url offline)
        (new_page offline) (page_race offline) (page_wait offline)
        (page_download offline) (page_url offline) (page_goto offline)
        (page_query offline) (element_click offline) (page_close offline)
        (fun _ _ => None) (fun _ _ => Some pngFile) (can_write offline).

(** A rendering engine and a [sharp] that both encode every image as
    [pngFile], on a disk where the directory [deck.mmd_output] does not
    exist. *)
Definition engineReady : Env :=
  mkEnv (http_get offline) (resolve_url offline) (parse_url offline)
        (new_page offline) (page_race offline) (page_wait offline)
        (page_download offline) (page_url offline) (page_goto offline)
        (page_query offline) (element_click offline) (page_close offline)
        (fun _ _ => Some pngFile) (fun _ _ => Some pngFile)
        (fun path => negb (startsWith path "deck.mmd_output/")).

(** A diagram slide with the given Mermaid source. *)
Definition diagramSlide (source : string) : Slide :=
  mkSlide "diagram" (Some "System Architecture") None
          (Some (mkDiagram "mermaid" (Some source))) None [].

(** A world whose only file is [data] at [path], with no calls made. *)
Definition worldWith (path : string) (data : list byte) : World :=
  mkWorld {[ path := data ]} [].

(** Twelve blocks: the sections "Network" and "Camera", six blocks each. *)
Definition sectionedSlide : Slide :=
  mkSlide "content_bullets" (Some "System Requirements: Infrastructure")
    (Some [block 0 "Network"; block 1 "Bandwidth: 30 Mbps";
           block 1 "Latency: 50 ms"; block 1 "Uplink: fibre";
           block 1 "VPN: site to site"; block 1 "Ports: 554, 443";
           block 0 "Camera"; block 1 "Resolution: 1080p";
           block 1 "Frame rate: 25 fps"; block 1 "Codec: H.264";
           block 1 "Protocol: RTSP"; block 1 "Count: 12"]) None None [].




(** A slide outside the category. *)
Definition titleSlide : Slide :=
  mkSlide "title" (Some "Technical Proposal") None None None [].

(** A world with no files and no calls made. *)
Definition emptyWorld : World := mkWorld ∅ [].

(** The signatures of the three image formats the validator knows. *)
Definition jpegSignature : list byte := [xff; xd8; xff].
Definition gifSignature : list byte := [x47; x49; x46; x38].

(** [m] relates every world to the world it leaves, however it ends. *)
Definition keeps (R : World -> World -> Prop) {A} (m : M A) : Prop :=
  forall w, R w (m w).2.

(** The files outside [paths] are as they were. *)
Definition sameExcept (paths : list string) (w w' : World) : Prop :=
  forall p, p ∉ paths -> files w' !! p = files w !! p.

(** From a world in [P], a normal end of [m] with the value [a] leaves a
    world in [Q a]. *)
Definition hoare (P : World -> Prop) {A} (m : M A) (Q : A -> World -> Prop)
  : Prop :=
  forall w, P w ->
    match m w with
    | (Ok a, w') => Q a w'
    | _ => True
    end.

(** The server answered a request with status 200 and delivered [body]. *)
(** The files are the same in both worlds. *)
Definition sameFiles (w w' : World) : Prop := files w' = files w.

Definition top : World -> Prop := fun _ => True.

(** [path] holds [data]. *)
Definition holds (path : string) (data : list byte) (w : World) : Prop :=
  files w !! path = Some data.

(** The file at [path] passes the check for [kind]. *)
Definition passes (path kind : string) (w : World) : Prop :=
  (validateFileType path kind w).1 = Ok true.

(** A returned path is [outputPath], and names a file that passes the
    check for [kind]. *)
Definition validated (outputPath kind : string) (r : option string)
    (w : World) : Prop :=
  match r with
  | Some p => p = outputPath /\ passes outputPath kind w
  | None => True
  end.

(** A returned path is [outputPath], and names a file that is not empty. *)
Definition nonEmptyFile (outputPath : string) (r : option string)
    (w : World) : Prop :=
  match r with
  | Some p => p = outputPath /\
              exists data, files w !! outputPath = Some data /\ data <> []
  | None => True
  end.

(** Every character of [s] is in the class [[a-zA-Z0-9_-]]. *)
Fixpoint allIdChars (s : string) : bool :=
  match s with
  | String c s' => isIdChar c && allIdChars s'
  | EmptyString => true
  end.

Definition startsWithIdChar (s : string) : bool :=
  match s with
  | String c _ => isIdChar c
  | EmptyString => false
  end.

(** The blocks of [s] that the aggregator hands on. *)
Definition keptContent (s : Slide) : list ContentBlock :=
  if isSystemRequirements s then
    if isNonTrivial s then drop (blocksBeforeFirstSection s) (contentOf s)
    else []
  else contentOf s.

(** What one character becomes. *)
Definition escapeChar (c : ascii) : string :=
  if Ascii.eqb c "&" then "&amp;"
  else if Ascii.eqb c "<" then "&lt;"
  else if Ascii.eqb c ">" then "&gt;"
  else if Ascii.eqb c "034" then "&quot;"
  else if Ascii.eqb c "'" then "&#039;"
  else String c EmptyString.

Fixpoint escapeEach (s : string) : string :=
  match s with
  | EmptyString => EmptyString
  | String c s' => escapeChar c +:+ escapeEach s'
  end.

(** [s.includes(c)] for one character. *)
Fixpoint hasChar (c : ascii) (s : string) : bool :=
  match s with
  | EmptyString => false
  | String x s' => Ascii.eqb x c || hasChar c s'
  end.

Definition served (env : Env) (body : list byte) : Prop :=
  exists time url location contentType,
    http_get env time url = HttpResponse 200 location contentType body Delivered.

(* ================================================================== *)
(** * Properties *)
(* ================================================================== *)

(** ** FileTypeValidator *)

Lemma byteIs_true buffer i b :
  byteIs buffer i b = true <-> buffer !! i = Some b.
Proof.
  unfold byteIs. destruct (buffer !! i) as [x|]; [|split; discriminate].
  split.
  - intros H. f_equal. apply Byte.byte_dec_bl. exact H.
  - intros [= ->]. apply Byte.byte_dec_lb. reflexivity.
Qed.

Lemma byteIs_false buffer i b :
  buffer !! i <> Some b -> byteIs buffer i b = false.
Proof.
  intros H. destruct (byteIs buffer i b) eqn:E; [|reflexivity].
  apply byteIs_true in E. contradiction.
Qed.

(** The four comparisons of the source are the test [take 4 buffer = sig]. *)
Lemma signature_at buffer k (b0 b1 b2 b3 : byte) :
  byteIs buffer (k + 0) b0 && byteIs buffer (k + 1) b1 &&
  byteIs buffer (k + 2) b2 && byteIs buffer (k + 3) b3 = true
  <-> take 4 (drop k buffer) = [b0; b1; b2; b3].
Proof.
  rewrite !andb_true_iff, !byteIs_true, <- !lookup_drop.
  destruct (drop k buffer) as [|c0 [|c1 [|c2 [|c3 rest]]]]; simpl;
    split; try (intros [[[? ?] ?] ?]); try discriminate; try congruence.
  - rewrite take_0. congruence.
  - rewrite take_0. intros [= -> -> -> ->]. auto.
Qed.

Lemma png_check buffer :
  byteIs buffer 0 x89 && byteIs buffer 1 x50 &&
  byteIs buffer 2 x4e && byteIs buffer 3 x47 = true
  <-> take 4 buffer = pngSignature.
Proof. apply (signature_at buffer 0). Qed.

Lemma ftyp_check buffer :
  byteIs buffer 4 x66 && byteIs buffer 5 x74 &&
  byteIs buffer 6 x79 && byteIs buffer 7 x70 = true
  <-> take 4 (drop 4 buffer) = ftypMarker.
Proof. apply (signature_at buffer 4). Qed.

Lemma html_check buffer :
  (let text := toLowerCase (bufferToString buffer (Nat.min 100 (length buffer))) in
   includes text "<!doctype" || includes text "<html") = htmlPrefix buffer.
Proof.
  unfold htmlPrefix, bufferToString. cbv zeta.
  replace (take (Nat.min 100 (length buffer)) buffer) with (take 100 buffer);
    [reflexivity|].
  destruct (Nat.le_ge_cases 100 (length buffer)) as [H|H].
  - rewrite Nat.min_l by exact H. reflexivity.
  - rewrite Nat.min_r by exact H. rewrite !take_ge; auto.
Qed.

Ltac run_validate H :=
  unfold validateFileType, try_catch, mbind, M_bind, bind, stat_size, readFile;
  rewrite H; cbn beta iota.
Ltac read_file H :=
  rewrite H; cbn beta iota; simpl String.eqb; cbn beta iota.

(** C5.  On a file present at [path], [validateFileType path "video"]
    answers false when the file starts with the PNG signature, when its
    first hundred bytes hold an HTML opening, or when it is shorter than 4
    bytes; it answers true for a file of at least 8 bytes that is neither
    and whose bytes 4 to 7 spell [ftyp].  The world is left as it was. *)
Theorem validateFileType_video (w : World) (path : string) (buffer : list byte) :
  files w !! path = Some buffer ->
  (take 4 buffer = pngSignature ->
     validateFileType path "video" w = (Ok false, w)) /\
  (htmlPrefix buffer = true ->
     validateFileType path "video" w = (Ok false, w)) /\
  (length buffer < 4 ->
     validateFileType path "video" w = (Ok false, w)) /\
  (8 <= length buffer -> take 4 buffer <> pngSignature ->
   htmlPrefix buffer = false -> take 4 (drop 4 buffer) = ftypMarker ->
     validateFileType path "video" w = (Ok true, w)).
Proof.
  intros Hfile. repeat split.
  - intros Hpng. run_validate Hfile.
    destruct (length buffer <? 4)%nat; [reflexivity|]. read_file Hfile.
    apply png_check in Hpng. rewrite Hpng. reflexivity.
  - intros Hhtml. run_validate Hfile.
    destruct (length buffer <? 4)%nat; [reflexivity|]. read_file Hfile.
    rewrite html_check, Hhtml.
    destruct (_ && _ && _ && _); reflexivity.
  - intros Hshort. run_validate Hfile.
    apply Nat.ltb_lt in Hshort. rewrite Hshort. reflexivity.
  - intros Hlen Hpng Hhtml Hftyp. run_validate Hfile.
    assert ((length buffer <? 4)%nat = false) as -> by (apply Nat.ltb_ge; lia).
    read_file Hfile.
    destruct (byteIs buffer 0 x89 && _ && _ && _) eqn:E.
    { apply png_check in E. contradiction. }
    rewrite html_check, Hhtml.
    apply Nat.leb_le in Hlen. rewrite Hlen.
    apply ftyp_check in Hftyp. rewrite !andb_true_iff in Hftyp.
    destruct Hftyp as [[[-> ->] ->] ->]. reflexivity.
Qed.

(** C10.  For a file of at least 4 bytes and a kind that is neither
    ["image"] nor ["video"], [validateFileType] answers true whatever the
    bytes are. *)
Theorem validateFileType_unknown_kind
    (w : World) (path expectedType : string) (buffer : list byte) :
  files w !! path = Some buffer ->
  4 <= length buffer ->
  expectedType <> "image" -> expectedType <> "video" ->
  validateFileType path expectedType w = (Ok true, w).
Proof.
  intros Hfile Hlen Himage Hvideo. run_validate Hfile.
  assert ((length buffer <? 4)%nat = false) as -> by (apply Nat.ltb_ge; lia).
  read_file Hfile.
  apply String.eqb_neq in Himage, Hvideo. rewrite Himage, Hvideo.
  reflexivity.
Qed.

(** ** ContentAggregator *)

Arguments isSystemRequirements : simpl never.
Arguments isNonTrivial : simpl never.
Arguments isSectionHeader : simpl never.
Arguments splitSlide : simpl never.

Arguments totalBlocks : simpl never.

Lemma isNonTrivial_spec s :
  isNonTrivial s = negb (hasTrivialPhrase s) && (2 <? length (contentOf s))%nat.
Proof.
  unfold isNonTrivial, hasTrivialPhrase. cbv zeta.
  rewrite !negb_orb. reflexivity.
Qed.

Lemma isNonTrivial_false s :
  isNonTrivial s = false <->
  hasTrivialPhrase s = true \/ length (contentOf s) <= 2.
Proof.
  rewrite isNonTrivial_spec, andb_false_iff, negb_false_iff, Nat.ltb_ge.
  reflexivity.
Qed.


Lemma aggregateRun_filter run :
  aggregateRun run =
  flat_map splitSlide (filter (fun s => isNonTrivial s = true) run).
Proof.
  unfold aggregateRun. cbv zeta.
  destruct (filter _ run); reflexivity.
Qed.


Lemma isSectionHeader_name item :
  isSectionHeader item = true -> trim (textOf item) ∈ sectionNames.
Proof.
  unfold isSectionHeader. cbv zeta. rewrite !andb_true_iff.
  intros [_ H]. apply existsb_exists in H as [x [Hx H]].
  apply String.eqb_eq in H. subst x. apply list_elem_of_In. exact Hx.
Qed.

(** Every boundary points at a section header of [content], and the
    boundaries come in increasing order of index. *)
Lemma findSectionBoundaries_elem k content i name :
  (i, name) ∈ findSectionBoundaries k content ->
  k <= i < k + length content /\
  exists item, content !! (i - k) = Some item /\
               isSectionHeader item = true /\ name = trim (textOf item).
Proof.
  revert k. induction content as [|item rest IH]; intros k; simpl.
  - intros H. inversion H.
  - assert (Hrest : (i, name) ∈ findSectionBoundaries (S k) rest ->
      k <= i < k + S (length rest) /\
      exists item', (item :: rest) !! (i - k) = Some item' /\
        isSectionHeader item' = true /\ name = trim (textOf item')).
    { intros H. apply IH in H as [Hi [item' [Hl H]]]. split; [lia|].
      exists item'. replace (i - k) with (S (i - S k)) by lia. auto. }
    destruct (isSectionHeader item) eqn:E; [|exact Hrest].
    intros H. apply elem_of_cons in H as [[= -> ->]|H]; [|auto].
    split; [lia|]. exists item. rewrite Nat.sub_diag. auto.
Qed.

Lemma sectionName_truthy k content i name :
  (i, name) ∈ findSectionBoundaries k content -> truthy name = true.
Proof.
  intros H. apply findSectionBoundaries_elem in H as [_ [item [_ [H ->]]]].
  apply isSectionHeader_name in H. revert H. generalize (trim (textOf item)).
  intros t H. unfold sectionNames in H.
  repeat (apply elem_of_cons in H as [->|H]; [reflexivity|]).
  inversion H.
Qed.

Lemma slice_to_end {A} (l : list A) j n :
  length l <= n -> slice j n l = drop j l.
Proof.
  intros H. unfold slice. apply take_ge. rewrite length_drop. lia.
Qed.





(** *** Runs of System Requirements slides *)

Lemma collectRun_cons s rest :
  collectRun (s :: rest) =
  if isSystemRequirements s
  then let (run, after) := collectRun rest in (s :: run, after)
  else ([], s :: rest).
Proof. reflexivity. Qed.

Lemma collectRun_run run post :
  Forall (fun s => isSystemRequirements s = true) run ->
  startsWithSR post = false ->
  collectRun (run ++ post) = (run, post).
Proof.
  intros Hrun Hpost. induction Hrun as [|s run Hs _ IH].
  - destruct post as [|p post]; [reflexivity|].
    simpl in Hpost. rewrite app_nil_l, collectRun_cons, Hpost. reflexivity.
  - rewrite <- app_comm_cons, collectRun_cons, Hs, IH. reflexivity.
Qed.

Lemma collectRun_split slides :
  let (run, after) := collectRun slides in
  slides = run ++ after /\
  Forall (fun s => isSystemRequirements s = true) run /\
  startsWithSR after = false.
Proof.
  induction slides as [|s rest IH].
  - simpl. auto.
  - rewrite collectRun_cons. destruct (isSystemRequirements s) eqn:E.
    + destruct (collectRun rest) as [run after].
      destruct IH as [-> [Hrun Hafter]]. auto.
    + simpl. rewrite E. auto.
Qed.

Lemma aggregateSlides_cons_run s run post :
  isSystemRequirements s = true ->
  Forall (fun s => isSystemRequirements s = true) run ->
  startsWithSR post = false ->
  aggregateSlides (s :: run ++ post) =
  aggregateRun (s :: run) ++ aggregateSlides post.
Proof.
  intros Hs Hrun Hpost. simp aggregateSlides.
  rewrite Hs, collectRun_run by assumption. reflexivity.
Qed.

Lemma aggregateSlides_cons_other s rest :
  isSystemRequirements s = false ->
  aggregateSlides (s :: rest) = s :: aggregateSlides rest.
Proof. intros Hs. simp aggregateSlides. rewrite Hs. reflexivity. Qed.

Lemma endsWithSR_cons s x rest :
  endsWithSR (s :: x :: rest) = endsWithSR (x :: rest).
Proof. reflexivity. Qed.

Lemma endsWithSR_app l x rest :
  endsWithSR (l ++ x :: rest) = endsWithSR (x :: rest).
Proof.
  unfold endsWithSR. rewrite last_app. 
  destruct (last (x :: rest)) eqn:E; [reflexivity|].
  apply last_None in E. discriminate.
Qed.

Lemma endsWithSR_all run :
  run <> [] ->
  Forall (fun s => isSystemRequirements s = true) run ->
  endsWithSR run = true.
Proof.
  intros Hne Hrun. unfold endsWithSR.
  destruct (last run) as [s|] eqn:E.
  - rewrite Forall_forall in Hrun. apply Hrun.
    apply last_Some in E as [l' ->]. apply elem_of_app. right. left.
  - apply last_None in E. contradiction.
Qed.

(** The loop handles what follows a slide outside the category, or the end
    of a run, independently of what came before. *)
Lemma aggregateSlides_app pre l :
  endsWithSR pre = false ->
  aggregateSlides (pre ++ l) = aggregateSlides pre ++ aggregateSlides l.
Proof.
  remember (length pre) as n eqn:Hn. revert pre Hn.
  induction n as [n IH] using lt_wf_ind. intros pre Hn Hend.
  destruct pre as [|s pre']; [reflexivity|].
  destruct (isSystemRequirements s) eqn:Hs.
  - pose proof (collectRun_split pre') as Hsplit.
    destruct (collectRun pre') as [run after].
    destruct Hsplit as [-> [Hrun Hafter]].
    destruct after as [|x after].
    { rewrite app_nil_r in Hend.
      rewrite (endsWithSR_all (s :: run)) in Hend; [discriminate|discriminate|].
      constructor; assumption. }
    rewrite (app_comm_cons run), endsWithSR_app in Hend.
    rewrite (aggregateSlides_cons_run s run (x :: after)) by assumption.
    replace ((s :: run ++ x :: after) ++ l)
      with (s :: run ++ ((x :: after) ++ l))
      by (rewrite app_comm_cons, app_assoc; reflexivity).
    rewrite (aggregateSlides_cons_run s run ((x :: after) ++ l))
      by assumption.
    rewrite <- app_assoc. f_equal.
    apply (IH (length (x :: after))); [|reflexivity|exact Hend].
    subst n. simpl. rewrite length_app. simpl. lia.
  - rewrite <- app_comm_cons, !aggregateSlides_cons_other by exact Hs.
    rewrite <- app_comm_cons. f_equal.
    destruct pre' as [|x pre'']; [reflexivity|].
    apply (IH (length (x :: pre''))); [subst n; simpl; lia|reflexivity|].
    rewrite <- Hend. reflexivity.
Qed.

(** What [aggregateSlides] derives from a maximal run is [aggregateRun] of
    it, placed between what it derives from the slides before and after. *)
Lemma aggregateSlides_maximal_run pre run post :
  isMaximalRun pre run post ->
  aggregateSlides (pre ++ run ++ post) =
  aggregateSlides pre ++ aggregateRun run ++ aggregateSlides post.
Proof.
  intros (Hne & Hrun & Hpre & Hpost).
  rewrite aggregateSlides_app by exact Hpre. f_equal.
  destruct run as [|s run]; [contradiction|].
  inversion Hrun; subst. simpl.
  apply aggregateSlides_cons_run; assumption.
Qed.

(** *** What becomes of the content blocks *)

Lemma totalBlocks_nil : totalBlocks [] = 0.
Proof. reflexivity. Qed.

Lemma totalBlocks_cons s slides :
  totalBlocks (s :: slides) = length (contentOf s) + totalBlocks slides.
Proof. reflexivity. Qed.

Lemma totalBlocks_app l1 l2 :
  totalBlocks (l1 ++ l2) = totalBlocks l1 + totalBlocks l2.
Proof. apply sum_list_with_app. Qed.

Lemma contentOf_derive s t c g : contentOf (derive s t c g) = c.
Proof. reflexivity. Qed.

Lemma contentOf_retitle s t g : contentOf (retitle s t g) = contentOf s.
Proof. reflexivity. Qed.

Lemma length_slice {A} (l : list A) i j :
  i <= j <= length l -> length (slice i j l) = j - i.
Proof. intros H. unfold slice. rewrite length_take, length_drop. lia. Qed.

(** The slides cut at the section boundaries carry everything from the
    first boundary on. *)
Lemma splitBySections_total s before rest :
  totalBlocks (splitBySections s (before ++ rest)
                 (findSectionBoundaries (length before) rest)) =
  match findSectionBoundaries (length before) rest with
  | [] => 0
  | (i, _) :: _ => length (before ++ rest) - i
  end.
Proof.
  revert before. induction rest as [|item rest IH]; intros before;
    [reflexivity|].
  specialize (IH (before ++ [item])).
  rewrite <- app_assoc, length_app, Nat.add_1_r in IH. simpl app in IH.
  simpl findSectionBoundaries.
  destruct (isSectionHeader item); [|exact IH].
  simpl splitBySections. rewrite totalBlocks_cons, IH.
  pose proof (findSectionBoundaries_elem (S (length before)) rest) as Hel.
  rewrite length_app. simpl length.
  destruct (findSectionBoundaries (S (length before)) rest)
    as [|[i name] later].
  - rewrite contentOf_derive, length_slice; rewrite ?length_app; simpl; lia.
  - destruct (Hel i name) as [Hi _]; [left|].
    rewrite contentOf_derive, length_slice; rewrite ?length_app; simpl; lia.
Qed.

Lemma splitSlide_total s :
  totalBlocks (splitSlide s) + blocksBeforeFirstSection s =
  length (contentOf s).
Proof.
  unfold splitSlide, blocksBeforeFirstSection. cbv zeta.
  pose proof (splitBySections_total s [] (contentOf s)) as Hsplit.
  pose proof (findSectionBoundaries_elem 0 (contentOf s)) as Hel.
  simpl in Hsplit.
  destruct (findSectionBoundaries 0 (contentOf s)) as [|[i name] [|b later]];
    cbn [length].
  - change (1 <? 0)%nat with false. change (0 =? 1)%nat with false.
    rewrite andb_false_r. cbn [andb].
    rewrite totalBlocks_cons, totalBlocks_nil, contentOf_retitle. lia.
  - change (1 <? 1)%nat with false. change (1 =? 1)%nat with true.
    rewrite andb_true_r. cbn [andb].
    destruct (MAX_ITEMS_PER_SLIDE <? length (contentOf s))%nat.
    + rewrite !totalBlocks_cons, totalBlocks_nil, !contentOf_derive.
      unfold slice. rewrite drop_0, length_take, length_drop. lia.
    + rewrite totalBlocks_cons, totalBlocks_nil, contentOf_retitle. lia.
  - destruct (Hel i name) as [Hi _]; [left|].
    change (1 <? S (S (length later)))%nat with true.
    destruct (MAX_ITEMS_PER_SLIDE <? length (contentOf s))%nat; cbn [andb].
    + rewrite Hsplit. lia.
    + rewrite totalBlocks_cons, totalBlocks_nil, contentOf_retitle. lia.
Qed.

(** Accounting for a run: the derived slides carry the blocks of the
    retained slides, less the blocks in front of the first header of each
    slide that was cut at its headers. *)
Lemma aggregateRun_total run :
  totalBlocks (aggregateRun run) +
  sum_list_with blocksBeforeFirstSection
    (filter (fun s => isNonTrivial s = true) run) =
  totalBlocks (filter (fun s => isNonTrivial s = true) run).
Proof.
  rewrite aggregateRun_filter.
  induction (filter (fun s => isNonTrivial s = true) run) as [|s kept IH];
    [reflexivity|].
  simpl flat_map. rewrite totalBlocks_app, totalBlocks_cons. simpl.
  pose proof (splitSlide_total s). lia.
Qed.

Lemma splitSlide_nonempty s : splitSlide s <> [].
Proof.
  unfold splitSlide. cbv zeta.
  destruct (findSectionBoundaries 0 (contentOf s)) as [|[i name] [|b later]];
    simpl; repeat (destruct (_ <? _)%nat; simpl); discriminate.
Qed.

(** The filter keeps a slide when it has none of the trivial phrases and
    more than two blocks; a kept slide always yields at least one slide. *)
Lemma filter_keeps (run : list Slide) (s : Slide) :
  s ∈ filter (fun s => isNonTrivial s = true) run <->
  s ∈ run /\ hasTrivialPhrase s = false /\ 2 < length (contentOf s).
Proof.
  rewrite list_elem_of_filter, isNonTrivial_spec, andb_true_iff,
    negb_true_iff, Nat.ltb_lt.
  tauto.
Qed.

(** C2, as the code has it.  Within a maximal run of System Requirements
    slides, a slide is dropped exactly when its content has one of the
    trivial phrases or it has at most two blocks: the slides derived from
    the run are those derived, one slide after the other, from the slides
    that are kept, and each kept slide yields at least one.  When every
    slide of the run is dropped, nothing is derived from the run. *)
Theorem aggregateSlides_filter_rule (pre run post : list Slide) :
  isMaximalRun pre run post ->
  let kept := filter (fun s => isNonTrivial s = true) run in
  aggregateSlides (pre ++ run ++ post) =
    aggregateSlides pre ++ flat_map splitSlide kept ++ aggregateSlides post
  /\ (forall s, s ∈ run ->
        (s ∉ kept <->
         hasTrivialPhrase s = true \/ length (contentOf s) <= 2))
  /\ (forall s, s ∈ kept -> splitSlide s <> [])
  /\ ((forall s, s ∈ run ->
         hasTrivialPhrase s = true \/ length (contentOf s) <= 2) ->
      aggregateSlides (pre ++ run ++ post) =
        aggregateSlides pre ++ aggregateSlides post).
Proof.
  intros Hrun kept. subst kept.
  rewrite (aggregateSlides_maximal_run _ _ _ Hrun), aggregateRun_filter.
  split; [reflexivity|]. split; [|split].
  - intros s Hs. rewrite filter_keeps. destruct (hasTrivialPhrase s).
    + split; [auto|]. intros _ [_ [H _]]. discriminate.
    + split.
      * intros H. right.
        destruct (Nat.le_gt_cases (length (contentOf s)) 2); [assumption|].
        exfalso. apply H. auto.
      * intros [H|H] [_ [_ H']]; [discriminate|lia].
  - intros s _. apply splitSlide_nonempty.
  - intros Hall.
    destruct (filter (fun s => isNonTrivial s = true) run) as [|x kept] eqn:E;
      [reflexivity|].
    assert (Hx : x ∈ filter (fun s => isNonTrivial s = true) run)
      by (rewrite E; left).
    apply filter_keeps in Hx as (Hin & Hphrase & Hlen).
    destruct (Hall x Hin); [congruence|lia].
Qed.

(** C2 with "and" between the two tests fails: [shortPlainSlide] is dropped without
    any trivial phrase, and [longTrivialSlide] is dropped although it has
    three blocks. *)
Lemma aggregateSlides_drops_on_either_test :
  (isSystemRequirements shortPlainSlide = true /\
   aggregateSlides [shortPlainSlide] = [] /\
   hasTrivialPhrase shortPlainSlide = false) /\
  (isSystemRequirements longTrivialSlide = true /\
   aggregateSlides [longTrivialSlide] = [] /\
   ~ length (contentOf longTrivialSlide) <= 2).
Proof.
  repeat split; try (vm_compute; reflexivity).
  vm_compute. lia.
Qed.

(** C1, at [introSlide].  The slide is a maximal run by itself and is kept
    by the filter; it has twelve blocks, the two slides derived from it
    have eleven: the block in front of the "Network" header is gone. *)
Theorem aggregateSlides_loses_leading_block :
  isMaximalRun [] [introSlide] [] /\
  isNonTrivial introSlide = true /\
  totalBlocks [introSlide] = 12 /\
  map (fun s => length (contentOf s)) (aggregateSlides [introSlide]) = [5; 6] /\
  totalBlocks (aggregateSlides [introSlide]) = 11.
Proof.
  split; [|repeat split; vm_compute; reflexivity].
  repeat split; try reflexivity; [discriminate|].
  constructor; [reflexivity|constructor].
Qed.

(** ** Direct retrieval *)

Lemma downloadFileDirect_exhausted env url outputPath followRedirects w :
  downloadFileDirect env url outputPath followRedirects 0 w =
  (Err "Too many redirects", w).
Proof. reflexivity. Qed.

Lemma downloadFileDirect_redirect env url outputPath remaining w
    statusCode location contentType body delivery l redirectUrl :
  http_get env (now w) url =
    HttpResponse statusCode location contentType body delivery ->
  redirectTarget statusCode location = Some l ->
  redirectUrlOf env l url = Some redirectUrl ->
  downloadFileDirect env url outputPath true (S remaining) w =
  downloadFileDirect env redirectUrl outputPath true remaining
    (mkWorld (files w) (EvHttpGet url :: events w)).
Proof.
  intros Hget Hredirect Hurl. simpl.
  unfold mbind, M_bind, bind, httpGet. rewrite Hget, Hredirect, Hurl.
  reflexivity.
Qed.


(** A run that does not end has met a body cut by a closed socket, or a
    Location that [new URL] refuses. *)
Lemma downloadFileDirect_unsettled env maxRedirects :
  forall url outputPath followRedirects w,
  (downloadFileDirect env url outputPath followRedirects maxRedirects w).1
    = OutOfFuel ->
  ~ settling env.
Proof.
  induction maxRedirects as [|remaining IH]; intros url outputPath follow w;
    [discriminate|].
  simpl. unfold mbind, M_bind, bind, httpGet.
  intros Hrun Hsettling. pose proof Hsettling as [Hbody Hurl].
  specialize (Hbody (now w) url).
  destruct (http_get env (now w) url)
    as [message|statusCode location contentType body delivery];
    [discriminate|].
  destruct (if follow then redirectTarget statusCode location else None)
    as [l|].
  - unfold redirectUrlOf in Hrun.
    destruct (startsWith l "http").
    + exact (IH _ _ _ _ Hrun Hsettling).
    + destruct (resolve_url env l url) as [redirectUrl|] eqn:Hresolve.
      * exact (IH _ _ _ _ Hrun Hsettling).
      * apply (Hurl l url). exact Hresolve.
  - destruct (negb (statusCode =? 200)%Z); [discriminate|].
    destruct delivery; [discriminate|discriminate|exact Hbody].
Qed.

Lemma downloadFileDirect_loop env maxRedirects :
  alwaysRedirects env ->
  forall url outputPath w,
  exists requests,
    downloadFileDirect env url outputPath true maxRedirects w =
      (Err "Too many redirects", mkWorld (files w) (requests ++ events w)) /\
    length requests = maxRedirects.
Proof.
  intros Hloop. induction maxRedirects as [|remaining IH];
    intros url outputPath w.
  - exists []. destruct w. split; reflexivity.
  - destruct (Hloop (now w) url)
      as (statusCode & location & contentType & body & delivery & l &
          redirectUrl & Hget & Hl & Hurl).
    rewrite (downloadFileDirect_redirect _ _ _ _ _ _ _ _ _ _ _ _
               Hget Hl Hurl).
    destruct (IH redirectUrl outputPath
                (mkWorld (files w) (EvHttpGet url :: events w)))
      as (requests & Hrun & Hlen).
    exists (requests ++ [EvHttpGet url]). split.
    + rewrite Hrun. simpl. rewrite <- app_assoc. reflexivity.
    + rewrite length_app. simpl. lia.
Qed.

(** Where the bound lies: a file behind four redirects is retrieved, a
    file behind five is not. *)
Example downloadFileDirect_four_redirects :
  let end_ := downloadFileDirect (redirectsUntil 4) "https://cdn.example/a.mp4"
                "a.mp4" true defaultMaxRedirects emptyWorld in
  end_.1 = Ok "a.mp4" /\ files end_.2 !! "a.mp4" = Some mp4File /\
  length (events end_.2) = 5.
Proof. vm_compute. repeat split; reflexivity. Qed.

Example downloadFileDirect_five_redirects :
  let end_ := downloadFileDirect (redirectsUntil 5) "https://cdn.example/a.mp4"
                "a.mp4" true defaultMaxRedirects emptyWorld in
  end_.1 = Err "Too many redirects" /\ files end_.2 !! "a.mp4" = None /\
  length (events end_.2) = 5.
Proof. vm_compute. repeat split; reflexivity. Qed.



(** ** RemoteAssetFetcher *)

(** C3, at a regular URL.  The server answers with a PNG file where a
    video is expected: [downloadFile] validates the file, rejects it and
    returns [null], and the rejected file is still at the destination. *)
Theorem downloadFile_leaves_rejected_file :
  let url := "https://example.com/demo.mp4" in
  let outputPath := "assets/module_0.mp4" in
  let end_ := downloadFile servesPng 1 url outputPath true emptyWorld in
  extractGoogleDriveId servesPng url = None /\
  end_.1 = Ok None /\
  files end_.2 !! outputPath = Some pngFile /\
  (validateFileType outputPath "video" end_.2).1 = Ok false.
Proof. vm_compute. repeat split; reflexivity. Qed.

(** C3, at the view endpoint.  For an image on Google Drive whose download
    endpoint fails, the answer of the view endpoint is accepted on its size
    alone: [downloadFile] returns the path of an HTML page that
    [validateFileType] rejects. *)
Lemma downloadFile_accepts_unvalidated_view :
  let url := "https://drive.google.com/file/d/1AbC_d-9/view?usp=sharing" in
  let outputPath := "assets/module_0.png" in
  let end_ := downloadFile viewServesHtml 1 url outputPath false emptyWorld in
  extractGoogleDriveId viewServesHtml url = Some "1AbC_d-9" /\
  end_.1 = Ok (Some outputPath) /\
  files end_.2 !! outputPath = Some htmlPage /\
  (validateFileType outputPath "image" end_.2).1 = Ok false.
Proof. vm_compute. repeat split; reflexivity. Qed.

(** *** How the computations end *)

Section Ends.
Context (E H : Prop).

Lemma ends_ret {A} (Q : A -> Prop) a : Q a -> ends E H Q (ret a).
Proof. intros Ha w. exact Ha. Qed.

Lemma ends_throw {A} (Q : A -> Prop) message :
  E -> ends E H Q (throw message).
Proof. intros He w. exact He. Qed.

Lemma ends_bind {A B} (P : A -> Prop) (Q : B -> Prop) (m : M A) (k : A -> M B) :
  ends E H P m -> (forall a, P a -> ends E H Q (k a)) ->
  ends E H Q (m ≫= k).
Proof.
  intros Hm Hk w. specialize (Hm w).
  unfold mbind, M_bind, bind. destruct (m w) as [[a|e|] w']; simpl in *; auto.
  apply Hk. exact Hm.
Qed.

Lemma ends_try_catch {A} (E' : Prop) (Q : A -> Prop) m handler :
  ends E' H Q m -> (forall e, ends E H Q (handler e)) ->
  ends E H Q (try_catch m handler).
Proof.
  intros Hm Hh w. specialize (Hm w).
  unfold try_catch. destruct (m w) as [[a|e|] w']; simpl in *; auto.
  apply Hh.
Qed.

Lemma ends_try_finally {A} (Q : A -> Prop) m cleanup :
  E -> ends E H Q m -> ends E H (@anything unit) cleanup ->
  ends E H Q (try_finally m cleanup).
Proof.
  intros He Hm Hc w. specialize (Hm w).
  unfold try_finally. destruct (m w) as [[a|e|] w']; simpl in *; auto;
    specialize (Hc w'); destruct (cleanup w') as [[[]|e'|] w'']; simpl in *;
    auto.
Qed.

Lemma ends_weaken {A} (P Q : A -> Prop) m :
  ends E H P m -> (forall a, P a -> Q a) -> ends E H Q m.
Proof.
  intros Hm HPQ w. specialize (Hm w).
  destruct (m w) as [[a|e|] w']; simpl in *; auto.
Qed.

Lemma ends_andThen (Q : option string -> Prop) block rest :
  ends E H Q block -> ends E H Q rest -> ends E H Q (block >>> rest).
Proof.
  intros Hb Hr. unfold andThen. apply (ends_bind Q); [exact Hb|].
  intros [p|] Hp; [apply ends_ret; exact Hp|exact Hr].
Qed.

End Ends.

Lemma ends_relax (E E' H : Prop) {A} (P Q : A -> Prop) m :
  ends E H P m -> (E -> E') -> (forall a, P a -> Q a) -> ends E' H Q m.
Proof.
  intros Hm HE HPQ w. specialize (Hm w).
  destruct (m w) as [[a|e|] w']; simpl in *; auto.
Qed.

(** A computation that always ends. *)
Lemma ends_settled {A} (H : Prop) (m : M A) :
  (forall w, (m w).1 <> OutOfFuel) -> ends True H anything m.
Proof.
  intros Hm w. specialize (Hm w).
  destruct (m w) as [[a|e|] w']; simpl in *; [exact I|exact I|contradiction].
Qed.

Lemma ends_stat_size H path : ends True H anything (stat_size path).
Proof.
  apply ends_settled. intros w. unfold stat_size.
  destruct (files w !! path); discriminate.
Qed.

Lemma ends_unlink H path : ends True H anything (unlink path).
Proof.
  apply ends_settled. intros w. unfold unlink.
  destruct (files w !! path); discriminate.
Qed.

Lemma ends_writeFile H path data : ends True H anything (writeFile path data).
Proof. apply ends_settled. intros w. discriminate. Qed.

Lemma ends_browserCall H name : ends True H anything (browserCall name).
Proof. apply ends_settled. intros w. discriminate. Qed.

Lemma ends_validateFileType E H path kind :
  ends E H anything (validateFileType path kind).
Proof.
  intros w. unfold validateFileType, try_catch, mbind, M_bind, bind,
    stat_size, readFile.
  destruct (files w !! path) as [buffer|]; cbn beta iota; [|exact I].
  destruct (length buffer <? 4)%nat; [exact I|].
  destruct (files w !! path); cbn beta iota; [|exact I].
  repeat match goal with
         | |- context [if ?c then _ else _] => destruct c
         end; exact I.
Qed.

(** Nothing is said of how a computation ends. *)
Lemma ends_any {A} (m : M A) : ends True True anything m.
Proof. intros w. destruct (m w) as [[a|e|] w']; exact I. Qed.

Lemma ends_downloadFileDirect env url outputPath followRedirects n :
  ends True (~ settling env) anything
       (downloadFileDirect env url outputPath followRedirects n).
Proof.
  intros w.
  pose proof (downloadFileDirect_unsettled env n url outputPath
                followRedirects w) as Hunsettled.
  destruct (downloadFileDirect env url outputPath followRedirects n w)
    as [[a|e|] w']; simpl in *; [exact I|exact I|].
  apply Hunsettled. reflexivity.
Qed.

Lemma ends_fetchResponse_any env fuel url :
  ends True True anything (fetchResponse env fuel url).
Proof. apply ends_any. Qed.

Create HintDb ends.
#[export] Hint Resolve ends_stat_size ends_unlink ends_writeFile
  ends_browserCall ends_validateFileType : ends.

Ltac ends_tac :=
  repeat (first
    [ assumption
    | solve [eauto with ends]
    | apply ends_ret;
      solve [exact I | left; reflexivity | right; reflexivity | reflexivity]
    | apply ends_throw; exact I
    | apply ends_andThen
    | apply (ends_try_catch _ _ True); [|intros ?]
    | apply ends_try_finally; [exact I| |]
    | eapply ends_bind; [solve [eauto with ends]|intros ? _]
    | match goal with
      | |- ends _ _ _ (if ?c then _ else _) => destruct c
      | |- ends _ _ _ (match ?x with _ => _ end) => destruct x
      end ]).

Section FetcherEnds.
Context (H : Prop) (env : Env) (fuel : nat).
Context (Hfetch : forall url, ends True H anything (fetchResponse env fuel url)).
Context (Hdirect : forall url outputPath followRedirects n,
           ends True H anything
                (downloadFileDirect env url outputPath followRedirects n)).

Lemma ends_catch_default {A} (m : M A) dflt :
  ends True H anything m -> ends True H anything (catch_default m dflt).
Proof. intros Hm. unfold catch_default. ends_tac. Qed.

Lemma ends_acceptOrDelete outputPath isVideo :
  ends True H (pathOrNull outputPath) (acceptOrDelete outputPath isVideo).
Proof.
  unfold acceptOrDelete. ends_tac.
  eapply ends_bind; [apply ends_catch_default; eauto with ends|intros ? _].
  ends_tac.
Qed.

Lemma ends_tryDirect url outputPath isVideo :
  ends True H (pathOrNull outputPath) (tryDirect env url outputPath isVideo).
Proof.
  pose proof ends_acceptOrDelete. unfold tryDirect. ends_tac.
Qed.

Lemma ends_downloadGoogleDriveFile fileId outputPath isVideo :
  ends True H (pathOrNull outputPath)
    (downloadGoogleDriveFile env fuel fileId outputPath isVideo).
Proof.
  pose proof ends_acceptOrDelete. pose proof ends_tryDirect.
  unfold downloadGoogleDriveFile. cbv zeta. ends_tac.
Qed.

Lemma ends_newPage : ends True H anything (newPage env).
Proof. unfold newPage. ends_tac. Qed.

Lemma ends_closePage : ends True H anything (closePage env).
Proof. unfold closePage. ends_tac. Qed.

Lemma ends_waitForTimeout : ends True H anything (waitForTimeout env).
Proof. unfold waitForTimeout. ends_tac. Qed.

Lemma ends_awaitDownload : ends True H anything (awaitDownload env).
Proof. unfold awaitDownload. ends_tac. Qed.

Lemma ends_navigate url : ends True H anything (navigate env url).
Proof. unfold navigate. ends_tac. Qed.

Lemma ends_goto url : ends True H anything (goto env url).
Proof. unfold goto. ends_tac. Qed.

Lemma ends_query selector : ends True H anything (query env selector).
Proof. unfold query. ends_tac. Qed.

Lemma ends_click : ends True H anything (click env).
Proof. unfold click. ends_tac. Qed.

Lemma ends_saveAs download outputPath :
  ends True H anything (saveAs download outputPath).
Proof. unfold saveAs. ends_tac. Qed.

Lemma ends_pageUrl : ends True H anything (pageUrl env).
Proof. intros w. exact I. Qed.

Lemma ends_clickAndWait : ends True H anything (clickAndWait env).
Proof.
  pose proof ends_click. pose proof ends_waitForTimeout.
  pose proof ends_awaitDownload. unfold clickAndWait. ends_tac.
Qed.

Lemma ends_trySelectors candidates :
  ends True H anything (trySelectors env candidates).
Proof.
  pose proof ends_clickAndWait. pose proof ends_query.
  induction candidates as [|selector later IH]; simpl; ends_tac.
  eapply ends_bind; [|intros [d|] _; ends_tac].
  instantiate (1 := anything). ends_tac.
Qed.

Lemma ends_confirmationPage url outputPath isVideo :
  ends True H (flowTo outputPath)
    (confirmationPage env url outputPath isVideo).
Proof.
  pose proof ends_acceptOrDelete. pose proof ends_goto.
  pose proof ends_query. pose proof ends_clickAndWait.
  pose proof ends_trySelectors.
  unfold confirmationPage. ends_tac.
  apply (ends_bind _ _ (pathOrNull outputPath)).
  - ends_tac; apply ends_ret; left; reflexivity.
  - intros [p|] [Hp|Hp]; try discriminate.
    + injection Hp as ->. ends_tac.
    + ends_tac.
Qed.

Lemma ends_driveInBrowser fileId outputPath isVideo :
  ends True H (pathOrNull outputPath)
    (driveInBrowser env fileId outputPath isVideo).
Proof.
  pose proof ends_acceptOrDelete. pose proof ends_newPage.
  pose proof ends_closePage. pose proof ends_navigate.
  pose proof ends_waitForTimeout. pose proof ends_awaitDownload.
  pose proof ends_pageUrl. pose proof ends_saveAs.
  pose proof ends_confirmationPage.
  unfold driveInBrowser. cbv zeta. ends_tac.
  apply (ends_bind _ _ anything); [ends_tac|intros download _].
  ends_tac.
  apply (ends_bind _ _ (flowTo outputPath)).
  - destruct download; ends_tac.
  - intros [p|[d|]] Hflow; simpl in Hflow.
    + subst p. ends_tac.
    + ends_tac. apply (ends_bind _ _ anything).
      * ends_tac.
      * intros ? _. ends_tac.
    + ends_tac.
Qed.

Lemma ends_regularUrl url outputPath isVideo :
  ends True H (pathOrNull outputPath) (regularUrl env url outputPath isVideo).
Proof.
  pose proof ends_newPage. pose proof ends_closePage. pose proof ends_goto.
  unfold regularUrl. ends_tac.
Qed.

Lemma ends_downloadFile url outputPath isVideo :
  ends False H (pathOrNull outputPath)
    (downloadFile env fuel url outputPath isVideo).
Proof.
  pose proof ends_downloadGoogleDriveFile. pose proof ends_driveInBrowser.
  pose proof ends_regularUrl.
  assert (forall path, ends True H anything (catch_default (unlink path) tt))
    by (intros path; apply ends_catch_default; auto with ends).
  unfold downloadFile. destruct (_ || _).
  - apply ends_ret. left. reflexivity.
  - apply (ends_try_catch _ _ True).
    + destruct (extractGoogleDriveId env url); ends_tac.
    + intros e. apply ends_ret. left. reflexivity.
Qed.

End FetcherEnds.

Lemma ends_runDownloadTask H env downloadImage fuel task :
  (forall url, ends True H anything (fetchResponse env fuel url)) ->
  (forall url outputPath followRedirects n,
     ends True H anything
          (downloadFileDirect env url outputPath followRedirects n)) ->
  (forall url path, ends True H anything (downloadImage url path)) ->
  ends False H
    (fun r => taskType task = "video" \/ taskType task = "image" ->
              wellFormedResult task r)
    (runDownloadTask env downloadImage fuel task).
Proof.
  intros Hfetch Hdirect Himage. unfold runDownloadTask.
  assert (Hunlink : forall path,
             ends True H anything (catch_default (unlink path) tt))
    by (intros path; apply ends_catch_default; auto with ends).
  apply (ends_try_catch _ _ True).
  - destruct (String.eqb (taskType task) "video") eqn:Ht.
    + apply String.eqb_eq in Ht.
      assert (Hvideo : wellFormedResult task
                (mkAsset (taskIndex task) "video_failed" None
                         (Some (taskUrl task))))
        by (unfold wellFormedResult; simpl; rewrite Ht; auto).
      eapply ends_bind.
      { unfold downloadVideo.
        apply (ends_relax False True H (pathOrNull (taskPath task)));
          [apply ends_downloadFile; assumption|tauto|intros a _; exact I]. }
      intros [p|] _; [|apply ends_ret; auto].
      destruct (truthy p); [|apply ends_ret; auto].
      ends_tac; apply ends_ret; intros _; [|exact Hvideo].
      unfold wellFormedResult; simpl; rewrite Ht; eauto.
    + apply String.eqb_neq in Ht.
      eapply ends_bind; [apply Himage|].
      intros [p|] _; [destruct (truthy p)|]; apply ends_ret;
        intros [Hv|Hi]; try contradiction;
        unfold wellFormedResult; simpl; rewrite Hi; eauto.
  - intros e. apply ends_ret. unfold failedResult, wellFormedResult.
    intros [Ht|Ht]; rewrite Ht; simpl; auto.
Qed.

(** What holds of the claim C4: whatever the servers and the browser do,
    [downloadFile] does not end with an error, and when it ends it returns
    [outputPath] or [null]; the task that the orchestrator runs for an
    asset does not end with an error either, whatever [downloadImage]
    is. *)
Lemma downloadFile_never_rejects
    (env : Env) (fuel : nat) (url outputPath : string) (isVideo : bool)
    (w : World) :
  let result := (downloadFile env fuel url outputPath isVideo w).1 in
  (result = Ok (Some outputPath) \/ result = Ok None \/ result = OutOfFuel) /\
  (forall downloadImage task message,
     (runDownloadTask env downloadImage fuel task w).1 <> Err message).
Proof.
  cbv zeta. split.
  - pose proof (ends_downloadFile True env fuel
                  (ends_fetchResponse_any env fuel)
                  (fun u o f n => ends_any _) url outputPath isVideo w)
      as Hend.
    destruct (downloadFile env fuel url outputPath isVideo w).1 as [r|e|];
      [|contradiction|auto].
    destruct Hend as [->| ->]; auto.
  - intros downloadImage task message Herr.
    unfold runDownloadTask, try_catch in Herr.
    destruct (_ w) as [[r|e|] w'] in Herr; discriminate.
Qed.

(** A computation that does not end stops what waits for it. *)
Lemma unsettled_bind {A B} (m : M A) (k : A -> M B) w :
  (m w).1 = OutOfFuel -> ((m ≫= k) w).1 = OutOfFuel.
Proof.
  unfold mbind, M_bind, bind. destruct (m w) as [[a|e|] w']; simpl;
    [discriminate|discriminate|reflexivity].
Qed.

Lemma unsettled_try_catch {A} (m : M A) handler w :
  (m w).1 = OutOfFuel -> (try_catch m handler w).1 = OutOfFuel.
Proof.
  unfold try_catch. destruct (m w) as [[a|e|] w']; simpl;
    [discriminate|discriminate|reflexivity].
Qed.

Lemma unsettled_andThen block rest w w1 :
  block w = (Ok None, w1) -> (rest w1).1 = OutOfFuel ->
  ((block >>> rest) w).1 = OutOfFuel.
Proof.
  intros Hblock Hrest. unfold andThen, mbind, M_bind, bind.
  rewrite Hblock. exact Hrest.
Qed.

(** Against servers that redirect for ever the direct attempt gives up. *)
Lemma tryDirect_gives_up env :
  alwaysRedirects env ->
  forall url outputPath isVideo w,
  exists w1, tryDirect env url outputPath isVideo w = (Ok None, w1).
Proof.
  intros Hloop url outputPath isVideo w.
  destruct (downloadFileDirect_loop env defaultMaxRedirects Hloop url
              outputPath w) as (requests & Hrun & _).
  eexists. unfold tryDirect, try_catch, mbind, M_bind, bind.
  rewrite Hrun. reflexivity.
Qed.

(** Against servers that redirect for ever, [fetchResponse] is still
    asking after any number of requests. *)
Lemma fetchResponse_follows_for_ever env fuel :
  alwaysRedirects env ->
  forall url w, (fetchResponse env fuel url w).1 = OutOfFuel.
Proof.
  intros Hloop. induction fuel as [|fuel IH]; intros url w; [reflexivity|].
  destruct (Hloop (now w) url)
    as (statusCode & location & contentType & body & delivery & l &
        redirectUrl & Hget & Hl & Hurl).
  simpl. unfold mbind, M_bind, bind, httpGet. rewrite Hget, Hl, Hurl.
  apply IH.
Qed.

Lemma alwaysRedirects_redirectLoop : alwaysRedirects redirectLoop.
Proof.
  intros time url.
  exists 302%Z, (Some "/next"), None, [], Delivered, "/next", "/next".
  repeat split; reflexivity.
Qed.

(** C4, where the claim fails.  [fetchResponse] follows redirects without
    the budget that [downloadFileDirect] has.  For a Google Drive link
    whose servers answer every request with a redirect, the direct attempt
    gives up after 5 requests, and the request that [downloadGoogleDriveFile]
    makes next never comes to an end: [downloadFile] returns neither a path
    nor [null], however many requests it is given, and the task of the
    orchestrator waits with it. *)
Theorem downloadFile_never_returns_behind_redirects :
  let url := "https://drive.google.com/file/d/1AbC_d-9/view?usp=sharing" in
  let outputPath := "assets/module_0.mp4" in
  extractGoogleDriveId redirectLoop url = Some "1AbC_d-9" /\
  (forall fuel isVideo,
     (downloadFile redirectLoop fuel url outputPath isVideo emptyWorld).1
     = OutOfFuel) /\
  (forall fuel downloadImage,
     (runDownloadTask redirectLoop downloadImage fuel
        (mkTask 0 "video" url outputPath) emptyWorld).1 = OutOfFuel).
Proof.
  cbv zeta.
  assert (Hfile : forall fuel isVideo,
    (downloadFile redirectLoop fuel
       "https://drive.google.com/file/d/1AbC_d-9/view?usp=sharing"
       "assets/module_0.mp4" isVideo emptyWorld).1 = OutOfFuel).
  { intros fuel isVideo. unfold downloadFile.
    match goal with
    | |- context [if ?c then _ else _] => change c with false
    end. cbv iota.
    change (extractGoogleDriveId redirectLoop _) with (Some "1AbC_d-9").
    cbv iota. apply unsettled_try_catch, unsettled_bind.
    unfold downloadGoogleDriveFile. cbv zeta. apply unsettled_try_catch.
    destruct (tryDirect_gives_up redirectLoop alwaysRedirects_redirectLoop
                ("https://drive.google.com/uc?export=download&id=" +:+
                 "1AbC_d-9") "assets/module_0.mp4" isVideo emptyWorld)
      as [w1 Hfirst].
    apply (unsettled_andThen _ _ _ w1 Hfirst).
    apply unsettled_try_catch, unsettled_bind.
    apply fetchResponse_follows_for_ever, alwaysRedirects_redirectLoop. }
  split; [reflexivity|]. split; [exact Hfile|].
  intros fuel downloadImage. unfold runDownloadTask.
  apply unsettled_try_catch.
  change (String.eqb (taskType _) "video") with true. cbv iota.
  apply unsettled_bind. apply Hfile.
Qed.

(** The second way to the same end: a server that closes the socket in
    the middle of the body.  Nothing settles the promise of
    [downloadFileDirect], and [downloadFile] waits for it for ever, with
    the part received on disk. *)
Remark downloadFile_never_returns_on_cut_body :
  forall fuel,
  let end_ := downloadFile cutsBody fuel "https://example.com/demo.mp4"
                "assets/module_0.mp4" true emptyWorld in
  end_.1 = OutOfFuel /\
  files end_.2 !! "assets/module_0.mp4" = Some (take 4 mp4File).
Proof. intros fuel. vm_compute. split; reflexivity. Qed.


(** C3, on Google Drive.  Every endpoint answers with a short sign-in
    page and the browser opens no page: [downloadFile] returns [null], and
    the page, too short to be looked at by the validator, is still at the
    destination. *)
Lemma downloadFile_leaves_small_file :
  let url := "https://drive.google.com/file/d/1AbC_d-9/view?usp=sharing" in
  let outputPath := "assets/module_0.mp4" in
  let end_ := downloadFile servesErrorPage 1 url outputPath true emptyWorld in
  end_.1 = Ok None /\
  files end_.2 !! outputPath = Some errorPage.
Proof. vm_compute. repeat split; reflexivity. Qed.

(** ** DiagramRenderer *)

Lemma renderDiagrams_skips_blank env assetsDir i slide later assetMap :
  isMermaidSlide slide = true ->
  trim (diagramCodeOf slide) = "" ->
  renderDiagrams env assetsDir i (slide :: later) assetMap =
  renderDiagrams env assetsDir (S i) later assetMap.
Proof. intros Hm Hblank. simpl. rewrite Hm, Hblank. reflexivity. Qed.

(** The ways through [renderMermaidDiagram]. *)
Lemma renderMermaidDiagram_eval env mermaidCode outputPath w :
  let temp := replaceFirst ".png" ".mmd" outputPath in
  let written := <[temp := list_byte_of_string mermaidCode]> (files w) in
  exists command,
    renderMermaidDiagram env mermaidCode outputPath w =
    if can_write env temp then
      match exec_mmdc env (now w) mermaidCode with
      | Some image =>
          (Ok (Some outputPath),
           mkWorld (delete temp (<[outputPath := image]> written))
                   (EvExec command :: events w))
      | None =>
          match sharp_png env (S (now w)) placeholderSvg with
          | Some image =>
              (Ok (Some outputPath),
               mkWorld (<[outputPath := image]> written)
                       (EvSharp placeholderSvg :: EvExec command :: events w))
          | None =>
              (Ok None,
               mkWorld written
                       (EvSharp placeholderSvg :: EvExec command :: events w))
          end
      end
    else
      match sharp_png env (now w) placeholderSvg with
      | Some image =>
          (Ok (Some outputPath),
           mkWorld (<[outputPath := image]> (files w))
                   (EvSharp placeholderSvg :: events w))
      | None =>
          (Ok None, mkWorld (files w) (EvSharp placeholderSvg :: events w))
      end.
Proof.
  cbv zeta. eexists.
  unfold renderMermaidDiagram, try_catch, mbind, M_bind, bind, createFile,
    execMmdc, sharpToFile, unlink, writeFile, ret, throw.
  cbn beta iota zeta.
  destruct (can_write env (replaceFirst ".png" ".mmd" outputPath)).
  - cbn [files events]. rewrite lookup_insert_eq.
    rewrite string_of_list_byte_of_string.
    change (now (mkWorld _ (events w))) with (now w).
    destruct (exec_mmdc env (now w) mermaidCode) as [image|];
      cbn beta iota; cbn [files events].
    + match goal with
      | |- context [match ?m !! ?k with _ => _ end] =>
          destruct (m !! k) eqn:Hlookup
      end; [reflexivity|].
      apply lookup_insert_None in Hlookup as [Hlookup _].
      rewrite lookup_insert_eq in Hlookup. discriminate.
    + unfold now. cbn [events length].
      destruct (sharp_png env _ _); reflexivity.
  - destruct (sharp_png env _ _); reflexivity.
Qed.

(** [renderMermaidDiagram] itself has no test for a blank source: whatever
    the source, it makes an outside call. *)
Remark renderMermaidDiagram_calls_out env mermaidCode outputPath w :
  exists call later,
    events (renderMermaidDiagram env mermaidCode outputPath w).2 =
    later ++ call :: events w.
Proof.
  destruct (renderMermaidDiagram_eval env mermaidCode outputPath w)
    as [command Hrun].
  cbv zeta in Hrun. rewrite Hrun.
  destruct (can_write env _);
    [destruct (exec_mmdc env _ _); [|destruct (sharp_png env _ _)]
    |destruct (sharp_png env _ _)];
    cbn [snd events];
    first [eexists _, []; reflexivity | eexists _, [_]; reflexivity].
Qed.

(** Where the first [.png] of the path is in the name of a directory, as
    it is for a deck called [deck.png], the [.mmd] file is looked for in a
    directory that does not exist: the engine, though ready, is never run,
    and the file at the output path is the placeholder. *)
Example renderMermaidDiagram_png_in_directory_name :
  let outputPath := "deck.png_output/assets/diagram_0.png" in
  let end_ := renderMermaidDiagram engineReady "graph TD; A-->B" outputPath
                emptyWorld in
  replaceFirst ".png" ".mmd" outputPath =
    "deck.mmd_output/assets/diagram_0.png" /\
  end_.1 = Ok (Some outputPath) /\
  events end_.2 = [EvSharp placeholderSvg] /\
  files end_.2 !! "deck.mmd_output/assets/diagram_0.png" = None.
Proof. vm_compute. repeat split; reflexivity. Qed.

(** With no rendering engine, the placeholder is what [sharp] is asked
    for, and the outcome is the outcome of [sharp]. *)
Lemma renderMermaidDiagram_placeholder env mermaidCode outputPath w :
  (forall time source, exec_mmdc env time source = None) ->
  (forall image,
     (forall time, sharp_png env time placeholderSvg = Some image) ->
     exists w' later,
       renderMermaidDiagram env mermaidCode outputPath w =
         (Ok (Some outputPath), w') /\
       events w' = EvSharp placeholderSvg :: later /\
       files w' !! outputPath = Some image) /\
  ((forall time, sharp_png env time placeholderSvg = None) ->
   exists w',
     renderMermaidDiagram env mermaidCode outputPath w = (Ok None, w') /\
     (replaceFirst ".png" ".mmd" outputPath <> outputPath ->
      files w' !! outputPath = files w !! outputPath)).
Proof.
  intros Hengine.
  destruct (renderMermaidDiagram_eval env mermaidCode outputPath w)
    as [command Hrun].
  cbv zeta in Hrun. rewrite Hrun, Hengine. split.
  - intros image Hsharp. rewrite !Hsharp.
    destruct (can_write env _); eexists _, _;
      (split; [reflexivity|]); cbn [files events];
      (split; [reflexivity|apply lookup_insert_eq]).
  - intros Hsharp. rewrite !Hsharp.
    destruct (can_write env _); eexists; (split; [reflexivity|]);
      cbn [files]; intros Hne; [|reflexivity].
    apply lookup_insert_ne. exact Hne.
Qed.

Lemma truthy_nonempty s : s <> "" -> truthy s = true.
Proof. destruct s; [contradiction|reflexivity]. Qed.

(** C6.  In the diagram loop a Mermaid slide whose source is empty or
    white space is passed over: nothing is called, written or recorded,
    and the loop ends normally.  With the rendering engine unavailable,
    [renderMermaidDiagram] asks [sharp] for the placeholder, which carries
    the label "Mermaid Diagram".  When [sharp] encodes it, the output path
    is returned and the image of [sharp] is the file at the path, not empty
    when the image is not; and for a slide with a source that is not blank
    the loop ends with the placeholder at the path of the diagram and with
    that path recorded for the slide.  When [sharp] fails as well,
    [renderMermaidDiagram] returns [null] and writes no image. *)
Theorem diagram_blank_skipped_placeholder_written
    (env : Env) (assetsDir : string) (i : nat) (slide : Slide)
    (assetMap : gmap nat (string * string)) (w : World) :
  isMermaidSlide slide = true ->
  (trim (diagramCodeOf slide) = "" ->
     renderDiagrams env assetsDir i [slide] assetMap w = (Ok assetMap, w)) /\
  (forall mermaidCode outputPath image,
     (forall time source, exec_mmdc env time source = None) ->
     (forall time, sharp_png env time placeholderSvg = Some image) ->
     exists w' later,
       renderMermaidDiagram env mermaidCode outputPath w =
         (Ok (Some outputPath), w') /\
       events w' = EvSharp placeholderSvg :: later /\
       includes placeholderSvg "Mermaid Diagram" = true /\
       files w' !! outputPath = Some image /\
       (image <> [] -> exists data,
          files w' !! outputPath = Some data /\ data <> [])) /\
  (forall image,
     trim (diagramCodeOf slide) <> "" ->
     (forall time source, exec_mmdc env time source = None) ->
     (forall time, sharp_png env time placeholderSvg = Some image) ->
     exists w',
       renderDiagrams env assetsDir i [slide] assetMap w =
         (Ok (<[i := ("diagram", diagramPathOf assetsDir i)]> assetMap), w') /\
       files w' !! diagramPathOf assetsDir i = Some image) /\
  (forall mermaidCode outputPath,
     (forall time source, exec_mmdc env time source = None) ->
     (forall time, sharp_png env time placeholderSvg = None) ->
     exists w',
       renderMermaidDiagram env mermaidCode outputPath w = (Ok None, w') /\
       (replaceFirst ".png" ".mmd" outputPath <> outputPath ->
        files w' !! outputPath = files w !! outputPath)).
Proof.
  intros Hm. split; [|split; [|split]].
  - intros Hblank. rewrite renderDiagrams_skips_blank by assumption.
    reflexivity.
  - intros mermaidCode outputPath image Hengine Hsharp.
    destruct (renderMermaidDiagram_placeholder env mermaidCode outputPath w
                Hengine) as [Hdrawn _].
    destruct (Hdrawn image Hsharp) as (w' & later & Hrun & Hlog & Hfile).
    exists w', later. split; [exact Hrun|]. split; [exact Hlog|].
    split; [vm_compute; reflexivity|]. split; [exact Hfile|].
    intros Himage. exists image. split; [exact Hfile|exact Himage].
  - intros image Hcode Hengine Hsharp.
    destruct (renderMermaidDiagram_placeholder env (diagramCodeOf slide)
                (diagramPathOf assetsDir i) w Hengine) as [Hdrawn _].
    destruct (Hdrawn image Hsharp) as (w' & later & Hrun & Hlog & Hfile).
    exists w'. simpl renderDiagrams.
    rewrite Hm, (truthy_nonempty _ Hcode). cbv zeta.
    unfold mbind, M_bind, bind. rewrite Hrun.
    split; [reflexivity|exact Hfile].
  - intros mermaidCode outputPath Hengine Hsharp.
    destruct (renderMermaidDiagram_placeholder env mermaidCode outputPath w
                Hengine) as [_ Hnone].
    exact (Hnone Hsharp).
Qed.

(** C6, where the claim fails.  With the rendering engine unavailable and
    [sharp] failing as well, a source that is not blank yields no
    placeholder: [renderMermaidDiagram] returns [null], there is no file at
    the output path, and the loop records the path all the same. *)
Lemma renderMermaidDiagram_without_sharp_no_placeholder :
  let outputPath := diagramPathOf "out/assets" 3 in
  let drawn := renderMermaidDiagram offline "graph TD; A-->B" outputPath
                 emptyWorld in
  let looped := renderDiagrams offline "out/assets" 3
                  [diagramSlide "graph TD; A-->B"] ∅ emptyWorld in
  (forall time source, exec_mmdc offline time source = None) /\
  trim "graph TD; A-->B" <> "" /\
  drawn.1 = Ok None /\
  files drawn.2 !! outputPath = None /\
  looped.1 = Ok (<[3 := ("diagram", outputPath)]> ∅) /\
  files looped.2 !! outputPath = None.
Proof.
  cbv zeta. split; [reflexivity|]. split; [discriminate|].
  vm_compute. repeat split; reflexivity.
Qed.

(** ** The theorems at concrete inputs *)

Lemma validateFileType_video_witness :
  validateFileType "clip.mp4" "video" (worldWith "clip.mp4" pngFile)
    = (Ok false, worldWith "clip.mp4" pngFile) /\
  validateFileType "clip.mp4" "video" (worldWith "clip.mp4" errorPage)
    = (Ok false, worldWith "clip.mp4" errorPage) /\
  validateFileType "clip.mp4" "video" (worldWith "clip.mp4" [x00; x00; x01])
    = (Ok false, worldWith "clip.mp4" [x00; x00; x01]) /\
  validateFileType "clip.mp4" "video" (worldWith "clip.mp4" mp4File)
    = (Ok true, worldWith "clip.mp4" mp4File).
Proof.
  split; [|split; [|split]].
  - destruct (validateFileType_video (worldWith "clip.mp4" pngFile)
                "clip.mp4" pngFile eq_refl) as (Hpng & _).
    apply Hpng. reflexivity.
  - destruct (validateFileType_video (worldWith "clip.mp4" errorPage)
                "clip.mp4" errorPage eq_refl) as (_ & Hhtml & _).
    apply Hhtml. reflexivity.
  - destruct (validateFileType_video (worldWith "clip.mp4" [x00; x00; x01])
                "clip.mp4" [x00; x00; x01] eq_refl) as (_ & _ & Hshort & _).
    apply Hshort. simpl. lia.
  - destruct (validateFileType_video (worldWith "clip.mp4" mp4File)
                "clip.mp4" mp4File eq_refl) as (_ & _ & _ & Hmp4).
    apply Hmp4; [simpl; lia|discriminate|reflexivity|reflexivity].
Defined.

Lemma validateFileType_unknown_kind_witness :
  validateFileType "notes.bin" "audio" (worldWith "notes.bin" errorPage)
    = (Ok true, worldWith "notes.bin" errorPage).
Proof.
  apply (validateFileType_unknown_kind (worldWith "notes.bin" errorPage)
           "notes.bin" "audio" errorPage);
    [reflexivity|simpl; lia|discriminate|discriminate].
Defined.



Lemma aggregateSlides_filter_rule_witness :
  aggregateSlides ([titleSlide] ++ [shortPlainSlide; sectionedSlide] ++ []) =
    aggregateSlides [titleSlide] ++
    flat_map splitSlide
      (filter (fun s => isNonTrivial s = true)
              [shortPlainSlide; sectionedSlide]) ++
    aggregateSlides [].
Proof.
  apply (aggregateSlides_filter_rule [titleSlide]
           [shortPlainSlide; sectionedSlide] []).
  split; [discriminate|]. split; [|split; reflexivity].
  repeat constructor.
Defined.

Lemma diagram_blank_skipped_placeholder_written_witness :
  renderDiagrams placeholderOnly "out/assets" 3 [diagramSlide "  "] ∅
    emptyWorld = (Ok ∅, emptyWorld) /\
  (exists w' later,
     renderMermaidDiagram placeholderOnly "graph TD; A-->B"
       "out/assets/diagram_3.png" emptyWorld
       = (Ok (Some "out/assets/diagram_3.png"), w') /\
     events w' = EvSharp placeholderSvg :: later /\
     includes placeholderSvg "Mermaid Diagram" = true /\
     files w' !! "out/assets/diagram_3.png" = Some pngFile /\
     (pngFile <> [] -> exists data,
        files w' !! "out/assets/diagram_3.png" = Some data /\ data <> [])) /\
  (exists w',
     renderDiagrams placeholderOnly "out/assets" 3
       [diagramSlide "graph TD; A-->B"] ∅ emptyWorld =
       (Ok (<[3 := ("diagram", diagramPathOf "out/assets" 3)]> ∅), w') /\
     files w' !! diagramPathOf "out/assets" 3 = Some pngFile).
Proof.
  destruct (diagram_blank_skipped_placeholder_written placeholderOnly
              "out/assets" 3 (diagramSlide "  ") ∅ emptyWorld eq_refl)
    as (Hblank & Hplaceholder & _).
  destruct (diagram_blank_skipped_placeholder_written placeholderOnly
              "out/assets" 3 (diagramSlide "graph TD; A-->B") ∅ emptyWorld
              eq_refl) as (_ & _ & Hloop & _).
  split; [|split].
  - apply Hblank. reflexivity.
  - apply (Hplaceholder "graph TD; A-->B" "out/assets/diagram_3.png" pngFile);
      reflexivity.
  - apply (Hloop pngFile); [discriminate|reflexivity|reflexivity].
Defined.


(* ================================================================== *)
(** * Further properties *)
(* ================================================================== *)

(** ** FileTypeValidator *)

Lemma jpeg_check buffer :
  byteIs buffer 0 xff && byteIs buffer 1 xd8 && byteIs buffer 2 xff = true
  <-> take 3 buffer = jpegSignature.
Proof.
  rewrite !andb_true_iff, !byteIs_true.
  destruct buffer as [|c0 [|c1 [|c2 rest]]]; simpl;
    (split; [intros [[H0 H1] H2]|intros H]); try discriminate.
  - rewrite take_0. unfold jpegSignature. congruence.
  - rewrite take_0 in H. injection H as -> -> ->. auto.
Qed.

Lemma gif_check buffer :
  byteIs buffer 0 x47 && byteIs buffer 1 x49 &&
  byteIs buffer 2 x46 && byteIs buffer 3 x38 = true
  <-> take 4 buffer = gifSignature.
Proof. apply (signature_at buffer 0). Qed.

Lemma validateFileType_settles (path kind : string) (w : World) :
  exists answer, validateFileType path kind w = (Ok answer, w).
Proof.
  unfold validateFileType, try_catch, mbind, M_bind, bind, stat_size, readFile.
  destruct (files w !! path) as [buffer|] eqn:Hfile; cbn beta iota;
    [|eexists; reflexivity].
  destruct (length buffer <? 4)%nat; [eexists; reflexivity|].
  rewrite Hfile. cbn beta iota.
  repeat match goal with
         | |- context [if ?c then _ else _] => destruct c
         end; eexists; reflexivity.
Qed.

Lemma validateFileType_rejects_short (path kind : string) (w : World) :
  match files w !! path with
  | None => True
  | Some buffer => length buffer < 4
  end ->
  validateFileType path kind w = (Ok false, w).
Proof.
  unfold validateFileType, try_catch, mbind, M_bind, bind, stat_size, readFile.
  destruct (files w !! path) as [buffer|]; cbn beta iota; [|reflexivity].
  intros Hshort. apply Nat.ltb_lt in Hshort. rewrite Hshort. reflexivity.
Qed.

(** The answer depends on the file at [path] only. *)
Lemma validateFileType_files path kind w w' :
  files w' !! path = files w !! path ->
  (validateFileType path kind w').1 = (validateFileType path kind w).1.
Proof.
  intros Hf. unfold validateFileType, try_catch, mbind, M_bind, bind,
    stat_size, readFile. rewrite Hf.
  destruct (files w !! path) as [buffer|] eqn:Hw; cbn beta iota;
    [|reflexivity].
  destruct (length buffer <? 4)%nat; [reflexivity|].
  rewrite Hf, Hw. cbn beta iota.
  repeat match goal with
         | |- context [if ?c then _ else _] => destruct c
         end; reflexivity.
Qed.

(** ** What the computations leave behind *)

Section Keeps.
Context (R : World -> World -> Prop).
Context (Rrefl : forall w, R w w).
Context (Rtrans : forall w1 w2 w3, R w1 w2 -> R w2 w3 -> R w1 w3).

Lemma keeps_ret {A} (a : A) : keeps R (ret a).
Proof. intros w. apply Rrefl. Qed.

Lemma keeps_throw {A} message : keeps R (@throw A message).
Proof. intros w. apply Rrefl. Qed.

Lemma keeps_bind {A B} (m : M A) (k : A -> M B) :
  keeps R m -> (forall a, keeps R (k a)) -> keeps R (m ≫= k).
Proof.
  intros Hm Hk w. specialize (Hm w).
  unfold mbind, M_bind, bind. destruct (m w) as [[a|e|] w']; simpl in *; auto.
  eapply Rtrans; [exact Hm|apply Hk].
Qed.

Lemma keeps_try_catch {A} (m : M A) handler :
  keeps R m -> (forall e, keeps R (handler e)) -> keeps R (try_catch m handler).
Proof.
  intros Hm Hh w. specialize (Hm w).
  unfold try_catch. destruct (m w) as [[a|e|] w']; simpl in *; auto.
  eapply Rtrans; [exact Hm|apply Hh].
Qed.

Lemma keeps_try_finally {A} (m : M A) cleanup :
  keeps R m -> keeps R cleanup -> keeps R (try_finally m cleanup).
Proof.
  intros Hm Hc w. specialize (Hm w).
  unfold try_finally. destruct (m w) as [[a|e|] w']; simpl in *; auto;
    specialize (Hc w'); destruct (cleanup w') as [[[]|e'|] w'']; simpl in *;
    eapply Rtrans; eassumption.
Qed.

Lemma keeps_andThen block rest :
  keeps R block -> keeps R rest -> keeps R (block >>> rest).
Proof.
  intros Hb Hr. unfold andThen. apply keeps_bind; [exact Hb|].
  intros [p|]; [apply keeps_ret|exact Hr].
Qed.

Lemma keeps_catch_default {A} (m : M A) dflt :
  keeps R m -> keeps R (catch_default m dflt).
Proof.
  intros Hm. unfold catch_default. apply keeps_try_catch; [exact Hm|].
  intros e. apply keeps_ret.
Qed.

(** A computation that changes neither the files nor the log. *)
Lemma keeps_unchanged {A} (m : M A) :
  (forall w, (m w).2 = w) -> keeps R m.
Proof. intros Hm w. rewrite Hm. apply Rrefl. Qed.

End Keeps.

Lemma sameExcept_refl paths w : sameExcept paths w w.
Proof. intros p _. reflexivity. Qed.

Lemma sameExcept_trans paths w1 w2 w3 :
  sameExcept paths w1 w2 -> sameExcept paths w2 w3 -> sameExcept paths w1 w3.
Proof. intros H12 H23 p Hp. rewrite H23, H12 by exact Hp. reflexivity. Qed.

Lemma sameExcept_files paths w w' :
  files w' = files w -> sameExcept paths w w'.
Proof. intros Hf p _. rewrite Hf. reflexivity. Qed.

Lemma sameExcept_insert paths w w' path data :
  path ∈ paths -> files w' = <[path := data]> (files w) ->
  sameExcept paths w w'.
Proof.
  intros Hin Hf p Hp. rewrite Hf. apply lookup_insert_ne.
  intros ->. contradiction.
Qed.

Lemma sameExcept_delete paths w w' path :
  path ∈ paths -> files w' = delete path (files w) ->
  sameExcept paths w w'.
Proof.
  intros Hin Hf p Hp. rewrite Hf. apply lookup_delete_ne.
  intros ->. contradiction.
Qed.

Section KeepsFiles.
Context (paths : list string).

Lemma keeps_validateFileType path kind :
  keeps (sameExcept paths) (validateFileType path kind).
Proof.
  intros w. destruct (validateFileType_settles path kind w) as [b ->].
  apply sameExcept_refl.
Qed.

Lemma keeps_stat_size path : keeps (sameExcept paths) (stat_size path).
Proof.
  intros w. unfold stat_size. destruct (files w !! path);
    apply sameExcept_refl.
Qed.

Lemma keeps_writeFile path data :
  path ∈ paths -> keeps (sameExcept paths) (writeFile path data).
Proof. intros Hin w. eapply sameExcept_insert; [exact Hin|reflexivity]. Qed.

Lemma keeps_unlink path :
  path ∈ paths -> keeps (sameExcept paths) (unlink path).
Proof.
  intros Hin w. unfold unlink. destruct (files w !! path).
  - eapply sameExcept_delete; [exact Hin|reflexivity].
  - apply sameExcept_refl.
Qed.

Lemma keeps_browserCall name : keeps (sameExcept paths) (browserCall name).
Proof. intros w. apply sameExcept_files. reflexivity. Qed.

Lemma keeps_downloadFileDirect env outputPath n :
  outputPath ∈ paths ->
  forall url followRedirects,
  keeps (sameExcept paths)
        (downloadFileDirect env url outputPath followRedirects n).
Proof.
  intros Hin.
  induction n as [|remaining IH]; intros url follow w; simpl;
    [apply sameExcept_refl|].
  unfold mbind, M_bind, bind, httpGet.
  destruct (http_get env (now w) url)
    as [message|statusCode location contentType body delivery];
    [apply sameExcept_files; reflexivity|].
  destruct (if follow then redirectTarget statusCode location else None)
    as [l|].
  - destruct (redirectUrlOf env l url) as [redirectUrl|];
      [|apply sameExcept_files; reflexivity].
    intros p Hp.
    rewrite (IH redirectUrl true
                (mkWorld (files w) (EvHttpGet url :: events w)) p Hp).
    reflexivity.
  - destruct (negb (statusCode =? 200)%Z);
      [apply sameExcept_files; reflexivity|].
    destruct delivery; simpl;
      (eapply sameExcept_insert; [exact Hin|reflexivity]).
Qed.

Lemma fetchResponse_files env fuel :
  forall url w, files (fetchResponse env fuel url w).2 = files w.
Proof.
  induction fuel as [|fuel IH]; intros url w; simpl; [reflexivity|].
  unfold mbind, M_bind, bind, httpGet.
  destruct (http_get env (now w) url)
    as [message|statusCode location contentType body delivery];
    [reflexivity|].
  destruct (redirectTarget statusCode location) as [l|].
  - destruct (redirectUrlOf env l url) as [redirectUrl|]; [|reflexivity].
    apply (IH redirectUrl (mkWorld (files w) (EvHttpGet url :: events w))).
  - destruct (negb (statusCode =? 200)%Z); [reflexivity|].
    destruct delivery; reflexivity.
Qed.

Lemma keeps_fetchResponse env fuel url :
  keeps (sameExcept paths) (fetchResponse env fuel url).
Proof.
  intros w. apply sameExcept_files. apply fetchResponse_files.
Qed.

End KeepsFiles.

Lemma sameFiles_refl w : sameFiles w w.
Proof. reflexivity. Qed.

Lemma sameFiles_trans w1 w2 w3 :
  sameFiles w1 w2 -> sameFiles w2 w3 -> sameFiles w1 w3.
Proof. unfold sameFiles. congruence. Qed.

Lemma passes_files path kind w w' :
  files w' = files w -> passes path kind w -> passes path kind w'.
Proof.
  unfold passes. intros Hf Hp.
  rewrite (validateFileType_files path kind w w'); [exact Hp|].
  rewrite Hf. reflexivity.
Qed.

Lemma validated_files outputPath kind r w w' :
  files w' = files w ->
  validated outputPath kind r w -> validated outputPath kind r w'.
Proof.
  intros Hf. destruct r as [p|]; simpl; [|auto].
  intros [-> Hp]. split; [reflexivity|]. eapply passes_files; eassumption.
Qed.

Lemma nonEmptyFile_files outputPath r w w' :
  files w' = files w ->
  nonEmptyFile outputPath r w -> nonEmptyFile outputPath r w'.
Proof.
  intros Hf. destruct r as [p|]; simpl; [|auto]. rewrite Hf. auto.
Qed.

(** *** Triples *)

Lemma hoare_ret {A} P (a : A) Q :
  (forall w, P w -> Q a w) -> hoare P (ret a) Q.
Proof. intros HQ w HP. apply HQ. exact HP. Qed.

Lemma hoare_throw {A} P message (Q : A -> World -> Prop) :
  hoare P (throw message) Q.
Proof. intros w _. exact I. Qed.

Lemma hoare_top {A} P (m : M A) Q : hoare top m Q -> hoare P m Q.
Proof. intros Hm w _. apply Hm. exact I. Qed.

Lemma hoare_bind {A B} P (m : M A) Q1 (k : A -> M B) Q2 :
  hoare P m Q1 -> (forall a, hoare (Q1 a) (k a) Q2) ->
  hoare P (m ≫= k) Q2.
Proof.
  intros Hm Hk w HP. specialize (Hm w HP).
  unfold mbind, M_bind, bind. destruct (m w) as [[a|e|] w']; [|exact I..].
  apply Hk. exact Hm.
Qed.

Lemma hoare_seq {A B} P (m : M A) (k : A -> M B) Q :
  (forall a, hoare top (k a) Q) -> hoare P (m ≫= k) Q.
Proof.
  intros Hk. apply (hoare_bind P m (fun _ _ => True)); [|exact Hk].
  intros w _. destruct (m w) as [[a|e|] w']; exact I.
Qed.

Lemma hoare_try_catch {A} P (m : M A) handler Q :
  hoare P m Q -> (forall e, hoare top (handler e) Q) ->
  hoare P (try_catch m handler) Q.
Proof.
  intros Hm Hh w HP. specialize (Hm w HP). unfold try_catch.
  destruct (m w) as [[a|e|] w']; [exact Hm| |exact I].
  apply Hh. exact I.
Qed.

Lemma hoare_try_finally {A} P (m : M A) cleanup (Q : A -> World -> Prop) :
  hoare P m Q -> keeps sameFiles cleanup ->
  (forall a w w', files w' = files w -> Q a w -> Q a w') ->
  hoare P (try_finally m cleanup) Q.
Proof.
  intros Hm Hc Hstable w HP. specialize (Hm w HP). unfold try_finally.
  destruct (m w) as [[a|e|] w']; [| |exact I];
    specialize (Hc w'); destruct (cleanup w') as [[[]|e'|] w''];
    simpl in *; try exact I.
  eapply Hstable; eassumption.
Qed.

Lemma hoare_andThen P block rest Q :
  hoare P block Q -> hoare top rest Q -> hoare P (block >>> rest) Q.
Proof.
  intros Hb Hr. unfold andThen. apply (hoare_bind P block Q); [exact Hb|].
  intros [p|].
  - apply hoare_ret. auto.
  - apply hoare_top. exact Hr.
Qed.

Lemma hoare_catch_default {A} P (m : M A) dflt (Q : A -> World -> Prop) :
  hoare P m Q -> (forall w, Q dflt w) -> hoare P (catch_default m dflt) Q.
Proof.
  intros Hm Hd. unfold catch_default. apply hoare_try_catch; [exact Hm|].
  intros e. apply hoare_ret. auto.
Qed.

(** What is known after a check, a [stat] and a write. *)
Lemma hoare_validate {B} P path kind (k : bool -> M B) Q :
  hoare (passes path kind) (k true) Q -> hoare top (k false) Q ->
  hoare P (validateFileType path kind ≫= k) Q.
Proof.
  intros Ht Hf w _. unfold mbind, M_bind, bind.
  destruct (validateFileType_settles path kind w) as [answer Hv].
  rewrite Hv. destruct answer.
  - apply Ht. unfold passes. rewrite Hv. reflexivity.
  - apply Hf. exact I.
Qed.

Lemma hoare_stat_size {B} P path (k : nat -> M B) Q :
  (forall data, hoare (holds path data) (k (length data)) Q) ->
  hoare P (stat_size path ≫= k) Q.
Proof.
  intros Hk w _. unfold mbind, M_bind, bind, stat_size.
  destruct (files w !! path) as [data|] eqn:Hfile; [|exact I].
  apply Hk. exact Hfile.
Qed.

Lemma hoare_writeFile {B} P path data (k : unit -> M B) Q :
  hoare (holds path data) (k tt) Q ->
  hoare P (writeFile path data ≫= k) Q.
Proof.
  intros Hk w _. unfold mbind, M_bind, bind, writeFile.
  apply Hk. unfold holds. simpl. apply lookup_insert_eq.
Qed.

(** *** The files a computation touches *)

Create HintDb frame.
#[export] Hint Resolve keeps_validateFileType keeps_stat_size
  keeps_browserCall keeps_fetchResponse : frame.
#[export] Hint Extern 1 (keeps _ (writeFile _ _)) =>
  apply keeps_writeFile; constructor : frame.
#[export] Hint Extern 1 (keeps _ (unlink _)) =>
  apply keeps_unlink; constructor : frame.
#[export] Hint Extern 1 (keeps _ (downloadFileDirect _ _ _ _ _)) =>
  apply keeps_downloadFileDirect; constructor : frame.

Ltac frame_tac :=
  repeat (first
    [ assumption
    | exact sameFiles_refl
    | exact sameFiles_trans
    | exact (sameExcept_refl _)
    | exact (sameExcept_trans _)
    | solve [eauto with frame]
    | apply keeps_ret
    | apply keeps_throw
    | apply keeps_andThen
    | apply keeps_catch_default
    | apply keeps_try_catch
    | apply keeps_try_finally
    | apply keeps_bind
    | match goal with
      | |- forall _, keeps _ _ => intros ?
      | |- keeps _ (if ?c then _ else _) => destruct c
      | |- keeps _ (match ?x with _ => _ end) => destruct x
      end ]).

Section FetcherFrame.
Context (env : Env) (fuel : nat) (outputPath : string).

Lemma frame_acceptOrDelete isVideo :
  keeps (sameExcept [outputPath]) (acceptOrDelete outputPath isVideo).
Proof. unfold acceptOrDelete. frame_tac. Qed.

Lemma frame_tryDirect url isVideo :
  keeps (sameExcept [outputPath]) (tryDirect env url outputPath isVideo).
Proof. pose proof frame_acceptOrDelete. unfold tryDirect. frame_tac. Qed.

Lemma frame_downloadGoogleDriveFile fileId isVideo :
  keeps (sameExcept [outputPath]) (downloadGoogleDriveFile env fuel fileId outputPath isVideo).
Proof.
  pose proof frame_acceptOrDelete. pose proof frame_tryDirect.
  unfold downloadGoogleDriveFile. cbv zeta. frame_tac.
Qed.

Lemma frame_newPage : keeps (sameExcept [outputPath]) (newPage env).
Proof. unfold newPage. frame_tac. Qed.

Lemma frame_closePage : keeps (sameExcept [outputPath]) (closePage env).
Proof. unfold closePage. frame_tac. Qed.

Lemma frame_waitForTimeout :
  keeps (sameExcept [outputPath]) (waitForTimeout env).
Proof. unfold waitForTimeout. frame_tac. Qed.

Lemma frame_awaitDownload :
  keeps (sameExcept [outputPath]) (awaitDownload env).
Proof. unfold awaitDownload. frame_tac. Qed.

Lemma frame_navigate url : keeps (sameExcept [outputPath]) (navigate env url).
Proof. unfold navigate. frame_tac. Qed.

Lemma frame_goto url : keeps (sameExcept [outputPath]) (goto env url).
Proof. unfold goto. frame_tac. Qed.

Lemma frame_query selector :
  keeps (sameExcept [outputPath]) (query env selector).
Proof. unfold query. frame_tac. Qed.

Lemma frame_click : keeps (sameExcept [outputPath]) (click env).
Proof. unfold click. frame_tac. Qed.

Lemma frame_saveAs download :
  keeps (sameExcept [outputPath]) (saveAs download outputPath).
Proof. unfold saveAs. frame_tac. Qed.

Lemma frame_pageUrl : keeps (sameExcept [outputPath]) (pageUrl env).
Proof. intros w. apply sameExcept_refl. Qed.

Lemma frame_clock : keeps (sameExcept [outputPath]) clock.
Proof. intros w. apply sameExcept_refl. Qed.

Lemma frame_clickAndWait : keeps (sameExcept [outputPath]) (clickAndWait env).
Proof.
  pose proof frame_click. pose proof frame_waitForTimeout.
  pose proof frame_awaitDownload. unfold clickAndWait. frame_tac.
Qed.

Lemma frame_trySelectors candidates :
  keeps (sameExcept [outputPath]) (trySelectors env candidates).
Proof.
  pose proof frame_clickAndWait. pose proof frame_query.
  induction candidates as [|selector later IH]; simpl; frame_tac.
Qed.

Lemma frame_confirmationPage url isVideo :
  keeps (sameExcept [outputPath])
        (confirmationPage env url outputPath isVideo).
Proof.
  pose proof frame_acceptOrDelete. pose proof frame_goto.
  pose proof frame_query. pose proof frame_clickAndWait.
  pose proof frame_trySelectors.
  unfold confirmationPage. frame_tac.
Qed.

Lemma frame_driveInBrowser fileId isVideo :
  keeps (sameExcept [outputPath])
        (driveInBrowser env fileId outputPath isVideo).
Proof.
  pose proof frame_acceptOrDelete. pose proof frame_newPage.
  pose proof frame_closePage. pose proof frame_navigate.
  pose proof frame_waitForTimeout. pose proof frame_awaitDownload.
  pose proof frame_pageUrl. pose proof frame_saveAs.
  pose proof frame_confirmationPage.
  unfold driveInBrowser. cbv zeta. frame_tac.
Qed.

Lemma frame_regularUrl url isVideo :
  keeps (sameExcept [outputPath]) (regularUrl env url outputPath isVideo).
Proof.
  pose proof frame_newPage. pose proof frame_closePage.
  pose proof frame_goto.
  unfold regularUrl. frame_tac.
Qed.

Lemma frame_downloadFile url isVideo :
  keeps (sameExcept [outputPath])
        (downloadFile env fuel url outputPath isVideo).
Proof.
  pose proof frame_downloadGoogleDriveFile. pose proof frame_driveInBrowser.
  pose proof frame_regularUrl.
  unfold downloadFile. frame_tac.
Qed.

Section ImageFrame.
Context (content_type : nat -> string).

Lemma frame_tryImageDirect url followRedirects :
  keeps (sameExcept [outputPath])
        (tryImageDirect env url outputPath followRedirects).
Proof. unfold tryImageDirect. frame_tac. Qed.

Lemma frame_imageConfirmationPage :
  keeps (sameExcept [outputPath]) (imageConfirmationPage env).
Proof.
  pose proof frame_query. pose proof frame_clickAndWait.
  pose proof frame_trySelectors.
  unfold imageConfirmationPage. frame_tac.
Qed.

Lemma frame_imageInBrowser fileId :
  keeps (sameExcept [outputPath])
        (imageInBrowser env content_type fileId outputPath).
Proof.
  pose proof frame_newPage. pose proof frame_closePage.
  pose proof frame_navigate. pose proof frame_waitForTimeout.
  pose proof frame_awaitDownload. pose proof frame_pageUrl.
  pose proof frame_saveAs. pose proof frame_goto. pose proof frame_clock.
  pose proof frame_imageConfirmationPage.
  unfold imageInBrowser. cbv zeta. frame_tac.
Qed.

Lemma frame_imageRegularUrl url :
  keeps (sameExcept [outputPath]) (imageRegularUrl env url outputPath).
Proof.
  pose proof frame_newPage. pose proof frame_closePage.
  pose proof frame_goto.
  unfold imageRegularUrl. frame_tac.
Qed.

Lemma frame_downloadImage url :
  keeps (sameExcept [outputPath])
        (downloadImage env content_type url outputPath).
Proof.
  pose proof frame_tryImageDirect. pose proof frame_imageInBrowser.
  pose proof frame_imageRegularUrl.
  unfold downloadImage. cbv zeta. frame_tac.
Qed.

End ImageFrame.

End FetcherFrame.

(** *** What a returned path stands for *)

Ltac hoare_tac :=
  repeat (first
    [ match goal with
      | H : _ |- _ => apply H
      end
    | apply hoare_throw
    | apply hoare_ret; solve [intros ? ?; simpl; auto]
    | apply hoare_andThen
    | apply hoare_try_catch; [|intros ?]
    | apply hoare_validate
    | match goal with
      | |- hoare _ (mbind (A:=?A) _ _) _ =>
          lazymatch A with
          | option string => fail
          | Flow => fail
          | _ => apply hoare_seq; intros ?
          end
      | |- hoare _ (if ?c then _ else _) _ => destruct c
      | |- hoare _ (match ?x with _ => _ end) _ => destruct x
      end ]).

Lemma same_closePage env : keeps sameFiles (closePage env).
Proof.
  unfold closePage. apply keeps_bind; [exact sameFiles_trans| |].
  - intros w. reflexivity.
  - intros t. destruct (page_close env t);
      [apply keeps_ret|apply keeps_throw]; exact sameFiles_refl.
Qed.

Section FetcherValidated.
Context (env : Env) (fuel : nat) (outputPath : string) (isVideo : bool).

Lemma hoare_acceptOrDelete P :
  hoare P (acceptOrDelete outputPath isVideo)
        (validated outputPath (kindOf isVideo)).
Proof. unfold acceptOrDelete. hoare_tac. Qed.

Lemma hoare_tryDirect P url :
  hoare P (tryDirect env url outputPath isVideo)
        (validated outputPath (kindOf isVideo)).
Proof. pose proof hoare_acceptOrDelete. unfold tryDirect. hoare_tac. Qed.

Lemma hoare_downloadGoogleDriveFile P fileId :
  hoare P (downloadGoogleDriveFile env fuel fileId outputPath isVideo)
        (validated outputPath (kindOf isVideo)).
Proof.
  pose proof hoare_acceptOrDelete. pose proof hoare_tryDirect.
  unfold downloadGoogleDriveFile. cbv zeta. hoare_tac.
Qed.

Lemma hoare_confirmationPage P url :
  hoare P (confirmationPage env url outputPath isVideo)
        (fun flow w =>
           match flow with
           | Return p => validated outputPath (kindOf isVideo) (Some p) w
           | Next _ => True
           end).
Proof.
  pose proof hoare_acceptOrDelete.
  unfold confirmationPage.
  apply hoare_try_catch; [|intros e; apply hoare_ret; intros; exact I].
  apply (hoare_bind _ _ (validated outputPath (kindOf isVideo))).
  - hoare_tac.
  - intros [p|].
    + apply hoare_ret. auto.
    + apply hoare_seq. intros [d|]; hoare_tac.
Qed.

Lemma hoare_driveInBrowser P fileId :
  hoare P (driveInBrowser env fileId outputPath isVideo)
        (validated outputPath (kindOf isVideo)).
Proof.
  pose proof hoare_acceptOrDelete. pose proof hoare_confirmationPage.
  unfold driveInBrowser. cbv zeta.
  apply hoare_seq. intros _.
  apply hoare_try_finally;
    [|apply same_closePage|intros *; apply validated_files].
  do 5 (apply hoare_seq; intros ?).
  eapply hoare_bind.
  - instantiate (1 := fun flow w =>
           match flow with
           | Return p => validated outputPath (kindOf isVideo) (Some p) w
           | Next _ => True
           end).
    hoare_tac.
  - intros [p|[d|]]; hoare_tac.
Qed.

Lemma hoare_regularUrl P url :
  hoare P (regularUrl env url outputPath isVideo)
        (validated outputPath (kindOf isVideo)).
Proof.
  unfold regularUrl. apply hoare_try_catch.
  - hoare_tac.
  - intros e. apply hoare_seq. intros _.
    apply hoare_try_finally;
      [|apply same_closePage|intros *; apply validated_files].
    hoare_tac.
Qed.

End FetcherValidated.

Lemma hoare_downloadVideo env fuel url outputPath :
  hoare top (downloadVideo env fuel url outputPath)
        (validated outputPath "video").
Proof.
  pose proof (hoare_downloadGoogleDriveFile env fuel outputPath true).
  pose proof (hoare_driveInBrowser env outputPath true).
  pose proof (hoare_regularUrl env outputPath true).
  unfold downloadVideo, downloadFile. cbn [negb]. hoare_tac.
Qed.

Ltac file_post :=
  intros ? ?; simpl; auto;
  match goal with
  | Hw : holds _ ?data _ |- _ =>
      split; [reflexivity|]; exists data; split; [exact Hw|];
      intros ->; simpl in *; discriminate
  end.

Ltac file_tac :=
  repeat (first
    [ match goal with
      | H : _ |- _ => apply H
      end
    | apply hoare_throw
    | apply hoare_ret; solve [file_post]
    | apply hoare_andThen
    | apply hoare_try_catch; [|intros ?]
    | apply hoare_stat_size; intros ?
    | apply hoare_writeFile
    | match goal with
      | |- hoare _ (mbind (A:=?A) _ _) _ =>
          lazymatch A with
          | option string => fail
          | option Download => fail
          | option nat => fail
          | _ => apply hoare_seq; intros ?
          end
      | |- hoare _ (if ?c then _ else _) _ => destruct c eqn:?
      | |- hoare _ (match ?x with _ => _ end) _ => destruct x
      end ]).

Section ImageFile.
Context (env : Env) (content_type : nat -> string) (outputPath : string).

Lemma hoare_tryImageDirect P url followRedirects :
  hoare P (tryImageDirect env url outputPath followRedirects)
        (nonEmptyFile outputPath).
Proof. unfold tryImageDirect. file_tac. Qed.

Lemma hoare_imageInBrowser P fileId :
  hoare P (imageInBrowser env content_type fileId outputPath)
        (nonEmptyFile outputPath).
Proof.
  unfold imageInBrowser. cbv zeta.
  apply hoare_seq. intros _.
  apply hoare_try_finally;
    [|apply same_closePage|intros *; apply nonEmptyFile_files].
  do 4 (apply hoare_seq; intros ?).
  apply hoare_andThen.
  - destruct a2 as [d|]; [|file_tac].
    apply hoare_seq. intros _.
    eapply hoare_bind.
    + instantiate (1 := fun stats w =>
        match stats with
        | Some size => exists data, holds outputPath data w /\
                                    size = length data
        | None => True
        end).
      apply hoare_try_catch; [|intros e; apply hoare_ret; intros; exact I].
      apply hoare_stat_size. intros data. apply hoare_ret. eauto.
    + intros [size|]; [|file_tac].
      destruct (0 <? size)%nat eqn:Hsize; [|file_tac].
      apply hoare_ret. intros w (data & Hw & ->).
      split; [reflexivity|]. exists data. split; [exact Hw|].
      intros ->. discriminate.
  - file_tac.
Qed.

Lemma hoare_imageRegularUrl P url :
  hoare P (imageRegularUrl env url outputPath) (nonEmptyFile outputPath).
Proof.
  unfold imageRegularUrl. apply hoare_try_catch.
  - file_tac.
  - intros e. apply hoare_seq. intros _.
    apply hoare_try_finally;
      [|apply same_closePage|intros *; apply nonEmptyFile_files].
    file_tac.
Qed.

Lemma hoare_downloadImage url :
  hoare top (downloadImage env content_type url outputPath)
        (nonEmptyFile outputPath).
Proof.
  pose proof hoare_tryImageDirect. pose proof hoare_imageInBrowser.
  pose proof hoare_imageRegularUrl.
  unfold downloadImage. cbv zeta. file_tac.
Qed.

End ImageFile.

Section ImageEnds.
Context (H : Prop) (env : Env) (content_type : nat -> string).
Context (Hdirect : forall url outputPath followRedirects n,
           ends True H anything
                (downloadFileDirect env url outputPath followRedirects n)).

Lemma ends_clock : ends True H anything clock.
Proof. intros w. exact I. Qed.

Lemma ends_tryImageDirect url outputPath followRedirects :
  ends True H (pathOrNull outputPath)
       (tryImageDirect env url outputPath followRedirects).
Proof. unfold tryImageDirect. ends_tac. Qed.

Lemma ends_imageConfirmationPage :
  ends True H anything (imageConfirmationPage env).
Proof.
  pose proof (ends_query H env). pose proof (ends_clickAndWait H env).
  pose proof (ends_trySelectors H env).
  unfold imageConfirmationPage. ends_tac.
Qed.

Lemma ends_imageInBrowser fileId outputPath :
  ends True H (pathOrNull outputPath)
       (imageInBrowser env content_type fileId outputPath).
Proof.
  pose proof (ends_newPage H env). pose proof (ends_closePage H env).
  pose proof (ends_navigate H env).
  pose proof (ends_waitForTimeout H env).
  pose proof (ends_awaitDownload H env).
  pose proof (ends_pageUrl H env). pose proof (ends_saveAs H).
  pose proof (ends_goto H env). pose proof ends_clock.
  pose proof ends_imageConfirmationPage.
  unfold imageInBrowser. cbv zeta. ends_tac.
  apply (ends_bind _ _ anything).
  - destruct a2; ends_tac.
  - intros download _. ends_tac.
    apply (ends_bind _ _ anything); [ends_tac|intros stats _; ends_tac].
Qed.

Lemma ends_imageRegularUrl url outputPath :
  ends True H (pathOrNull outputPath)
       (imageRegularUrl env url outputPath).
Proof.
  pose proof (ends_newPage H env). pose proof (ends_closePage H env).
  pose proof (ends_goto H env).
  unfold imageRegularUrl. ends_tac.
Qed.

Lemma ends_downloadImage url outputPath :
  ends False H (pathOrNull outputPath)
       (downloadImage env content_type url outputPath).
Proof.
  pose proof ends_tryImageDirect. pose proof ends_imageInBrowser.
  pose proof ends_imageRegularUrl.
  unfold downloadImage. destruct (_ || _).
  - apply ends_ret. left. reflexivity.
  - apply (ends_try_catch _ _ True).
    + destruct (extractGoogleDriveId env url); cbv zeta; ends_tac.
    + intros e. apply ends_ret. left. reflexivity.
Qed.

End ImageEnds.

(** ** Strings and tokens *)

Lemma startsWith_cons c s pat :
  startsWith (String c s) (String c pat) = startsWith s pat.
Proof.
  unfold startsWith. simpl. destruct (ascii_dec c c); [reflexivity|].
  contradiction.
Qed.

Lemma startsWith_empty s : startsWith s "" = true.
Proof. destruct s; reflexivity. Qed.

Lemma append_cons c s t : String c s +:+ t = String c (s +:+ t).
Proof. reflexivity. Qed.

Lemma append_nil t : "" +:+ t = t.
Proof. reflexivity. Qed.

Lemma takeIdChars_app id rest :
  allIdChars id = true -> startsWithIdChar rest = false ->
  takeIdChars (id +:+ rest) = id.
Proof.
  intros Hid Hrest. induction id as [|c id IH]; simpl in *.
  - destruct rest as [|c rest]; simpl in *; [reflexivity|].
    rewrite Hrest. reflexivity.
  - apply andb_true_iff in Hid as [Hc Hid]. rewrite Hc, IH by exact Hid.
    reflexivity.
Qed.

Lemma matchToken_eq prefix s :
  matchToken prefix s =
  let here := takeIdChars (dropChars (String.length prefix) s) in
  if startsWith s prefix && truthy here then Some here
  else match s with
       | String _ s' => matchToken prefix s'
       | EmptyString => None
       end.
Proof. destruct s; reflexivity. Qed.

Lemma matchToken_skip prefix c s :
  startsWith (String c s) prefix = false ->
  matchToken prefix (String c s) = matchToken prefix s.
Proof. intros Hs. rewrite matchToken_eq. cbv zeta. rewrite Hs. reflexivity. Qed.

Lemma matchToken_here prefix s :
  startsWith s prefix = true ->
  truthy (takeIdChars (dropChars (String.length prefix) s)) = true ->
  matchToken prefix s =
    Some (takeIdChars (dropChars (String.length prefix) s)).
Proof.
  intros Hs Ht. rewrite matchToken_eq. cbv zeta. rewrite Hs, Ht. reflexivity.
Qed.

Lemma matchToken_truthy prefix s id :
  matchToken prefix s = Some id -> truthy id = true.
Proof.
  induction s as [|c s IH]; rewrite matchToken_eq; cbv zeta.
  - destruct (startsWith "" prefix && _) eqn:Hhere; [|discriminate].
    intros [= <-]. apply andb_true_iff in Hhere. tauto.
  - destruct (startsWith (String c s) prefix && _) eqn:Hhere; [|exact IH].
    intros [= <-]. apply andb_true_iff in Hhere. tauto.
Qed.

(** ** What the aggregator makes *)

Lemma sectionTitle_SR rest :
  startsWith (baseTitle +:+ ": " +:+ rest) "System Requirements:" = true.
Proof.
  unfold baseTitle. rewrite !append_cons, !append_nil.
  rewrite !startsWith_cons. apply startsWith_empty.
Qed.

Lemma isSystemRequirements_derive s title_ content_ group_ :
  isSystemRequirements s = true ->
  startsWith title_ "System Requirements:" = true ->
  isSystemRequirements (derive s title_ content_ group_) = true.
Proof.
  unfold isSystemRequirements, derive. simpl.
  intros Hs Ht. apply andb_true_iff in Hs as [-> _]. rewrite Ht.
  destruct title_; [discriminate Ht|reflexivity].
Qed.

Lemma isSystemRequirements_retitle s title_ group_ :
  isSystemRequirements s = true ->
  startsWith title_ "System Requirements:" = true \/
  title_ = "System Requirements" ->
  isSystemRequirements (retitle s title_ group_) = true.
Proof.
  unfold isSystemRequirements, retitle. simpl.
  intros Hs Ht. apply andb_true_iff in Hs as [-> _].
  destruct Ht as [Ht| ->]; [|reflexivity].
  rewrite Ht. destruct title_; [discriminate Ht|reflexivity].
Qed.

Lemma splitBySections_SR s content boundaries :
  isSystemRequirements s = true ->
  Forall (fun d => isSystemRequirements d = true)
         (splitBySections s content boundaries).
Proof.
  intros Hs. induction boundaries as [|[i name] later IH]; simpl;
    constructor; [|exact IH].
  apply isSystemRequirements_derive; [exact Hs|apply sectionTitle_SR].
Qed.

Lemma splitSlide_SR s :
  isSystemRequirements s = true ->
  Forall (fun d => isSystemRequirements d = true) (splitSlide s).
Proof.
  intros Hs. unfold splitSlide. cbv zeta.
  destruct (_ && _).
  - apply splitBySections_SR. exact Hs.
  - destruct (_ && _) eqn:Hhalf.
    + apply andb_true_iff in Hhalf as [_ Hone].
      destruct (findSectionBoundaries 0 (contentOf s)) as [|[i name] later]
        eqn:Hb; [discriminate|].
      assert (Hname : truthy name = true).
      { apply (sectionName_truthy 0 (contentOf s) i). rewrite Hb. left. }
      rewrite Hname.
      repeat constructor; apply isSystemRequirements_derive;
        auto using sectionTitle_SR.
    + repeat constructor. apply isSystemRequirements_retitle; [exact Hs|].
      destruct (truthy _); [left; apply sectionTitle_SR|right; reflexivity].
Qed.

Lemma aggregateRun_SR run :
  Forall (fun s => isSystemRequirements s = true) run ->
  Forall (fun d => isSystemRequirements d = true) (aggregateRun run).
Proof.
  intros Hrun. rewrite aggregateRun_filter.
  induction Hrun as [|s run Hs Hrun IH]; [constructor|].
  rewrite filter_cons. destruct (decide (isNonTrivial s = true)); [|exact IH].
  simpl. apply Forall_app. split; [apply splitSlide_SR; exact Hs|exact IH].
Qed.

Lemma filter_others_SR (l : list Slide) :
  Forall (fun s => isSystemRequirements s = true) l ->
  filter (fun s => isSystemRequirements s = false) l = [].
Proof.
  induction 1 as [|s l Hs Hl IH]; [reflexivity|].
  rewrite filter_cons. destruct (decide _) as [Hf|_]; [congruence|exact IH].
Qed.

Lemma splitBySections_content s before rest :
  flat_map contentOf
    (splitBySections s (before ++ rest)
       (findSectionBoundaries (length before) rest)) =
  match findSectionBoundaries (length before) rest with
  | [] => []
  | (i, _) :: _ => drop i (before ++ rest)
  end.
Proof.
  revert before. induction rest as [|item rest IH]; intros before;
    [reflexivity|].
  specialize (IH (before ++ [item])).
  rewrite <- app_assoc, length_app, Nat.add_1_r in IH. simpl app in IH.
  simpl findSectionBoundaries.
  destruct (isSectionHeader item); [|exact IH].
  simpl splitBySections. simpl flat_map. rewrite IH, contentOf_derive.
  pose proof (findSectionBoundaries_elem (S (length before)) rest) as Hel.
  destruct (findSectionBoundaries (S (length before)) rest)
    as [|[i name] later].
  - rewrite app_nil_r. apply slice_to_end. lia.
  - destruct (Hel i name) as [Hi _]; [left|].
    unfold slice.
    replace i with (length before + (i - length before)) at 2 by lia.
    rewrite <- drop_drop. apply take_drop.
Qed.

Lemma splitSlide_content s :
  flat_map contentOf (splitSlide s) =
  drop (blocksBeforeFirstSection s) (contentOf s).
Proof.
  unfold splitSlide, blocksBeforeFirstSection. cbv zeta.
  pose proof (splitBySections_content s [] (contentOf s)) as Hsplit.
  simpl in Hsplit.
  destruct (findSectionBoundaries 0 (contentOf s)) as [|[i name] [|b later]];
    cbn [length].
  - change (1 <? 0)%nat with false. change (0 =? 1)%nat with false.
    rewrite andb_false_r. cbn [andb]. simpl. apply app_nil_r.
  - change (1 <? 1)%nat with false. change (1 =? 1)%nat with true.
    rewrite andb_true_r. cbn [andb].
    destruct (MAX_ITEMS_PER_SLIDE <? length (contentOf s))%nat.
    + cbn [flat_map]. rewrite !contentOf_derive, app_nil_r.
      unfold slice. rewrite drop_0, Nat.sub_0_r. apply take_drop.
    + simpl. apply app_nil_r.
  - change (1 <? S (S (length later)))%nat with true.
    destruct (MAX_ITEMS_PER_SLIDE <? length (contentOf s))%nat; cbn [andb].
    + exact Hsplit.
    + simpl. apply app_nil_r.
Qed.

Lemma aggregateRun_content run :
  Forall (fun s => isSystemRequirements s = true) run ->
  flat_map contentOf (aggregateRun run) = flat_map keptContent run.
Proof.
  intros Hrun. rewrite aggregateRun_filter.
  induction Hrun as [|s run Hs Hrun IH]; [reflexivity|].
  rewrite filter_cons. cbn [flat_map]. unfold keptContent at 1. rewrite Hs.
  destruct (decide (isNonTrivial s = true)) as [Hn|Hn].
  - rewrite Hn. cbn [flat_map]. rewrite flat_map_app, splitSlide_content, IH.
    reflexivity.
  - apply not_true_is_false in Hn. rewrite Hn. exact IH.
Qed.

Lemma splitBySections_fields s content boundaries d :
  d ∈ splitBySections s content boundaries ->
  type d = type s /\ diagram d = diagram s /\ others d = others s.
Proof.
  induction boundaries as [|[i name] later IH]; simpl.
  - intros Hin. inversion Hin.
  - intros Hin. apply elem_of_cons in Hin as [->|Hin]; auto.
Qed.

Lemma splitSlide_fields s d :
  d ∈ splitSlide s ->
  type d = type s /\ diagram d = diagram s /\ others d = others s.
Proof.
  unfold splitSlide. cbv zeta. destruct (_ && _).
  - apply splitBySections_fields.
  - destruct (_ && _); intros Hin;
      repeat (apply elem_of_cons in Hin as [->|Hin]; [auto|]);
      inversion Hin.
Qed.

(** ** Escaping *)

Lemma replaceAll_cons c by_ x s :
  replaceAll c by_ (String x s) =
  (if Ascii.eqb x c then by_ else String x EmptyString)
  +:+ replaceAll c by_ s.
Proof. simpl. destruct (Ascii.eqb x c); reflexivity. Qed.

Lemma append_assoc a b c : (a +:+ b) +:+ c = a +:+ (b +:+ c).
Proof.
  induction a as [|x a IH]; [reflexivity|].
  rewrite !append_cons, IH. reflexivity.
Qed.

Lemma replaceAll_app c by_ a b :
  replaceAll c by_ (a +:+ b) = replaceAll c by_ a +:+ replaceAll c by_ b.
Proof.
  induction a as [|x a IH]; [reflexivity|].
  rewrite append_cons, !replaceAll_cons, IH.
  destruct (Ascii.eqb x c); [|reflexivity].
  rewrite append_assoc. reflexivity.
Qed.

Lemma escapeHtml_one_pass text : escapeHtml text = escapeEach text.
Proof.
  unfold escapeHtml. destruct text as [|c0 text0]; [reflexivity|].
  cbn [truthy negb]. generalize (String c0 text0). clear c0 text0.
  intros text. induction text as [|x text IH]; [reflexivity|].
  cbn [escapeEach]. rewrite <- IH. unfold escapeChar.
  rewrite (replaceAll_cons "&").
  destruct (Ascii.eqb_spec x "&") as [->|Hamp].
  { rewrite !replaceAll_app. reflexivity. }
  rewrite !append_cons, !append_nil, (replaceAll_cons "<").
  destruct (Ascii.eqb_spec x "<") as [->|Hlt].
  { rewrite !replaceAll_app. reflexivity. }
  rewrite !append_cons, !append_nil, (replaceAll_cons ">").
  destruct (Ascii.eqb_spec x ">") as [->|Hgt].
  { rewrite !replaceAll_app. reflexivity. }
  rewrite !append_cons, !append_nil, (replaceAll_cons "034").
  destruct (Ascii.eqb_spec x "034") as [->|Hquot].
  { rewrite !replaceAll_app. reflexivity. }
  rewrite !append_cons, !append_nil, (replaceAll_cons "'").
  destruct (Ascii.eqb_spec x "'") as [->|Hapos]; reflexivity.
Qed.

Lemma hasChar_app c a b : hasChar c (a +:+ b) = hasChar c a || hasChar c b.
Proof.
  induction a as [|x a IH]; [reflexivity|].
  rewrite append_cons. simpl. rewrite IH. apply orb_assoc.
Qed.

Lemma escapeChar_safe c x :
  c = "<"%char \/ c = ">"%char \/ c = "034"%char \/ c = "'"%char ->
  hasChar c (escapeChar x) = false.
Proof.
  intros Hc. unfold escapeChar.
  destruct (Ascii.eqb_spec x "&") as [->|Hamp];
    [destruct Hc as [->|[->|[->| ->]]]; reflexivity|].
  destruct (Ascii.eqb_spec x "<") as [->|Hlt];
    [destruct Hc as [->|[->|[->| ->]]]; reflexivity|].
  destruct (Ascii.eqb_spec x ">") as [->|Hgt];
    [destruct Hc as [->|[->|[->| ->]]]; reflexivity|].
  destruct (Ascii.eqb_spec x "034") as [->|Hquot];
    [destruct Hc as [->|[->|[->| ->]]]; reflexivity|].
  destruct (Ascii.eqb_spec x "'") as [->|Hapos];
    [destruct Hc as [->|[->|[->| ->]]]; reflexivity|].
  simpl. rewrite orb_false_r. apply Ascii.eqb_neq.
  destruct Hc as [->|[->|[->| ->]]]; assumption.
Qed.

Lemma escapeEach_injective a :
  forall b, escapeEach a = escapeEach b -> a = b.
Proof.
  induction a as [|x a IH]; intros [|y b]; cbn [escapeEach].
  - reflexivity.
  - unfold escapeChar.
    repeat (destruct (Ascii.eqb y _); [discriminate|]). discriminate.
  - unfold escapeChar.
    repeat (destruct (Ascii.eqb x _); [discriminate|]). discriminate.
  - unfold escapeChar.
    destruct (Ascii.eqb_spec x "&") as [->|Hxa];
    [|destruct (Ascii.eqb_spec x "<") as [->|Hxl];
    [|destruct (Ascii.eqb_spec x ">") as [->|Hxg];
    [|destruct (Ascii.eqb_spec x "034") as [->|Hxq];
    [|destruct (Ascii.eqb_spec x "'") as [->|Hxp]]]]];
    (destruct (Ascii.eqb_spec y "&") as [->|Hya];
    [|destruct (Ascii.eqb_spec y "<") as [->|Hyl];
    [|destruct (Ascii.eqb_spec y ">") as [->|Hyg];
    [|destruct (Ascii.eqb_spec y "034") as [->|Hyq];
    [|destruct (Ascii.eqb_spec y "'") as [->|Hyp]]]]]);
    rewrite ?append_cons, ?append_nil; intros Heq;
    try discriminate Heq;
    try (injection Heq as Heq; f_equal; apply IH; exact Heq);
    try (injection Heq as Hhead Heq; congruence).
    injection Heq as -> Heq. f_equal. apply IH. exact Heq.
Qed.

(** ** One task *)

Lemma keeps_bind_post {A B} (R : World -> World -> Prop) (m : M A)
    (k : A -> M B) (Q : A -> Prop) :
  (forall w1 w2 w3, R w1 w2 -> R w2 w3 -> R w1 w3) ->
  keeps R m ->
  (forall w, match (m w).1 with Ok a => Q a | _ => True end) ->
  (forall a, Q a -> keeps R (k a)) ->
  keeps R (m ≫= k).
Proof.
  intros Rtrans Hm HQ Hk w. specialize (Hm w). specialize (HQ w).
  unfold mbind, M_bind, bind. destruct (m w) as [[a|e|] w']; simpl in *; auto.
  eapply Rtrans; [exact Hm|]. apply Hk. exact HQ.
Qed.

Lemma frame_runDownloadTask env content_type fuel task :
  keeps (sameExcept [taskPath task])
        (runDownloadTask env (downloadImage env content_type) fuel task).
Proof.
  unfold runDownloadTask.
  apply keeps_try_catch;
    [exact (sameExcept_trans _)| |intros e; apply keeps_ret;
                                   exact (sameExcept_refl _)].
  destruct (String.eqb (taskType task) "video").
  - apply (keeps_bind_post _ _ _ (pathOrNull (taskPath task)));
      [exact (sameExcept_trans _)| | |].
    + apply frame_downloadFile.
    + intros w.
      pose proof (ends_downloadFile True env fuel
                    (fun u => ends_fetchResponse_any env fuel u)
                (fun u o f n => ends_any _)
                    (taskUrl task) (taskPath task) true w) as Hends.
      unfold downloadVideo.
      destruct (downloadFile env fuel (taskUrl task) (taskPath task) true w).1;
        auto.
    + intros r [->| ->]; frame_tac.
  - apply keeps_bind; [exact (sameExcept_trans _)| |].
    + apply frame_downloadImage.
    + intros r. frame_tac.
Qed.

(* ================================================================== *)
(** * Further properties: statements *)
(* ================================================================== *)

(** ** FileTypeValidator *)

(** X1.  The validator only looks: for every path, kind and world it ends
    normally with an answer, and leaves the files and the log of calls as
    they were.  The answer depends on nothing but the file at [path]. *)
Theorem validateFileType_inspects_only (path kind : string) (w : World) :
  exists answer,
    validateFileType path kind w = (Ok answer, w) /\
    forall w', files w' !! path = files w !! path ->
               validateFileType path kind w' = (Ok answer, w').
Proof.
  destruct (validateFileType_settles path kind w) as [answer Hw].
  exists answer. split; [exact Hw|]. intros w' Hsame.
  destruct (validateFileType_settles path kind w') as [answer' Hw'].
  pose proof (validateFileType_files path kind w w' Hsame) as Heq.
  rewrite Hw, Hw' in Heq. simpl in Heq. congruence.
Qed.

(** X2.  A file that is missing, or shorter than 4 bytes, is invalid for every
    kind, the unknown kinds included. *)
Theorem validateFileType_missing_or_short (path kind : string) (w : World) :
  match files w !! path with
  | None => True
  | Some buffer => length buffer < 4
  end ->
  validateFileType path kind w = (Ok false, w).
Proof.
  unfold validateFileType, try_catch, mbind, M_bind, bind, stat_size, readFile.
  destruct (files w !! path) as [buffer|]; cbn beta iota; [|reflexivity].
  intros Hshort. apply Nat.ltb_lt in Hshort. rewrite Hshort. reflexivity.
Qed.

Lemma validateFileType_missing_or_short_witness :
  validateFileType "assets/module_0.mp4" "image" emptyWorld =
    (Ok false, emptyWorld) /\
  validateFileType "clip.bin" "other" (worldWith "clip.bin" [x00; x01]) =
    (Ok false, worldWith "clip.bin" [x00; x01]).
Proof.
  split.
  - apply (validateFileType_missing_or_short "assets/module_0.mp4" "image"
             emptyWorld). exact I.
  - apply (validateFileType_missing_or_short "clip.bin" "other"
             (worldWith "clip.bin" [x00; x01])). vm_compute. lia.
Defined.

(** X3.  For a file of at least 4 bytes, the answer for the kind "image" is
    true exactly when the file starts with the PNG, the JPEG or the GIF
    signature. *)
Theorem validateFileType_image (w : World) (path : string) (buffer : list byte) :
  files w !! path = Some buffer ->
  4 <= length buffer ->
  (validateFileType path "image" w = (Ok true, w) <->
   take 4 buffer = pngSignature \/ take 3 buffer = jpegSignature \/
   take 4 buffer = gifSignature).
Proof.
  intros Hfile Hlen. run_validate Hfile.
  assert ((length buffer <? 4)%nat = false) as -> by (apply Nat.ltb_ge; lia).
  read_file Hfile.
  rewrite <- png_check, <- jpeg_check, <- gif_check.
  destruct (byteIs buffer 0 x89 && _ && _ && _);
    destruct (byteIs buffer 0 xff && _ && _);
    destruct (byteIs buffer 0 x47 && _ && _ && _); simpl;
    split; auto; try discriminate;
    intros [H|[H|H]]; discriminate.
Qed.

Lemma validateFileType_image_witness :
  validateFileType "logo.png" "image" (worldWith "logo.png" pngFile) =
    (Ok true, worldWith "logo.png" pngFile) /\
  validateFileType "logo.png" "image" (worldWith "logo.png" mp4File) <>
    (Ok true, worldWith "logo.png" mp4File).
Proof.
  split.
  - apply (validateFileType_image (worldWith "logo.png" pngFile) "logo.png"
             pngFile); [reflexivity|simpl; lia|left; reflexivity].
  - intros Haccepted.
    apply (validateFileType_image (worldWith "logo.png" mp4File) "logo.png"
             mp4File) in Haccepted; [|reflexivity|simpl; lia].
    destruct Haccepted as [Hsig|[Hsig|Hsig]]; discriminate Hsig.
Defined.

(** X4.  A file is accepted as a video only if it has at least 8 bytes, carries
    [ftyp] in bytes 4 to 7, does not start with the PNG signature and has
    no HTML opening in its first hundred bytes; and every such file is
    accepted. *)
Theorem validateFileType_video_iff (w : World) (path : string) (buffer : list byte) :
  files w !! path = Some buffer ->
  (validateFileType path "video" w = (Ok true, w) <->
   8 <= length buffer /\ take 4 (drop 4 buffer) = ftypMarker /\
   take 4 buffer <> pngSignature /\ htmlPrefix buffer = false).
Proof.
  intros Hfile. split.
  - intros Htrue.
    destruct (Nat.lt_ge_cases (length buffer) 4) as [Hshort|Hlong].
    { rewrite (validateFileType_rejects_short path "video" w) in Htrue;
        [discriminate|rewrite Hfile; exact Hshort]. }
    revert Htrue. run_validate Hfile.
    assert ((length buffer <? 4)%nat = false) as -> by (apply Nat.ltb_ge; lia).
    read_file Hfile.
    destruct (byteIs buffer 0 x89 && _ && _ && _) eqn:Hpng; [discriminate|].
    rewrite html_check. destruct (htmlPrefix buffer); [discriminate|].
    destruct (8 <=? length buffer)%nat eqn:H8; [|discriminate].
    cbn [andb].
    destruct (byteIs buffer 4 x66 && byteIs buffer 5 x74 &&
              byteIs buffer 6 x79 && byteIs buffer 7 x70) eqn:Hftyp;
      [|discriminate].
    intros _. apply Nat.leb_le in H8. apply ftyp_check in Hftyp.
    repeat split; auto.
    intros Hsig. apply png_check in Hsig. congruence.
  - intros (Hlen & Hftyp & Hpng & Hhtml). run_validate Hfile.
    assert ((length buffer <? 4)%nat = false) as -> by (apply Nat.ltb_ge; lia).
    read_file Hfile.
    destruct (byteIs buffer 0 x89 && _ && _ && _) eqn:E.
    { apply png_check in E. contradiction. }
    rewrite html_check, Hhtml.
    apply Nat.leb_le in Hlen. rewrite Hlen.
    apply ftyp_check in Hftyp. rewrite !andb_true_iff in Hftyp.
    destruct Hftyp as [[[-> ->] ->] ->]. reflexivity.
Qed.

Lemma validateFileType_video_iff_witness :
  validateFileType "clip.mp4" "video" (worldWith "clip.mp4" mp4File) =
    (Ok true, worldWith "clip.mp4" mp4File) /\
  validateFileType "clip.mp4" "video" (worldWith "clip.mp4" errorPage) <>
    (Ok true, worldWith "clip.mp4" errorPage).
Proof.
  split.
  - apply (validateFileType_video_iff (worldWith "clip.mp4" mp4File)
             "clip.mp4" mp4File); [reflexivity|].
    repeat split; [simpl; lia|discriminate].
  - intros Haccepted.
    apply (validateFileType_video_iff (worldWith "clip.mp4" errorPage)
             "clip.mp4" errorPage) in Haccepted; [|reflexivity].
    destruct Haccepted as (_ & Hftyp & _). discriminate Hftyp.
Defined.

(** ** Direct retrieval *)


(** X6.  [fetchResponse] keeps what it receives in memory: it never touches the
    disk, and it resolves only with a response of status 200 whose body was
    delivered. *)
Theorem fetchResponse_outcome env fuel :
  forall url w,
  files (fetchResponse env fuel url w).2 = files w /\
  forall response,
    (fetchResponse env fuel url w).1 = Ok response ->
    fetchedStatus response = 200%Z /\ served env (fetchedBody response).
Proof.
  induction fuel as [|fuel IH]; intros url w.
  - simpl. split; [reflexivity|discriminate].
  - simpl. unfold mbind, M_bind, bind, httpGet.
    destruct (http_get env (now w) url)
      as [message|statusCode location contentType body delivery] eqn:Hget.
    + simpl. split; [reflexivity|discriminate].
    + destruct (redirectTarget statusCode location) as [l|].
      * destruct (redirectUrlOf env l url) as [redirectUrl|];
          [|simpl; split; [reflexivity|discriminate]].
        apply (IH redirectUrl
                  (mkWorld (files w) (EvHttpGet url :: events w))).
      * destruct (statusCode =? 200)%Z eqn:Hstatus; simpl.
        -- apply Z.eqb_eq in Hstatus. subst statusCode.
           destruct delivery; simpl; (split; [reflexivity|]);
             [|discriminate|discriminate].
           intros response [= <-]. simpl. split; [reflexivity|].
           exists (now w), url, location, contentType. exact Hget.
        -- split; [reflexivity|discriminate].
Qed.

(** ** RemoteAssetFetcher *)

(** X7.  A share link of the form [https://drive.google.com/file/d/<id>...]
    yields [<id>]: the longest run of letters, digits, [_] and [-] after
    [/file/d/], whatever follows it and whatever [new URL] would say. *)
Theorem extractGoogleDriveId_share_link (env : Env) (id rest : string) :
  id <> "" -> allIdChars id = true -> startsWithIdChar rest = false ->
  extractGoogleDriveId env
    ("https://drive.google.com/file/d/" +:+ id +:+ rest) = Some id.
Proof.
  intros Hne Hid Hrest. unfold extractGoogleDriveId.
  change (truthy ("https://drive.google.com/file/d/" +:+ id +:+ rest))
    with true. cbn [negb].
  assert (Hm : matchToken "/file/d/"
                 ("https://drive.google.com/file/d/" +:+ id +:+ rest) = Some id).
  { change ("https://drive.google.com/file/d/" +:+ id +:+ rest)
      with ("https://drive.google.com" +:+ "/file/d/" +:+ id +:+ rest).
    rewrite !append_cons, !append_nil.
    do 24 (rewrite matchToken_skip by reflexivity).
    rewrite matchToken_here.
    - cbn [String.length dropChars].
      rewrite (takeIdChars_app id rest) by assumption. reflexivity.
    - rewrite !startsWith_cons. apply startsWith_empty.
    - cbn [String.length dropChars]. rewrite (takeIdChars_app id rest) by assumption.
      destruct id; [contradiction|reflexivity]. }
  rewrite Hm. reflexivity.
Qed.

Lemma extractGoogleDriveId_share_link_witness :
  extractGoogleDriveId offline
    "https://drive.google.com/file/d/1AbC_def-123/view?usp=sharing" =
  Some "1AbC_def-123".
Proof.
  apply (extractGoogleDriveId_share_link offline "1AbC_def-123"
           "/view?usp=sharing"); [discriminate|reflexivity|reflexivity].
Defined.

(** X8.  An identifier that [extractGoogleDriveId] returns is never the empty
    string, so [if (fileId)] tests exactly whether one was found. *)
Theorem extractGoogleDriveId_nonempty (env : Env) (url id : string) :
  extractGoogleDriveId env url = Some id -> id <> "" /\ url <> "".
Proof.
  unfold extractGoogleDriveId. destruct url as [|c url]; [discriminate|].
  cbn [truthy negb].
  destruct (matchToken "/file/d/" (String c url)) as [token|] eqn:Hm.
  - intros [= <-]. apply matchToken_truthy in Hm.
    split; [|discriminate]. intros ->. discriminate.
  - destruct (parse_url env (String c url)) as [[pathname [i|]]|];
      try discriminate.
    destruct (includes pathname "open" && truthy i) eqn:Hopen; [|discriminate].
    intros [= <-]. apply andb_true_iff in Hopen as [_ Ht].
    split; [|discriminate]. intros ->. discriminate.
Qed.

Lemma extractGoogleDriveId_nonempty_witness :
  "1AbC_def-123" <> "" /\
  "https://drive.google.com/file/d/1AbC_def-123/view" <> "".
Proof.
  apply (extractGoogleDriveId_nonempty offline
           "https://drive.google.com/file/d/1AbC_def-123/view" "1AbC_def-123").
  vm_compute. reflexivity.
Defined.

(** X9.  Whatever the servers and the browser do, [downloadFile] leaves every
    file other than [outputPath] as it was: it neither creates, changes
    nor deletes it. *)
Theorem downloadFile_touches_only_output
    (env : Env) (fuel : nat) (url outputPath : string) (isVideo : bool)
    (w : World) (other : string) :
  other <> outputPath ->
  files (downloadFile env fuel url outputPath isVideo w).2 !! other =
  files w !! other.
Proof.
  intros Hother. apply (frame_downloadFile env fuel outputPath url isVideo w).
  intros Hin. apply Hother. apply list_elem_of_singleton. exact Hin.
Qed.

Lemma downloadFile_touches_only_output_witness :
  "notes.txt" <> "assets/module_0.mp4" /\
  files (downloadFile servesPng 1 "https://example.com/demo.mp4"
           "assets/module_0.mp4" true (worldWith "notes.txt" errorPage)).2
    !! "notes.txt" = Some errorPage.
Proof.
  split; [discriminate|].
  rewrite (downloadFile_touches_only_output servesPng 1
             "https://example.com/demo.mp4" "assets/module_0.mp4" true
             (worldWith "notes.txt" errorPage) "notes.txt");
    [reflexivity|discriminate].
Defined.

(** X10.  A path returned by [downloadVideo] is [outputPath], and at that moment
    the file it names passes the video check of [validateFileType]: every
    way out of [downloadFile] with a path goes through the check when
    [isVideo] is set. *)
Theorem downloadVideo_validated
    (env : Env) (fuel : nat) (url outputPath : string) (w : World) :
  match downloadVideo env fuel url outputPath w with
  | (Ok (Some p), w') =>
      p = outputPath /\ validateFileType outputPath "video" w' = (Ok true, w')
  | _ => True
  end.
Proof.
  pose proof (hoare_downloadVideo env fuel url outputPath w I) as Hv.
  destruct (downloadVideo env fuel url outputPath w) as [[[p|]|e|] w'];
    try exact I.
  destruct Hv as [-> Hp]. split; [reflexivity|].
  unfold passes in Hp.
  destruct (validateFileType_settles outputPath "video" w')
    as [answer Hv].
  rewrite Hv in Hp |- *. simpl in Hp. congruence.
Qed.

(** X11.  The outcome of a video task is the outcome of [downloadVideo]: the
    task reports type [video] with the path when a path came back, and
    [video_failed] without a path when [null] came back.  The second check
    the task makes never rejects, so the task deletes nothing. *)
Theorem runDownloadTask_video_follows_download
    (env : Env) (downloadImage : string -> string -> M (option string))
    (fuel : nat) (task : DownloadTask) (w : World) :
  taskType task = "video" ->
  truthy (taskPath task) = true ->
  match downloadVideo env fuel (taskUrl task) (taskPath task) w with
  | (Ok r, w') =>
      runDownloadTask env downloadImage fuel task w =
      (Ok (mkAsset (taskIndex task)
                   (match r with Some _ => "video" | None => "video_failed" end)
                   r (Some (taskUrl task))), w')
  | (Err _, _) => False
  | (OutOfFuel, w') =>
      runDownloadTask env downloadImage fuel task w = (OutOfFuel, w')
  end.
Proof.
  intros Htype Hpath.
  pose proof (hoare_downloadVideo env fuel (taskUrl task) (taskPath task) w I)
    as Hv.
  pose proof (ends_downloadFile True env fuel
                (fun u => ends_fetchResponse_any env fuel u)
                (fun u o f n => ends_any _)
                (taskUrl task) (taskPath task) true w) as Hends.
  unfold runDownloadTask, try_catch, mbind, M_bind, bind.
  rewrite Htype. cbn [String.eqb Ascii.eqb Bool.eqb].
  change (String.eqb "video" "video") with true. cbv iota.
  change (downloadFile env fuel (taskUrl task) (taskPath task) true)
    with (downloadVideo env fuel (taskUrl task) (taskPath task)) in Hends.
  destruct (downloadVideo env fuel (taskUrl task) (taskPath task) w)
    as [[[p|]|e|] w']; simpl in Hends; try reflexivity; [|contradiction].
  destruct Hv as [-> Hp]. rewrite Hpath. unfold passes in Hp.
  destruct (validateFileType_settles (taskPath task) "video" w')
    as [answer Hval].
  rewrite Hval in Hp |- *. simpl in Hp. injection Hp as ->.
  unfold stat_size.
  destruct (files w' !! taskPath task) as [data|] eqn:Hfile; [reflexivity|].
  exfalso. revert Hval.
  rewrite (validateFileType_rejects_short (taskPath task) "video" w').
  - discriminate.
  - rewrite Hfile. exact I.
Qed.

Lemma runDownloadTask_video_follows_download_witness :
  runDownloadTask (redirectsUntil 0) (fun _ _ => ret None) 1
    (mkTask 3 "video" "https://example.com/demo.mp4" "assets/module_3.mp4")
    emptyWorld =
  (Ok (mkAsset 3 "video" (Some "assets/module_3.mp4")
               (Some "https://example.com/demo.mp4")),
   mkWorld {[ "assets/module_3.mp4" := mp4File ]}
           [EvHttpGet "https://example.com/demo.mp4"]).
Proof.
  exact (runDownloadTask_video_follows_download (redirectsUntil 0)
           (fun _ _ => ret None) 1
           (mkTask 3 "video" "https://example.com/demo.mp4"
                   "assets/module_3.mp4")
           emptyWorld eq_refl eq_refl).
Defined.

(** X12.  [downloadImage] never rejects, whatever the servers and the
    browser do.  When it resolves, it resolves to [outputPath] or to
    [null], and a path it returns names a file that exists and is not
    empty.  It stays unsettled only when a server closes the socket in the
    middle of a body or [new URL] refuses a Location. *)
Theorem downloadImage_outcome
    (env : Env) (content_type : nat -> string) (url outputPath : string)
    (w : World) :
  match downloadImage env content_type url outputPath w with
  | (Ok (Some p), w') =>
      p = outputPath /\
      exists data, files w' !! outputPath = Some data /\ data <> []
  | (Ok None, _) => True
  | (Err _, _) => False
  | (OutOfFuel, _) => ~ settling env
  end.
Proof.
  pose proof (hoare_downloadImage env content_type outputPath url w I) as Hf.
  pose proof (ends_downloadImage (~ settling env) env content_type
                (ends_downloadFileDirect env) url outputPath w) as He.
  destruct (downloadImage env content_type url outputPath w)
    as [[[p|]|e|] w']; simpl in *; auto.
Qed.

(** X13.  [downloadImage] leaves every file other than [outputPath] as it was. *)
Theorem downloadImage_touches_only_output
    (env : Env) (content_type : nat -> string) (url outputPath : string)
    (w : World) (other : string) :
  other <> outputPath ->
  files (downloadImage env content_type url outputPath w).2 !! other =
  files w !! other.
Proof.
  intros Hother.
  apply (frame_downloadImage env outputPath content_type url w).
  intros Hin. apply Hother. apply list_elem_of_singleton. exact Hin.
Qed.

Lemma downloadImage_touches_only_output_witness :
  "notes.txt" <> "assets/image_0.png" /\
  files (downloadImage servesPng (fun _ => "image/png")
           "https://example.com/logo.png" "assets/image_0.png"
           (worldWith "notes.txt" errorPage)).2
    !! "notes.txt" = Some errorPage.
Proof.
  split; [discriminate|].
  rewrite (downloadImage_touches_only_output servesPng (fun _ => "image/png")
             "https://example.com/logo.png" "assets/image_0.png"
             (worldWith "notes.txt" errorPage) "notes.txt");
    [reflexivity|discriminate].
Defined.

Lemma trim_empty_url url : trim url <> "" -> truthy url = true.
Proof. destruct url; [intros H; contradiction H; reflexivity|reflexivity]. Qed.

(** X14.  An image is not checked.  When the URL is not a Google Drive link and
    the server answers the first request with status 200 and a body that is
    not empty, [downloadImage] returns [outputPath] with that body in the
    file, whatever the bytes are, after that single request. *)
Theorem downloadImage_accepts_any_content
    (env : Env) (content_type : nat -> string) (url outputPath : string)
    (w : World) (location contentType : option string) (body : list byte) :
  trim url <> "" ->
  extractGoogleDriveId env url = None ->
  http_get env (now w) url =
    HttpResponse 200 location contentType body Delivered ->
  body <> [] ->
  downloadImage env content_type url outputPath w =
  (Ok (Some outputPath),
   mkWorld (<[outputPath := body]> (files w)) (EvHttpGet url :: events w)).
Proof.
  intros Hurl Hid Hget Hbody. unfold downloadImage.
  rewrite (trim_empty_url url Hurl).
  destruct (String.eqb_spec (trim url) "") as [Heq|_]; [contradiction|].
  cbn [negb orb]. rewrite Hid.
  unfold imageRegularUrl, try_catch, defaultMaxRedirects.
  cbn [downloadFileDirect].
  unfold mbind, M_bind, bind, httpGet. rewrite Hget.
  cbn [redirectTarget Z.leb Z.ltb Z.compare Pos.compare Pos.compare_cont
       andb Z.eqb Pos.eqb negb].
  unfold writeFile, ret, stat_size. cbn [files events].
  rewrite lookup_insert_eq.
  destruct body as [|b body]; [contradiction|]. reflexivity.
Qed.

Lemma downloadImage_accepts_any_content_witness :
  downloadImage servesErrorPage (fun _ => "text/html")
    "https://example.com/logo.png" "assets/image_0.png" emptyWorld =
  (Ok (Some "assets/image_0.png"),
   mkWorld {[ "assets/image_0.png" := errorPage ]}
           [EvHttpGet "https://example.com/logo.png"]).
Proof.
  rewrite (downloadImage_accepts_any_content servesErrorPage
             (fun _ => "text/html") "https://example.com/logo.png"
             "assets/image_0.png" emptyWorld None (Some "text/html") errorPage);
    [reflexivity|discriminate|reflexivity|reflexivity|discriminate].
Defined.

(** X15.  The outcome of a task that is not a video task is the outcome of
    [downloadImage]: type [image] with the path when a path came back,
    [image_failed] without a path when [null] came back, and no end as long
    as [downloadImage] has none; the task never ends with an error. *)
Theorem runDownloadTask_image_follows_download
    (env : Env) (content_type : nat -> string) (fuel : nat)
    (task : DownloadTask) (w : World) :
  taskType task <> "video" ->
  truthy (taskPath task) = true ->
  match downloadImage env content_type (taskUrl task) (taskPath task) w with
  | (Ok r, w') =>
      runDownloadTask env (downloadImage env content_type) fuel task w =
      (Ok (mkAsset (taskIndex task)
                   (match r with Some _ => "image" | None => "image_failed" end)
                   r None), w')
  | (Err _, _) => False
  | (OutOfFuel, w') =>
      runDownloadTask env (downloadImage env content_type) fuel task w =
      (OutOfFuel, w')
  end.
Proof.
  intros Htype Hpath.
  pose proof (ends_downloadImage True env content_type
                (fun u o f n => ends_any _) (taskUrl task)
                (taskPath task) w) as He.
  unfold runDownloadTask, try_catch, mbind, M_bind, bind.
  apply String.eqb_neq in Htype. rewrite Htype.
  destruct (downloadImage env content_type (taskUrl task) (taskPath task) w)
    as [[[p|]|e|] w']; simpl in He; try contradiction; try reflexivity.
  destruct He as [He|He]; [discriminate|]. injection He as ->.
  rewrite Hpath. reflexivity.
Qed.

Lemma runDownloadTask_image_follows_download_witness :
  runDownloadTask servesPng (downloadImage servesPng (fun _ => "image/png")) 1
    (mkTask 2 "image" "https://example.com/logo.png" "assets/image_2.png")
    emptyWorld =
  (Ok (mkAsset 2 "image" (Some "assets/image_2.png") None),
   mkWorld {[ "assets/image_2.png" := pngFile ]}
           [EvHttpGet "https://example.com/logo.png"]).
Proof.
  assert (Htype : "image" <> "video") by discriminate.
  exact (runDownloadTask_image_follows_download servesPng
           (fun _ => "image/png") 1
           (mkTask 2 "image" "https://example.com/logo.png"
                   "assets/image_2.png")
           emptyWorld Htype eq_refl).
Defined.

(** X23.  A download task touches its own file only: whatever the servers
    and the browser do, and whether it is a video or an image task, it
    leaves every file other than [task.path] as it was.  Tasks with
    different paths therefore never write to, or delete, each other's
    files. *)
Theorem runDownloadTask_touches_only_its_path
    (env : Env) (content_type : nat -> string) (fuel : nat)
    (task : DownloadTask) (w : World) (other : string) :
  other <> taskPath task ->
  files (runDownloadTask env (downloadImage env content_type) fuel task w).2
    !! other = files w !! other.
Proof.
  intros Hother. apply (frame_runDownloadTask env content_type fuel task w).
  intros Hin. apply Hother. apply list_elem_of_singleton. exact Hin.
Qed.

Lemma runDownloadTask_touches_only_its_path_witness :
  files (runDownloadTask servesPng (downloadImage servesPng (fun _ => "image/png"))
           1 (mkTask 0 "video" "https://example.com/demo.mp4"
                     "assets/module_0.mp4")
           (worldWith "assets/module_1.mp4" mp4File)).2
    !! "assets/module_1.mp4" = Some mp4File.
Proof.
  rewrite (runDownloadTask_touches_only_its_path servesPng
             (fun _ => "image/png") 1
             (mkTask 0 "video" "https://example.com/demo.mp4"
                     "assets/module_0.mp4")
             (worldWith "assets/module_1.mp4" mp4File) "assets/module_1.mp4");
    [reflexivity|discriminate].
Defined.

(** ** DiagramRenderer *)

(** X16.  [renderMermaidDiagram] never rejects, and returns [outputPath] unless
    [sharp] is asked and fails.  It touches two files only, [outputPath]
    and the [.mmd] file that the first [.png] of the path names.  When that
    file can be created, it is removed again only when the engine
    succeeded, and then [outputPath] holds the image of the engine; when
    the engine failed, the [.mmd] file stays on disk with the source of the
    diagram.  When it cannot be created, the first [.png] being part of the
    name of a directory, the engine is never run: the only outside call is
    the one to [sharp], for the placeholder. *)
Theorem renderMermaidDiagram_outcome
    (env : Env) (mermaidCode outputPath : string) (w : World) :
  replaceFirst ".png" ".mmd" outputPath <> outputPath ->
  let temp := replaceFirst ".png" ".mmd" outputPath in
  exists r w',
    renderMermaidDiagram env mermaidCode outputPath w = (Ok r, w') /\
    (forall other, other <> outputPath -> other <> temp ->
                   files w' !! other = files w !! other) /\
    if can_write env temp then
      match exec_mmdc env (now w) mermaidCode with
      | Some image =>
          r = Some outputPath /\
          files w' !! temp = None /\ files w' !! outputPath = Some image
      | None =>
          files w' !! temp = Some (list_byte_of_string mermaidCode) /\
          (r = Some outputPath \/
           r = None /\ sharp_png env (S (now w)) placeholderSvg = None)
      end
    else
      files w' !! temp = files w !! temp /\
      events w' = EvSharp placeholderSvg :: events w /\
      (r = Some outputPath \/
       r = None /\ sharp_png env (now w) placeholderSvg = None).
Proof.
  intros Hne. cbv zeta.
  destruct (renderMermaidDiagram_eval env mermaidCode outputPath w)
    as [command Hrun].
  cbv zeta in Hrun. rewrite Hrun.
  destruct (can_write env (replaceFirst ".png" ".mmd" outputPath)).
  - destruct (exec_mmdc env (now w) mermaidCode) as [image|].
    + eexists _, _. split; [reflexivity|]. cbn [files]. split; [|split; [|split]].
      * intros other Ho Ht.
        rewrite lookup_delete_ne, !lookup_insert_ne by congruence.
        reflexivity.
      * reflexivity.
      * apply lookup_delete_eq.
      * rewrite lookup_delete_ne by exact Hne. apply lookup_insert_eq.
    + destruct (sharp_png env (S (now w)) placeholderSvg) as [image|]
        eqn:Hsharp; eexists _, _; (split; [reflexivity|]); cbn [files].
      * split; [|split; [|left; reflexivity]].
        -- intros other Ho Ht. rewrite !lookup_insert_ne by congruence.
           reflexivity.
        -- rewrite lookup_insert_ne by congruence. apply lookup_insert_eq.
      * split; [|split; [|right; auto]].
        -- intros other Ho Ht. rewrite lookup_insert_ne by congruence.
           reflexivity.
        -- apply lookup_insert_eq.
  - destruct (sharp_png env (now w) placeholderSvg) as [image|] eqn:Hsharp;
      eexists _, _; (split; [reflexivity|]); cbn [files events].
    + split; [|split; [|split; [reflexivity|left; reflexivity]]].
      * intros other Ho Ht. rewrite lookup_insert_ne by congruence.
        reflexivity.
      * apply lookup_insert_ne. congruence.
    + split; [reflexivity|]. split; [reflexivity|].
      split; [reflexivity|right; auto].
Qed.

Lemma renderMermaidDiagram_outcome_witness :
  exists r w',
    renderMermaidDiagram placeholderOnly "graph TD; A-->B"
      "assets/diagram_0.png" emptyWorld = (Ok r, w') /\
    (forall other, other <> "assets/diagram_0.png" ->
                   other <> "assets/diagram_0.mmd" ->
                   files w' !! other = files emptyWorld !! other) /\
    files w' !! "assets/diagram_0.mmd" =
      Some (list_byte_of_string "graph TD; A-->B") /\
    (r = Some "assets/diagram_0.png" \/
     r = None /\ sharp_png placeholderOnly 1 placeholderSvg = None).
Proof.
  assert (Hne : replaceFirst ".png" ".mmd" "assets/diagram_0.png"
                <> "assets/diagram_0.png") by discriminate.
  exact (renderMermaidDiagram_outcome placeholderOnly "graph TD; A-->B"
           "assets/diagram_0.png" emptyWorld Hne).
Defined.

(** X17.  The diagram loop never rejects, and what it records does not depend on
    how the rendering went: after it, the map has an entry of type
    [diagram] with the path [diagram_<j>.png] for each Mermaid slide [j]
    whose source is not blank, also when the rendering failed and there is
    no such file, and every other entry is as before. *)
Theorem renderDiagrams_entries (env : Env) (assetsDir : string)
    (slides : list Slide) :
  forall (i : nat) (assetMap : gmap nat (string * string)) (w : World),
  exists result w',
    renderDiagrams env assetsDir i slides assetMap w = (Ok result, w') /\
    forall j,
      result !! j =
      match slides !! (j - i) with
      | Some slide =>
          if (i <=? j)%nat && isMermaidSlide slide &&
             truthy (trim (diagramCodeOf slide))
          then Some ("diagram", diagramPathOf assetsDir j)
          else assetMap !! j
      | None => assetMap !! j
      end.
Proof.
  induction slides as [|slide later IH]; intros i assetMap w.
  - exists assetMap, w. split; [reflexivity|]. intros j.
    rewrite lookup_nil. reflexivity.
  - assert (Hlater : forall assetMap' w1,
              (forall j, assetMap' !! j =
                 if (j =? i)%nat && isMermaidSlide slide &&
                    truthy (trim (diagramCodeOf slide))
                 then Some ("diagram", diagramPathOf assetsDir j)
                 else assetMap !! j) ->
              exists result w',
                renderDiagrams env assetsDir (S i) later assetMap' w1 =
                  (Ok result, w') /\
                forall j,
                  result !! j =
                  match (slide :: later) !! (j - i) with
                  | Some slide =>
                      if (i <=? j)%nat && isMermaidSlide slide &&
                         truthy (trim (diagramCodeOf slide))
                      then Some ("diagram", diagramPathOf assetsDir j)
                      else assetMap !! j
                  | None => assetMap !! j
                  end).
    { intros assetMap' w1 Hmap.
      destruct (IH (S i) assetMap' w1) as (result & w' & Hrun & Hres).
      exists result, w'. split; [exact Hrun|]. intros j.
      rewrite Hres, Hmap.
      destruct (Nat.lt_trichotomy j i) as [Hlt|[->|Hgt]].
      - replace (j - S i) with 0 by lia. replace (j - i) with 0 by lia.
        assert ((S i <=? j)%nat = false) as -> by (apply Nat.leb_gt; lia).
        assert ((i <=? j)%nat = false) as -> by (apply Nat.leb_gt; lia).
        assert ((j =? i)%nat = false) as -> by (apply Nat.eqb_neq; lia).
        cbn [andb lookup list_lookup]. destruct (later !! 0); reflexivity.
      - replace (i - S i) with 0 by lia. rewrite Nat.sub_diag.
        assert ((S i <=? i)%nat = false) as -> by (apply Nat.leb_gt; lia).
        rewrite Nat.leb_refl, Nat.eqb_refl. cbn [andb lookup list_lookup].
        destruct (later !! 0); reflexivity.
      - replace (j - i) with (S (j - S i)) by lia.
        assert ((S i <=? j)%nat = true) as -> by (apply Nat.leb_le; lia).
        assert ((i <=? j)%nat = true) as -> by (apply Nat.leb_le; lia).
        assert ((j =? i)%nat = false) as -> by (apply Nat.eqb_neq; lia).
        cbn [andb lookup list_lookup].
        destruct (later !! (j - S i)) as [s|]; [|reflexivity].
        destruct (isMermaidSlide s && truthy (trim (diagramCodeOf s)));
          reflexivity. }
    simpl renderDiagrams.
    destruct (isMermaidSlide slide) eqn:Hm;
      [destruct (truthy (trim (diagramCodeOf slide))) eqn:Hcode|].
    + unfold mbind, M_bind, bind.
      destruct (renderMermaidDiagram_eval env (diagramCodeOf slide)
                  (diagramPathOf assetsDir i) w) as [command Hrun].
      cbv zeta in Hrun. rewrite Hrun.
      destruct (can_write env _);
        [destruct (exec_mmdc env (now w) (diagramCodeOf slide));
         [|destruct (sharp_png env (S (now w)) placeholderSvg)]
        |destruct (sharp_png env (now w) placeholderSvg)];
        apply Hlater; intros j;
        (destruct (Nat.eqb_spec j i) as [->|Hji];
         [apply lookup_insert_eq|apply lookup_insert_ne; congruence]).
    + apply Hlater. intros j. rewrite andb_false_r. reflexivity.
    + apply Hlater. intros j. rewrite andb_false_r. reflexivity.
Qed.

(** ** ContentAggregator *)

(** X18.  The aggregator only touches System Requirements slides.  The other
    slides come out unchanged and in the order they went in; a deck without
    System Requirements slides comes out as it went in; and every slide the
    aggregator makes is itself a System Requirements slide. *)
Theorem aggregateSlides_passes_others (slides : list Slide) :
  filter (fun s => isSystemRequirements s = false) (aggregateSlides slides) =
    filter (fun s => isSystemRequirements s = false) slides /\
  (Forall (fun s => isSystemRequirements s = false) slides ->
   aggregateSlides slides = slides) /\
  (forall s, s ∈ aggregateSlides slides -> s ∈ slides \/
                                          isSystemRequirements s = true).
Proof.
  remember (length slides) as n eqn:Hn.
  revert slides Hn.
  induction n as [n IH] using lt_wf_ind. intros slides Hn.
  destruct slides as [|slide rest].
  { simp aggregateSlides. repeat split; auto. }
  destruct (isSystemRequirements slide) eqn:Hs.
  - pose proof (collectRun_split rest) as Hsplit.
    destruct (collectRun rest) as [run after] eqn:Hrun.
    destruct Hsplit as (Hrest & Hall & Hafter).
    assert (Hagg : aggregateSlides (slide :: rest) =
                   aggregateRun (slide :: run) ++ aggregateSlides after).
    { rewrite Hrest. apply aggregateSlides_cons_run; assumption. }
    assert (Hlen : length after < n).
    { subst n rest. simpl. rewrite length_app. lia. }
    destruct (IH (length after) Hlen after eq_refl) as (IH1 & _ & IH3).
    assert (Hmade : Forall (fun d => isSystemRequirements d = true)
                           (aggregateRun (slide :: run))).
    { apply aggregateRun_SR. constructor; assumption. }
    rewrite Hagg. repeat split.
    + rewrite filter_app, (filter_others_SR _ Hmade), IH1. simpl.
      rewrite filter_cons. destruct (decide _) as [Hf|_]; [congruence|].
      rewrite Hrest, filter_app, (filter_others_SR _ Hall). reflexivity.
    + intros Hnone. apply Forall_cons in Hnone as [Hf _]. congruence.
    + intros s Hin. apply elem_of_app in Hin as [Hin|Hin].
      * right. rewrite Forall_forall in Hmade. auto.
      * destruct (IH3 s Hin) as [Hold|Hsr]; [left|right; exact Hsr].
        rewrite Hrest. right. apply elem_of_app. right. exact Hold.
  - rewrite aggregateSlides_cons_other by exact Hs.
    assert (Hlen : length rest < n) by (subst n; simpl; lia).
    destruct (IH (length rest) Hlen rest eq_refl) as (IH1 & IH2 & IH3).
    repeat split.
    + rewrite !filter_cons. destruct (decide _) as [_|Hf]; [|congruence].
      rewrite IH1. reflexivity.
    + intros Hnone. apply Forall_cons in Hnone as [_ Hnone].
      rewrite IH2 by exact Hnone. reflexivity.
    + intros s Hin. apply elem_of_cons in Hin as [->|Hin]; [left; left|].
      destruct (IH3 s Hin) as [Hold|Hsr]; [left; right; exact Hold|right].
      exact Hsr.
Qed.

(** X19.  The content blocks of the deck keep their order through the
    aggregator, none is duplicated and none is invented: the blocks of the
    output, read slide after slide, are the blocks of the input with those
    of the dropped System Requirements slides and those in front of the
    first section header of a slide cut at its headers taken out. *)
Theorem aggregateSlides_content (slides : list Slide) :
  flat_map contentOf (aggregateSlides slides) = flat_map keptContent slides.
Proof.
  remember (length slides) as n eqn:Hn.
  revert slides Hn.
  induction n as [n IH] using lt_wf_ind. intros slides Hn.
  destruct slides as [|slide rest]; [simp aggregateSlides; reflexivity|].
  destruct (isSystemRequirements slide) eqn:Hs.
  - pose proof (collectRun_split rest) as Hsplit.
    destruct (collectRun rest) as [run after] eqn:Hrun.
    destruct Hsplit as (Hrest & Hall & Hafter).
    assert (Hlen : length after < n).
    { subst n rest. simpl. rewrite length_app. lia. }
    rewrite Hrest, aggregateSlides_cons_run by assumption.
    rewrite flat_map_app, aggregateRun_content by (constructor; assumption).
    rewrite (IH (length after) Hlen after eq_refl).
    rewrite app_comm_cons, flat_map_app. reflexivity.
  - rewrite aggregateSlides_cons_other by exact Hs.
    assert (Hlen : length rest < n) by (subst n; simpl; lia).
    cbn [flat_map]. rewrite (IH (length rest) Hlen rest eq_refl).
    unfold keptContent at 2. rewrite Hs. reflexivity.
Qed.

(** X20.  No slide is invented.  Every slide of the output is a slide of the
    input that is not a System Requirements slide, or a copy of a System
    Requirements slide of the input that passed the filter: it has the type,
    the diagram and the remaining properties of that slide, and only its
    title, content and group are new. *)
Theorem aggregateSlides_provenance (slides : list Slide) (d : Slide) :
  d ∈ aggregateSlides slides ->
  (d ∈ slides /\ isSystemRequirements d = false) \/
  exists s, s ∈ slides /\ isSystemRequirements s = true /\
            isNonTrivial s = true /\ d ∈ splitSlide s /\
            type d = type s /\ diagram d = diagram s /\ others d = others s.
Proof.
  remember (length slides) as n eqn:Hn.
  revert slides Hn.
  induction n as [n IH] using lt_wf_ind. intros slides Hn.
  destruct slides as [|slide rest].
  { simp aggregateSlides. intros Hin. inversion Hin. }
  destruct (isSystemRequirements slide) eqn:Hs.
  - pose proof (collectRun_split rest) as Hsplit.
    destruct (collectRun rest) as [run after] eqn:Hrun.
    destruct Hsplit as (Hrest & Hall & Hafter).
    assert (Hlen : length after < n).
    { subst n rest. simpl. rewrite length_app. lia. }
    rewrite Hrest, aggregateSlides_cons_run by assumption.
    intros Hin. apply elem_of_app in Hin as [Hin|Hin].
    + right. rewrite aggregateRun_filter in Hin.
      apply list_elem_of_In, in_flat_map in Hin as (s & Hs' & Hd).
      apply list_elem_of_In, list_elem_of_filter in Hs' as [Hnt Hs'].
      apply list_elem_of_In in Hd.
      exists s. repeat split; auto using splitSlide_fields;
        try (apply (splitSlide_fields s d Hd)).
      * rewrite app_comm_cons. apply elem_of_app. left. exact Hs'.
      * assert (Hall' : Forall (fun s => isSystemRequirements s = true)
                               (slide :: run)) by (constructor; assumption).
        rewrite Forall_forall in Hall'. auto.
    + destruct (IH (length after) Hlen after eq_refl Hin)
        as [[Hold Hnot]|(s & Hs' & Hrest')].
      * left. split; [|exact Hnot].
        right. apply elem_of_app. right. exact Hold.
      * right. exists s. split; [|exact Hrest'].
        right. apply elem_of_app. right. exact Hs'.
  - rewrite aggregateSlides_cons_other by exact Hs.
    assert (Hlen : length rest < n) by (subst n; simpl; lia).
    intros Hin. apply elem_of_cons in Hin as [->|Hin].
    + left. split; [left|exact Hs].
    + destruct (IH (length rest) Hlen rest eq_refl Hin)
        as [[Hold Hnot]|(s & Hs' & Hrest')].
      * left. split; [right; exact Hold|exact Hnot].
      * right. exists s. split; [right; exact Hs'|exact Hrest'].
Qed.

Lemma aggregateSlides_provenance_witness :
  (titleSlide ∈ [titleSlide; shortPlainSlide] /\
   isSystemRequirements titleSlide = false) \/
  exists s, s ∈ [titleSlide; shortPlainSlide] /\
            isSystemRequirements s = true /\
            isNonTrivial s = true /\ titleSlide ∈ splitSlide s /\
            type titleSlide = type s /\ diagram titleSlide = diagram s /\
            others titleSlide = others s.
Proof.
  apply (aggregateSlides_provenance [titleSlide; shortPlainSlide] titleSlide).
  rewrite aggregateSlides_cons_other by reflexivity. left.
Defined.

(** ** Renderers: shared utilities *)

(** X21.  The escaped text holds none of the characters [<], [>], the double
    quote and ['], whatever the text is. *)
Theorem escapeHtml_safe (text : string) (c : ascii) :
  c = "<"%char \/ c = ">"%char \/ c = "034"%char \/ c = "'"%char ->
  hasChar c (escapeHtml text) = false.
Proof.
  intros Hc. rewrite escapeHtml_one_pass.
  induction text as [|x text IH]; [reflexivity|].
  cbn [escapeEach]. rewrite hasChar_app, IH, escapeChar_safe by exact Hc.
  reflexivity.
Qed.

Lemma escapeHtml_safe_witness :
  hasChar "<" (escapeHtml "<b>R&D</b>") = false.
Proof. apply (escapeHtml_safe "<b>R&D</b>" "<"). left. reflexivity. Defined.

(** X22.  Escaping loses nothing: two texts with the same escaped form are the
    same text. *)
Theorem escapeHtml_injective (a b : string) :
  escapeHtml a = escapeHtml b -> a = b.
Proof. rewrite !escapeHtml_one_pass. apply escapeEach_injective. Qed.

Lemma escapeHtml_injective_witness : "R&D <1>" = "R&D <1>".
Proof. apply (escapeHtml_injective "R&D <1>" "R&D <1>"). reflexivity. Defined.
